(** * Gaussian process regression engine

    A shallow embedding of [gpr::GaussianProcess<TScalarType>]
    (include/GaussianProcess.h and its implementation file) and the
    properties of sample accumulation, training, prediction, persistence
    and comparison that are stated about it.

    Conventions of the embedding.
    - [TScalarType] is a type class [Scalar]: the engine is a template
      over the scalar and uses it only through arithmetic, [sqrt], [>],
      [!=] and stream insertion and extraction.
    - Eigen dynamic matrices are records of their two dimensions and
      their coefficients, row by row; Eigen vectors are lists.  Where
      Eigen asserts (operand sizes that do not fit, an index out of
      range) the operation has no result ([None], and [Undefined] for a
      method).
    - A method of the class is a function from the [World] (the object
      [this], the files on disk, the record of solver runs) to a
      [Result]: it returns, or throws with the world as the throw left
      it, or is undefined.
    - Sizes and loop counters ([unsigned], [size_t], Eigen's [Index])
      are natural numbers: no store of 2^32 vectors is considered.
    - The files are a map from paths to nodes.  Whether a
      [std::ofstream] opens on a path that is not a directory is for
      the operating system to say, a parameter of the embedding
      ([FileOpening]): the engine never looks at the state of the
      stream it writes to.
    - Printing to [std::cout], under [debug] and by [ToString], is not
      modelled, nor is [gp_lock] with [Lock] and [UnLock]. *)

From Stdlib Require Import String Ascii List Arith Bool Lia ZArith.
From Stdlib Require Import DecimalString DecimalZ.
Import ListNotations.
Local Open Scope string_scope.
Local Open Scope list_scope.
Local Open Scope nat_scope.

Set Implicit Arguments.

(* ------------------------------------------------------------------ *)
(** * Formatted extraction *)

(** What [num_get] makes of the characters at the head of a stream,
    leading white space already skipped: a value and the characters
    left, or a failure, which may store a value all the same (zero, or
    the largest value on overflow). *)
Inductive ScanResult (A : Type) : Type :=
| Scanned (v : A) (rest : string)
| ScanFailed (stored : option A) (rest : string).

Arguments ScanFailed {A} stored rest.

(* ------------------------------------------------------------------ *)
(** * Scalars *)

(** The operations of [TScalarType] that the engine uses. *)
Class Scalar (T : Type) : Type := {
  s_zero : T;
  s_add : T -> T -> T;
  s_sub : T -> T -> T;
  s_mul : T -> T -> T;
  s_neg : T -> T;
  s_sqrt : T -> T;
  (** [a > 0] *)
  s_pos : T -> bool;
  (** [a != b] *)
  s_neq : T -> T -> bool;
  (** [std::numeric_limits<TScalarType>::digits10] *)
  s_digits10 : nat;
  (** [os << std::setprecision(p) << a] *)
  s_show : nat -> T -> string;
  (** [is >> a] *)
  s_scan : string -> ScanResult T
}.

(** What the comparison operator needs of the scalar: a value that is
    a zero or not a number ([s_null]) stays so under squaring, summing
    and the square root, and is not [> 0]; the difference of a value
    with itself is such a value.  Both IEEE formats and every ordered
    field satisfy this. *)
Class ScalarLaws (T : Type) `{Scalar T} : Type := {
  s_null : T -> Prop;
  s_null_zero : s_null s_zero;
  s_null_sub : forall a, s_null (s_sub a a);
  s_null_mul : forall a, s_null a -> s_null (s_mul a a);
  s_null_add : forall a b, s_null a -> s_null b -> s_null (s_add a b);
  s_null_sqrt : forall a, s_null a -> s_null (s_sqrt a);
  s_null_pos : forall a, s_null a -> s_pos a = false
}.

(* ------------------------------------------------------------------ *)
(** * The option monad of Eigen assertions *)

Definition obind {A B : Type} (o : option A) (f : A -> option B) : option B :=
  match o with
  | Some a => f a
  | None => None
  end.

Notation "'let?' x ':=' o 'in' k" := (obind o (fun x => k))
  (at level 10, x name, o at level 100, k at level 200).

(** [for(unsigned i = start; i < start + count; i++) body], threading
    the value the body updates. *)
Fixpoint for_loop {S : Type} (start count : nat)
    (body : nat -> S -> option S) (s : S) : option S :=
  match count with
  | O => Some s
  | Datatypes.S count' =>
      let? s' := body start s in for_loop (Datatypes.S start) count' body s'
  end.

(* ------------------------------------------------------------------ *)
(** * Eigen vectors and matrices *)

Section Eigen.
Context {T : Type} `{Scalar T}.

(** [Eigen::Matrix<TScalarType, Dynamic, 1>] *)
Definition Vector : Type := list T.

(** [Eigen::Matrix<TScalarType, Dynamic, Dynamic, RowMajor>] *)
Record Matrix : Type := mkMatrix {
    rows : nat;
    cols : nat;
    coeffs : list (list T)
  }.

(** The matrix of the given size whose coefficient (i,j) is [f i j]. *)
Definition tabulate (r c : nat) (f : nat -> nat -> T) : Matrix :=
    mkMatrix r c (map (fun i => map (fun j => f i j) (seq 0 c)) (seq 0 r)).

(** [M(i,j)], read. *)
Definition coeff (M : Matrix) (i j : nat) : T :=
    nth j (nth i (coeffs M) []) s_zero.

(** [v(i)] and [vs[i]], read inside their range. *)
Definition vcoeff (v : Vector) (i : nat) : T := nth i v s_zero.

(** [M(i,j) = v]. *)
Definition set_coeff (M : Matrix) (i j : nat) (v : T) : option Matrix :=
    if (i <? rows M) && (j <? cols M)
    then Some (tabulate (rows M) (cols M)
                 (fun a b => if (a =? i) && (b =? j) then v else coeff M a b))
    else None.

(** [M.resize(r,c)] on a matrix of another size: the coefficients are
    not initialised; [junk] stands for what they hold. *)
Definition resize (junk : nat -> nat -> T) (r c : nat) : Matrix :=
    tabulate r c junk.

(** [MatrixType::Zero(r,c)] *)
Definition Zero (r c : nat) : Matrix := tabulate r c (fun _ _ => s_zero).

(** [M.col(j)], read. *)
Definition col (M : Matrix) (j : nat) : option Vector :=
    if j <? cols M then Some (map (fun i => coeff M i j) (seq 0 (rows M)))
    else None.

(** [M.col(j) = v] and [M.block(0,j,rows,1) = v]. *)
Definition set_col (M : Matrix) (j : nat) (v : Vector) : option Matrix :=
    if (j <? cols M) && (length v =? rows M)
    then Some (tabulate (rows M) (cols M)
                 (fun a b => if b =? j then vcoeff v a else coeff M a b))
    else None.

(** [M.block(i,0,1,cols) = v.adjoint()]. *)
Definition set_row (M : Matrix) (i : nat) (v : Vector) : option Matrix :=
    if (i <? rows M) && (length v =? cols M)
    then Some (tabulate (rows M) (cols M)
                 (fun a b => if a =? i then vcoeff v b else coeff M a b))
    else None.

(** [M.transpose()] *)
Definition transpose (M : Matrix) : Matrix :=
    tabulate (cols M) (rows M) (fun i j => coeff M j i).

(** [-M] *)
Definition mneg (M : Matrix) : Matrix :=
    tabulate (rows M) (cols M) (fun i j => s_neg (coeff M i j)).

(** The sum of the products of two sequences: each product is added
    to the sum of the products after it. *)
Fixpoint dot (u v : list T) : T :=
    match u, v with
    | a :: u', b :: v' => s_add (s_mul a b) (dot u' v')
    | _, _ => s_zero
    end.

Definition row (M : Matrix) (i : nat) : list T :=
    map (fun j => coeff M i j) (seq 0 (cols M)).

Definition column (M : Matrix) (j : nat) : list T :=
    map (fun i => coeff M i j) (seq 0 (rows M)).

(** [A * B] *)
Definition mat_mul (A B : Matrix) : option Matrix :=
    if cols A =? rows B
    then Some (tabulate (rows A) (cols B) (fun i j => dot (row A i) (column B j)))
    else None.

(** [A * v] *)
Definition mat_vec (A : Matrix) (v : Vector) : option Vector :=
    if cols A =? length v
    then Some (map (fun i => dot (row A i) v) (seq 0 (rows A)))
    else None.

(** [(v.adjoint() * A).adjoint()] *)
Definition vec_mat (v : Vector) (A : Matrix) : option Vector :=
    if length v =? rows A
    then Some (map (fun j => dot v (column A j)) (seq 0 (cols A)))
    else None.

(** [u.cwiseProduct(v)] *)
Definition cwiseProduct (u v : Vector) : option Vector :=
    if length u =? length v
    then Some (map (fun p => s_mul (fst p) (snd p)) (combine u v))
    else None.

(** [u - v] on vectors. *)
Definition vsub (u v : Vector) : option Vector :=
    if length u =? length v
    then Some (map (fun p => s_sub (fst p) (snd p)) (combine u v))
    else None.

(** [A - B] on matrices. *)
Definition msub (A B : Matrix) : option Matrix :=
    if (rows A =? rows B) && (cols A =? cols B)
    then Some (tabulate (rows A) (cols A)
                 (fun i j => s_sub (coeff A i j) (coeff B i j)))
    else None.

(** [squaredNorm()]: the sum of the squares of the coefficients. *)
Definition squaredNorm (l : list T) : T :=
    fold_right (fun a acc => s_add (s_mul a a) acc) s_zero l.

(** [v.norm()] *)
Definition vnorm (v : Vector) : T := s_sqrt (squaredNorm v).

(** [M.norm()], over the [rows M * cols M] coefficients. *)
Definition mnorm (M : Matrix) : T :=
    s_sqrt (squaredNorm (concat (map (row M) (seq 0 (rows M))))).

(** [v.resize(n)]: the coefficients are not initialised. *)
Definition vresize (junk : nat -> nat -> T) (n : nat) : Vector :=
    map (fun i => junk i 0) (seq 0 n).

(** [v(i) = a]. *)
Definition vset (v : Vector) (i : nat) (a : T) : option Vector :=
    if i <? length v
    then Some (map (fun k => if k =? i then a else vcoeff v k) (seq 0 (length v)))
    else None.

End Eigen.

Arguments Matrix T : clear implicits.
Arguments Vector T : clear implicits.

(* ------------------------------------------------------------------ *)
(** * Collaborators of the engine *)

(** Modelled from the spec: [Kernel<TScalarType>] of Kernel.h, which is
    not among the sources.  A kernel evaluates two vectors to a scalar,
    has a name and an ordered sequence of parameters. *)
Record Kernel (T : Type) : Type := mkKernel {
  k_eval : Vector T -> Vector T -> T;
  k_ToString : string;
  k_GetParameters : list T
}.

(** Modelled from the spec: the comparison of two kernels and the two
    kernels that can be loaded by name, [GaussianKernel] of two
    parameters and [PeriodicKernel] of three (Kernel.h is not among the
    sources). *)
Class KernelLibrary (T : Type) : Type := {
  (** [*k1 != *k2] *)
  Kernel_neq : Kernel T -> Kernel T -> bool;
  GaussianKernel : T -> T -> Kernel T;
  PeriodicKernel : T -> T -> T -> Kernel T
}.

(** [K.inverse()] of Eigen: a matrix of the size of [K]; which
    coefficients it holds is Eigen's business. *)
Class EigenInverse (T : Type) : Type := {
  inverse_coeff : Matrix T -> nat -> nat -> T
}.

Definition inverse {T : Type} `{Scalar T} `{EigenInverse T} (K : Matrix T) : option (Matrix T) :=
  if rows K =? cols K
  then Some (tabulate (rows K) (cols K) (inverse_coeff K))
  else None.

(** Modelled from the spec: the text that [WriteMatrix] of MatrixIO.h
    writes for a matrix and the matrix that [ReadMatrix] reads from a
    text, if any (MatrixIO.h is not among the sources). *)
Class MatrixIO (T : Type) : Type := {
  matrix_to_text : Matrix T -> string;
  matrix_of_text : string -> option (Matrix T)
}.

(** Insertion and extraction of [unsigned], [size_t] and [bool] by the
    standard streams. *)
Class StreamFormat : Type := {
  show_unsigned : nat -> string;
  scan_unsigned : string -> ScanResult nat;
  scan_bool : string -> ScanResult bool
}.

(** [os << b] without [boolalpha]. *)
Definition show_bool (b : bool) : string := if b then "1" else "0".

(* ------------------------------------------------------------------ *)
(** * String streams *)

(** [std::stringstream line_stream(line)], read only: the characters
    not yet extracted and the fail bit. *)
Record istream : Type := mkIstream {
  is_buf : string;
  is_fail : bool
}.

(** [std::isspace] in the C locale. *)
Definition is_space (c : ascii) : bool :=
  let n := nat_of_ascii c in (n =? 32) || ((9 <=? n) && (n <=? 13)).

Fixpoint skipws (s : string) : string :=
  match s with
  | String c s' => if is_space c then skipws s' else s
  | EmptyString => EmptyString
  end.

(** The characters up to the next white space, and the rest. *)
Fixpoint take_word (s : string) : string * string :=
  match s with
  | String c s' =>
      if is_space c then (EmptyString, s)
      else let (w, r) := take_word s' in (String c w, r)
  | EmptyString => (EmptyString, EmptyString)
  end.

(** [is >> str] for a [std::string]. *)
Definition scan_string (s : string) : ScanResult string :=
  let (w, r) := take_word s in Scanned w r.

(** [is >> x]: nothing happens on a stream that has failed; white
    space is skipped; at the end of the stream the extraction fails and
    [x] keeps its value; otherwise [scan] decides.  The result is the
    stream and the value of [x] afterwards. *)
Definition extract {A : Type} (scan : string -> ScanResult A)
    (ls : istream) (x : A) : istream * A :=
  if is_fail ls then (ls, x)
  else
    match skipws (is_buf ls) with
    | EmptyString => (mkIstream EmptyString true, x)
    | s =>
        match scan s with
        | Scanned v r => (mkIstream r false, v)
        | ScanFailed stored r =>
            (mkIstream r true, match stored with Some v => v | None => x end)
        end
    end.

(** [std::getline(file, line)] on a file just opened: the first line,
    unless the file is empty. *)
Fixpoint first_line (s : string) : string :=
  match s with
  | String c s' => if (nat_of_ascii c =? 10) then EmptyString else String c (first_line s')
  | EmptyString => EmptyString
  end.

Definition getline (content : string) : option string :=
  match content with
  | EmptyString => None
  | _ => Some (first_line content)
  end.

(* ------------------------------------------------------------------ *)
(** * Files *)

Inductive Node : Type :=
| Directory
| RegularFile (content : string).

(** The paths that exist, the latest entry of a path first. *)
Definition FileSystem : Type := list (string * Node).

Fixpoint lookup (path : string) (fs : FileSystem) : option Node :=
  match fs with
  | (p, n) :: fs' => if String.eqb p path then Some n else lookup path fs'
  | [] => None
  end.

(** [fs::exists(p) && !fs::is_directory(p)] *)
Definition is_regular_file (path : string) (fs : FileSystem) : bool :=
  match lookup path fs with
  | Some (RegularFile _) => true
  | _ => false
  end.

(** Modelled from the spec: what [WriteMatrix] of MatrixIO.h, which is
    not among the sources, does to the files: the text becomes the
    content of the file at [path], unless [path] is a directory. *)
Definition write_file (path content : string) (fs : FileSystem) : FileSystem :=
  match lookup path fs with
  | Some Directory => fs
  | _ => (path, RegularFile content) :: fs
  end.

(** Whether [std::ofstream::open] succeeds on a path that is not a
    directory.  The operating system decides: the directory that the
    path lies in may be missing, or the process may not be allowed to
    write there. *)
Class FileOpening : Type := {
  opens_for_writing : string -> FileSystem -> bool
}.

(** A [std::ofstream] that is opened on [path], written to and closed
    with no look at the state of the stream: when the open fails, the
    insertions do nothing, no file is made and nothing is raised. *)
Definition ofstream_write `{FileOpening} (path content : string)
    (fs : FileSystem) : FileSystem :=
  match lookup path fs with
  | Some Directory => fs
  | _ => if opens_for_writing path fs
         then (path, RegularFile content) :: fs
         else fs
  end.

(* ------------------------------------------------------------------ *)
(** * The model object *)

Inductive InversionMethod : Type :=
| FullPivotLU
| JacobiSVD
| BDCSVD
| SelfAdjointEigenSolver.

(** The data members of [GaussianProcess<TScalarType>]. *)
Record GaussianProcess (T : Type) : Type := mkGaussianProcess {
  m_Kernel : Kernel T;
  m_Sigma : T;
  m_SampleVectors : list (Vector T);
  m_LabelVectors : list (Vector T);
  m_RegressionVectors : Matrix T;
  m_CoreMatrix : Matrix T;
  m_Initialized : bool;
  m_InputDimension : nat;
  m_OutputDimension : nat;
  m_InvMethod : InversionMethod;
  m_EfficientStorage : bool;
  debug : bool
}.

(** What a [throw std::string(...)] of the engine says. *)
Inductive Exception : Type :=
(** "dimension of input vector (got) does not correspond to the input
    dimension (expected)." *)
| InputDimensionMismatch (caller : string) (got expected : nat)
(** "dimension of output vector (got) does not correspond to the
    output dimension (expected." *)
| OutputDimensionMismatch (caller : string) (got expected : nat)
(** "GaussianProcess::Initialize: no input samples defined during
    initialization" *)
| NoInputSamples
(** "GaussianProcess::Initialize: no ouput labels defined during
    initialization" *)
| NoOutputLabels
(** "GaussianProcess::ComputeRegressionVectors: no ouput labels defined
    during computation of the regression vectors." *)
| NoOutputLabelsInComputation
(** "GaussianProcess::Save: gaussian process is not initialized." *)
| SaveNotInitialized
(** "GaussianProcess::ComputeKernelVecotr: gaussian process is not
    initialized." *)
| KernelVectorNotInitialized
(** "GaussianProcess::Load: path does not exist or is a directory." *)
| FileMissing (path : string)
(** Modelled from the spec: the explicit failure of [ReadMatrix] on a
    file whose content is not a matrix. *)
| MatrixUnreadable (path : string)
(** "GaussianProcess::Load: parameter file is corrupt" *)
| ParameterFileCorrupt
(** "GaussianProcess::Load: wrong number of kernel parameters." *)
| WrongNumberOfKernelParameters
(** "GaussianProcess::Load: kernel not recognized." *)
| KernelNotRecognized.

(** What a method runs in: the object, the files, and the sample
    counts with which the regression solver has been run, latest
    first. *)
Record World (T : Type) : Type := mkWorld {
  this : GaussianProcess T;
  disk : FileSystem;
  solver_runs : list nat
}.

Inductive Result (T A : Type) : Type :=
| Returns (a : A) (w : World T)
| Throws (e : Exception) (w : World T)
| Undefined.

Arguments Returns {T A} a w.
Arguments Throws {T A} e w.
Arguments Undefined {T A}.

Definition Method (T A : Type) : Type := World T -> Result T A.

Definition ret {T A : Type} (a : A) : Method T A := fun w => Returns a w.

Definition bind {T A B : Type} (m : Method T A) (k : A -> Method T B) : Method T B :=
  fun w =>
    match m w with
    | Returns a w' => k a w'
    | Throws e w' => Throws e w'
    | Undefined => Undefined
    end.

Notation "x <- m ;; k" := (bind m (fun x => k))
  (at level 61, m at next level, right associativity).
Notation "m ;; k" := (bind m (fun _ => k))
  (at level 61, right associativity).

Definition throw {T A : Type} (e : Exception) : Method T A := fun w => Throws e w.

(** An Eigen expression or an indexed access: undefined when its
    assertion fails. *)
Definition defined {T A : Type} (o : option A) : Method T A :=
  fun w => match o with Some a => Returns a w | None => Undefined end.

Definition get_this {T : Type} : Method T (GaussianProcess T) :=
  fun w => Returns (this w) w.

Definition set_this {T : Type} (f : GaussianProcess T -> GaussianProcess T) : Method T unit :=
  fun w => Returns tt (mkWorld (f (this w)) (disk w) (solver_runs w)).

Definition get_disk {T : Type} : Method T FileSystem :=
  fun w => Returns (disk w) w.

Definition set_disk {T : Type} (f : FileSystem -> FileSystem) : Method T unit :=
  fun w => Returns tt (mkWorld (this w) (f (disk w)) (solver_runs w)).

Definition note_solver_run {T : Type} (n : nat) : Method T unit :=
  fun w => Returns tt (mkWorld (this w) (disk w) (n :: solver_runs w)).

Section Assignments.
Context {T : Type}.
Implicit Type gp : GaussianProcess T.

Definition with_Kernel (k : Kernel T) gp :=
    mkGaussianProcess k (m_Sigma gp) (m_SampleVectors gp) (m_LabelVectors gp)
      (m_RegressionVectors gp) (m_CoreMatrix gp) (m_Initialized gp)
      (m_InputDimension gp) (m_OutputDimension gp) (m_InvMethod gp)
      (m_EfficientStorage gp) (debug gp).

Definition with_Sigma (s : T) gp :=
    mkGaussianProcess (m_Kernel gp) s (m_SampleVectors gp) (m_LabelVectors gp)
      (m_RegressionVectors gp) (m_CoreMatrix gp) (m_Initialized gp)
      (m_InputDimension gp) (m_OutputDimension gp) (m_InvMethod gp)
      (m_EfficientStorage gp) (debug gp).

Definition with_SampleVectors (xs : list (Vector T)) gp :=
    mkGaussianProcess (m_Kernel gp) (m_Sigma gp) xs (m_LabelVectors gp)
      (m_RegressionVectors gp) (m_CoreMatrix gp) (m_Initialized gp)
      (m_InputDimension gp) (m_OutputDimension gp) (m_InvMethod gp)
      (m_EfficientStorage gp) (debug gp).

Definition with_LabelVectors (ys : list (Vector T)) gp :=
    mkGaussianProcess (m_Kernel gp) (m_Sigma gp) (m_SampleVectors gp) ys
      (m_RegressionVectors gp) (m_CoreMatrix gp) (m_Initialized gp)
      (m_InputDimension gp) (m_OutputDimension gp) (m_InvMethod gp)
      (m_EfficientStorage gp) (debug gp).

Definition with_RegressionVectors (R : Matrix T) gp :=
    mkGaussianProcess (m_Kernel gp) (m_Sigma gp) (m_SampleVectors gp) (m_LabelVectors gp)
      R (m_CoreMatrix gp) (m_Initialized gp)
      (m_InputDimension gp) (m_OutputDimension gp) (m_InvMethod gp)
      (m_EfficientStorage gp) (debug gp).

Definition with_CoreMatrix (C : Matrix T) gp :=
    mkGaussianProcess (m_Kernel gp) (m_Sigma gp) (m_SampleVectors gp) (m_LabelVectors gp)
      (m_RegressionVectors gp) C (m_Initialized gp)
      (m_InputDimension gp) (m_OutputDimension gp) (m_InvMethod gp)
      (m_EfficientStorage gp) (debug gp).

Definition with_Initialized (b : bool) gp :=
    mkGaussianProcess (m_Kernel gp) (m_Sigma gp) (m_SampleVectors gp) (m_LabelVectors gp)
      (m_RegressionVectors gp) (m_CoreMatrix gp) b
      (m_InputDimension gp) (m_OutputDimension gp) (m_InvMethod gp)
      (m_EfficientStorage gp) (debug gp).

Definition with_InputDimension (d : nat) gp :=
    mkGaussianProcess (m_Kernel gp) (m_Sigma gp) (m_SampleVectors gp) (m_LabelVectors gp)
      (m_RegressionVectors gp) (m_CoreMatrix gp) (m_Initialized gp)
      d (m_OutputDimension gp) (m_InvMethod gp)
      (m_EfficientStorage gp) (debug gp).

Definition with_OutputDimension (d : nat) gp :=
    mkGaussianProcess (m_Kernel gp) (m_Sigma gp) (m_SampleVectors gp) (m_LabelVectors gp)
      (m_RegressionVectors gp) (m_CoreMatrix gp) (m_Initialized gp)
      (m_InputDimension gp) d (m_InvMethod gp)
      (m_EfficientStorage gp) (debug gp).

Definition with_InvMethod (m : InversionMethod) gp :=
    mkGaussianProcess (m_Kernel gp) (m_Sigma gp) (m_SampleVectors gp) (m_LabelVectors gp)
      (m_RegressionVectors gp) (m_CoreMatrix gp) (m_Initialized gp)
      (m_InputDimension gp) (m_OutputDimension gp) m
      (m_EfficientStorage gp) (debug gp).

Definition with_EfficientStorage (s : bool) gp :=
    mkGaussianProcess (m_Kernel gp) (m_Sigma gp) (m_SampleVectors gp) (m_LabelVectors gp)
      (m_RegressionVectors gp) (m_CoreMatrix gp) (m_Initialized gp)
      (m_InputDimension gp) (m_OutputDimension gp) (m_InvMethod gp)
      s (debug gp).

Definition with_debug (b : bool) gp :=
    mkGaussianProcess (m_Kernel gp) (m_Sigma gp) (m_SampleVectors gp) (m_LabelVectors gp)
      (m_RegressionVectors gp) (m_CoreMatrix gp) (m_Initialized gp)
      (m_InputDimension gp) (m_OutputDimension gp) (m_InvMethod gp)
      (m_EfficientStorage gp) b.

(** [GaussianProcess(KernelTypePointer kernel)]; the two matrices are
    default constructed, of size 0 by 0. *)
Definition construct (zero : T) (kernel : Kernel T) : GaussianProcess T :=
    mkGaussianProcess kernel zero [] [] (mkMatrix 0 0 []) (mkMatrix 0 0 [])
      false 0 0 FullPivotLU false false.

End Assignments.

(* ------------------------------------------------------------------ *)
(** * The methods of the engine *)

Section Engine.
Context {T : Type} `{Scalar T} `{KernelLibrary T} `{EigenInverse T}
          `{MatrixIO T} `{StreamFormat} `{FileOpening}.

(** What storage holds before it is first written. *)
Variable junk : nat -> nat -> T.

Implicit Type gp : GaussianProcess T.
Implicit Types x y : Vector T.

Definition CheckInputDimension x (msg_prefix : string) : Method T unit :=
    gp <- get_this ;;
    if negb (length x =? m_InputDimension gp)
    then throw (InputDimensionMismatch msg_prefix (length x) (m_InputDimension gp))
    else ret tt.

Definition CheckOutputDimension y (msg_prefix : string) : Method T unit :=
    gp <- get_this ;;
    if negb (length y =? m_OutputDimension gp)
    then throw (OutputDimensionMismatch msg_prefix (length y) (m_OutputDimension gp))
    else ret tt.

Definition AddSample x y : Method T unit :=
    gp <- get_this ;;
    (if length (m_SampleVectors gp) =? 0
     then set_this (with_InputDimension (length x)) else ret tt) ;;
    (if length (m_LabelVectors gp) =? 0
     then set_this (with_OutputDimension (length y)) else ret tt) ;;
    CheckInputDimension x "GaussianProcess::AddSample: " ;;
    CheckOutputDimension y "GaussianProcess::AddSample: " ;;
    set_this (fun gp => with_SampleVectors (m_SampleVectors gp ++ [x]) gp) ;;
    set_this (fun gp => with_LabelVectors (m_LabelVectors gp ++ [y]) gp) ;;
    set_this (with_Initialized false).

(** The upper triangle is evaluated and mirrored. *)
Definition ComputeKernelMatrix gp : option (Matrix T) :=
    let n := length (m_SampleVectors gp) in
    for_loop 0 n (fun i M =>
      for_loop i (n - i) (fun j M =>
        let? xi := nth_error (m_SampleVectors gp) i in
        let? xj := nth_error (m_SampleVectors gp) j in
        let v := k_eval (m_Kernel gp) xi xj in
        let? M' := set_coeff M i j v in
        set_coeff M' j i v) M)
      (resize junk n n).

Definition ComputeLabelMatrix : Method T (Matrix T) :=
    gp <- get_this ;;
    let n := length (m_LabelVectors gp) in
    if negb (0 <? n) then throw NoOutputLabelsInComputation
    else
      y0 <- defined (nth_error (m_LabelVectors gp) 0) ;;
      let d := length y0 in
      defined (for_loop 0 n (fun i Y =>
                 let? yi := nth_error (m_LabelVectors gp) i in
                 set_row Y i yi)
               (resize junk n d)).

(** [K(i,i) += m_Sigma] for every row of [K]. *)
Definition add_noise (sigma : T) (K : Matrix T) : option (Matrix T) :=
    for_loop 0 (rows K) (fun i K' =>
      set_coeff K' i i (s_add (coeff K' i i) sigma)) K.

Definition ComputeRegressionVectors : Method T unit :=
    gp <- get_this ;;
    note_solver_run (length (m_SampleVectors gp)) ;;
    K <- defined (ComputeKernelMatrix gp) ;;
    K' <- defined (add_noise (m_Sigma gp) K) ;;
    Y <- ComputeLabelMatrix ;;
    Kinv <- defined (inverse K') ;;
    R <- defined (mat_mul Kinv Y) ;;
    set_this (with_RegressionVectors R).

Definition Initialize : Method T unit :=
    gp <- get_this ;;
    if m_Initialized gp then ret tt
    else if negb (0 <? length (m_SampleVectors gp)) then throw NoInputSamples
    else if negb (0 <? length (m_LabelVectors gp)) then throw NoOutputLabels
    else
      ComputeRegressionVectors ;;
      set_this (with_Initialized true).

Definition ComputeKernelVector x : Method T (Vector T) :=
    gp <- get_this ;;
    if negb (m_Initialized gp) then throw KernelVectorNotInitialized
    else
      let n := rows (m_RegressionVectors gp) in
      defined (for_loop 0 n (fun i Kx =>
                 let? xi := nth_error (m_SampleVectors gp) i in
                 vset Kx i (k_eval (m_Kernel gp) x xi))
               (vresize junk n)).

Definition ComputeDifferenceMatrix gp x : option (Matrix T) :=
    let n := length (m_SampleVectors gp) in
    let d := length x in
    for_loop 0 n (fun i X =>
      let? xi := nth_error (m_SampleVectors gp) i in
      let? r := vsub x xi in
      set_row X i r)
      (resize junk n d).

Definition Predict x : Method T (Vector T) :=
    Initialize ;;
    CheckInputDimension x "GaussianProcess::Predict: " ;;
    Kx <- ComputeKernelVector x ;;
    gp <- get_this ;;
    defined (vec_mat Kx (m_RegressionVectors gp)).

(** The matrix [D] of the caller is the second component of the
    result. *)
Definition PredictDerivative x : Method T (Vector T * Matrix T) :=
    Initialize ;;
    CheckInputDimension x "GaussianProcess::PredictDerivative: " ;;
    Kx <- ComputeKernelVector x ;;
    gp <- get_this ;;
    X <- defined (ComputeDifferenceMatrix gp x) ;;
    D <- defined (for_loop 0 (m_OutputDimension gp) (fun i D =>
                    let? c := col (m_RegressionVectors gp) i in
                    let? w := cwiseProduct Kx c in
                    let? v := mat_vec (mneg (transpose X)) w in
                    set_col D i v)
                  (resize junk (m_InputDimension gp) (m_OutputDimension gp))) ;;
    p <- defined (vec_mat Kx (m_RegressionVectors gp)) ;;
    ret (p, D).

Definition SetKernel (k : Kernel T) : Method T unit :=
    set_this (with_Kernel k) ;;
    set_this (with_Initialized false).

Definition SetSigma (sigma : T) : Method T unit :=
    set_this (with_Sigma sigma) ;;
    set_this (with_Initialized false).

Definition SetInversionMethod (m : InversionMethod) : Method T unit :=
    set_this (with_InvMethod m).

Definition SetEfficientStorage (s : bool) : Method T unit :=
    set_this (with_EfficientStorage s).

Definition DebugOn : Method T unit :=
    set_this (with_debug true).

(** The member functions of the header that read one member. *)
Definition GetKernel : Method T (Kernel T) :=
    gp <- get_this ;; ret (m_Kernel gp).

Definition GetNumberOfSamples : Method T nat :=
    gp <- get_this ;; ret (length (m_SampleVectors gp)).

Definition GetSigma : Method T T :=
    gp <- get_this ;; ret (m_Sigma gp).

Definition GetSigmaSquared : Method T T :=
    gp <- get_this ;; ret (s_mul (m_Sigma gp) (m_Sigma gp)).

Definition GetNumberOfInputDimensions : Method T nat :=
    gp <- get_this ;; ret (m_InputDimension gp).

Definition GetInversionMethod : Method T InversionMethod :=
    gp <- get_this ;; ret (m_InvMethod gp).

Definition GetEfficientStorage : Method T bool :=
    gp <- get_this ;; ret (m_EfficientStorage gp).

End Engine.

(* ------------------------------------------------------------------ *)
(** * Persistence and comparison *)

Section Persistence.
Context {T : Type} `{Scalar T} `{KernelLibrary T} `{EigenInverse T}
          `{MatrixIO T} `{StreamFormat} `{FileOpening}.

Variable junk : nat -> nat -> T.

Implicit Type gp : GaussianProcess T.

(** Modelled from the spec: [WriteMatrix<MatrixType>(M, path)] of
    MatrixIO.h, which is not among the sources: the text of the
    matrix becomes the content of the file. *)
Definition WriteMatrix (M : Matrix T) (path : string) : Method T unit :=
    set_disk (write_file path (matrix_to_text M)).

(** Modelled from the spec: [ReadMatrix<MatrixType>(path)] of
    MatrixIO.h, which is not among the sources: the matrix of the
    text of the file, and an explicit failure when the file is absent,
    is a directory or does not hold a matrix. *)
Definition ReadMatrix (path : string) : Method T (Matrix T) :=
    fs <- get_disk ;;
    match lookup path fs with
    | Some (RegularFile content) =>
        match matrix_of_text content with
        | Some M => ret M
        | None => throw (MatrixUnreadable path)
        end
    | _ => throw (MatrixUnreadable path)
    end.

(** The matrix whose column [i] is the vector [i] of [vs], each of
    the size of the first. *)
Definition vectors_as_columns (vs : list (Vector T)) : option (Matrix T) :=
    let? v0 := nth_error vs 0 in
    for_loop 0 (length vs) (fun i X =>
      let? vi := nth_error vs i in
      set_col X i vi)
      (Zero (length v0) (length vs)).

(** The line written to the parameter file: kernel name, number of
    kernel parameters, the parameters, noise, the two dimensions and
    the debug flag. *)
Definition parameter_line gp : string :=
    let precision := s_digits10 + 1 in
    let kernel_parameters := k_GetParameters (m_Kernel gp) in
    (k_ToString (m_Kernel gp) ++ " "
       ++ show_unsigned (length kernel_parameters) ++ " "
       ++ String.concat "" (map (fun p => s_show precision p ++ " ") kernel_parameters)
       ++ s_show precision (m_Sigma gp) ++ " "
       ++ show_unsigned (m_InputDimension gp) ++ " "
       ++ show_unsigned (m_OutputDimension gp) ++ " "
       ++ show_bool (debug gp))%string.

Definition Save (prefix : string) : Method T unit :=
    gp <- get_this ;;
    if negb (m_Initialized gp) then throw SaveNotInitialized
    else
      WriteMatrix (m_RegressionVectors gp) (prefix ++ "-RegressionVectors.txt")%string ;;
      X <- defined (vectors_as_columns (m_SampleVectors gp)) ;;
      WriteMatrix X (prefix ++ "-SampleVectors.txt")%string ;;
      Y <- defined (vectors_as_columns (m_LabelVectors gp)) ;;
      WriteMatrix Y (prefix ++ "-LabelVectors.txt")%string ;;
      set_disk (ofstream_write (prefix ++ "-ParameterFile.txt")%string (parameter_line gp)).

(** The loop that extracts [count] kernel parameters: a parameter
    that cannot be extracted clears [load]. *)
Fixpoint read_kernel_parameters (count : nat) (ls : istream) (load : bool)
      (kernel_parameters : list T) : istream * bool * list T :=
    match count with
    | O => (ls, load, kernel_parameters)
    | S count' =>
        let (ls', param) := extract s_scan ls (junk 0 0) in
        if is_fail ls'
        then read_kernel_parameters count' ls' false kernel_parameters
        else read_kernel_parameters count' ls' load (kernel_parameters ++ [param])
    end.

(** The reading of the line of the parameter file.  Noise, dimensions
    and debug flag are extracted into the members themselves, each
    only if the one before it was extracted. *)
Definition read_parameter_line (line : string) : Method T (string * list T) :=
    let ls0 := mkIstream line false in
    let (ls1, kernel_type) := extract scan_string ls0 EmptyString in
    let load1 := negb (is_fail ls1) in
    let (ls2, num_kernel_parameters) := extract scan_unsigned ls1 0 in
    let load2 := load1 && negb (is_fail ls2) in
    let '(ls3, load, kernel_parameters) :=
      read_kernel_parameters num_kernel_parameters ls2 load2 [] in
    gp <- get_this ;;
    let (ls4, sigma) := extract s_scan ls3 (m_Sigma gp) in
    set_this (with_Sigma sigma) ;;
    if is_fail ls4 then throw ParameterFileCorrupt
    else
      let (ls5, input_dimension) := extract scan_unsigned ls4 (m_InputDimension gp) in
      set_this (with_InputDimension input_dimension) ;;
      if is_fail ls5 then throw ParameterFileCorrupt
      else
        let (ls6, output_dimension) := extract scan_unsigned ls5 (m_OutputDimension gp) in
        set_this (with_OutputDimension output_dimension) ;;
        if is_fail ls6 then throw ParameterFileCorrupt
        else
          let (ls7, dbg) := extract scan_bool ls6 (debug gp) in
          set_this (with_debug dbg) ;;
          if is_fail ls7 || negb load then throw ParameterFileCorrupt
          else ret (kernel_type, kernel_parameters).

(** The choice of the kernel by its name. *)
Definition load_kernel (kernel_type : string) (kernel_parameters : list T)
      : Method T unit :=
    if String.eqb kernel_type "GaussianKernel" then
      if negb (length kernel_parameters =? 2) then throw WrongNumberOfKernelParameters
      else
        p0 <- defined (nth_error kernel_parameters 0) ;;
        p1 <- defined (nth_error kernel_parameters 1) ;;
        set_this (with_Kernel (GaussianKernel p0 p1))
    else if String.eqb kernel_type "PeriodicKernel" then
      if negb (length kernel_parameters =? 3) then throw WrongNumberOfKernelParameters
      else
        p0 <- defined (nth_error kernel_parameters 0) ;;
        p1 <- defined (nth_error kernel_parameters 1) ;;
        p2 <- defined (nth_error kernel_parameters 2) ;;
        set_this (with_Kernel (PeriodicKernel p0 p1 p2))
    else throw KernelNotRecognized.

Definition Load (prefix : string) : Method T unit :=
    let rv_filename := (prefix ++ "-RegressionVectors.txt")%string in
    let sv_filename := (prefix ++ "-SampleVectors.txt")%string in
    let lv_filename := (prefix ++ "-LabelVectors.txt")%string in
    let pf_filename := (prefix ++ "-ParameterFile.txt")%string in
    fs <- get_disk ;;
    if negb (is_regular_file rv_filename fs) then throw (FileMissing rv_filename)
    else
      R <- ReadMatrix rv_filename ;;
      set_this (with_RegressionVectors R) ;;
      if negb (is_regular_file sv_filename fs) then throw (FileMissing sv_filename)
      else
        X <- ReadMatrix sv_filename ;;
        set_this (with_SampleVectors (map (column X) (seq 0 (cols X)))) ;;
        if negb (is_regular_file lv_filename fs) then throw (FileMissing lv_filename)
        else
          Y <- ReadMatrix lv_filename ;;
          set_this (with_LabelVectors (map (column Y) (seq 0 (cols Y)))) ;;
          match lookup pf_filename fs with
          | Some (RegularFile content) =>
              parsed <- match getline content with
                        | Some line => read_parameter_line line
                        | None => ret (EmptyString, [])
                        end ;;
              load_kernel (fst parsed) (snd parsed) ;;
              set_this (with_Initialized true)
          | _ => throw (FileMissing pf_filename)
          end.

(** Whether some pair of vectors at the same position, from [start]
    on, has a difference of positive norm. *)
Fixpoint some_vector_differs (start count : nat) (us vs : list (Vector T))
      : option bool :=
    match count with
    | O => Some false
    | S count' =>
        let? u := nth_error us start in
        let? v := nth_error vs start in
        let? d := vsub u v in
        if s_pos (vnorm d) then Some true
        else some_vector_differs (S start) count' us vs
    end.

(** [a == b] *)
Definition equal (a b : GaussianProcess T) : option bool :=
    let? D := msub (m_RegressionVectors a) (m_RegressionVectors b) in
    if s_pos (mnorm D) then Some false
    else if negb (length (m_SampleVectors a) =? length (m_SampleVectors b)) then Some false
    else
      let? xs_differ :=
        some_vector_differs 0 (length (m_SampleVectors a))
          (m_SampleVectors a) (m_SampleVectors b) in
      if xs_differ then Some false
      else if negb (length (m_LabelVectors a) =? length (m_LabelVectors b)) then Some false
      else
        let? ys_differ :=
          some_vector_differs 0 (length (m_LabelVectors a))
            (m_LabelVectors a) (m_LabelVectors b) in
        if ys_differ then Some false
        else if Kernel_neq (m_Kernel a) (m_Kernel b) then Some false
        else if s_neq (m_Sigma a) (m_Sigma b) then Some false
        else if negb (Bool.eqb (m_Initialized a) (m_Initialized b)) then Some false
        else if negb (m_InputDimension a =? m_InputDimension b) then Some false
        else if negb (m_OutputDimension a =? m_OutputDimension b) then Some false
        else if negb (Bool.eqb (debug a) (debug b)) then Some false
        else Some true.

(** [a != b], which is [! operator ==(b)]. *)
Definition not_equal (a b : GaussianProcess T) : option bool :=
    let? r := equal a b in Some (negb r).

End Persistence.

(* ------------------------------------------------------------------ *)
(** * The public operations *)

Section Operations.
Context {T : Type} `{Scalar T} `{KernelLibrary T} `{EigenInverse T}
        `{MatrixIO T} `{StreamFormat} `{FileOpening}.

Variable junk : nat -> nat -> T.

(** A call of a public member function that can change the model or
    needs it trained. *)
Inductive Operation : Type :=
| OpAddSample (x y : Vector T)
| OpPredict (x : Vector T)
| OpPredictDerivative (x : Vector T)
| OpInitialize
| OpSetKernel (k : Kernel T)
| OpSetSigma (sigma : T)
| OpSetInversionMethod (m : InversionMethod)
| OpSetEfficientStorage (s : bool)
| OpDebugOn
| OpSave (prefix : string)
| OpLoad (prefix : string).

(** The call, its value dropped. *)
Definition perform (op : Operation) : Method T unit :=
  match op with
  | OpAddSample x y => AddSample x y
  | OpPredict x => Predict junk x ;; ret tt
  | OpPredictDerivative x => PredictDerivative junk x ;; ret tt
  | OpInitialize => Initialize junk
  | OpSetKernel k => SetKernel k
  | OpSetSigma sigma => SetSigma sigma
  | OpSetInversionMethod m => SetInversionMethod m
  | OpSetEfficientStorage s => SetEfficientStorage s
  | OpDebugOn => DebugOn
  | OpSave prefix => Save prefix
  | OpLoad prefix => Load junk prefix
  end.

(** The operations that train a model that is not trained. *)
Definition trains (op : Operation) : Prop :=
  match op with
  | OpInitialize | OpPredict _ | OpPredictDerivative _ => True
  | _ => False
  end.

End Operations.

(** The world in which a call leaves the caller, whether it returned
    or threw. *)
Definition world_after {T A : Type} (r : Result T A) : option (World T) :=
  match r with
  | Returns _ w => Some w
  | Throws _ w => Some w
  | Undefined => None
  end.

Section Reachability.
Context {T : Type} `{Scalar T} `{KernelLibrary T} `{EigenInverse T}
        `{MatrixIO T} `{StreamFormat} `{FileOpening}.

Variable junk : nat -> nat -> T.

(** The worlds of a caller who constructs a model and calls operations
    other than [Load] on it, whether the calls return or throw. *)
Inductive built_without_Load : World T -> Prop :=
| built_by_constructor (kernel : Kernel T) (fs : FileSystem) :
    built_without_Load (mkWorld (construct s_zero kernel) fs [])
| built_by_operation (op : Operation) (w w' : World T) :
    built_without_Load w ->
    (forall prefix, op <> OpLoad prefix) ->
    world_after (perform junk op w) = Some w' ->
    built_without_Load w'.

End Reachability.

(** A failure of [CheckInputDimension] or [CheckOutputDimension]. *)
Definition DimensionMismatch (e : Exception) : Prop :=
  match e with
  | InputDimensionMismatch _ _ _ | OutputDimensionMismatch _ _ _ => True
  | _ => False
  end.

(* ------------------------------------------------------------------ *)
(** * What training is specified to compute *)

Section Specification.
Context {T : Type} `{Scalar T} `{EigenInverse T}.

Implicit Type gp : GaussianProcess T.

(** The stored input [i] and the stored output [i]. *)
Definition sample gp (i : nat) : Vector T := nth i (m_SampleVectors gp) [].

Definition label gp (i : nat) : Vector T := nth i (m_LabelVectors gp) [].

(** The n by n matrix of the kernel on every pair of stored inputs. *)
Definition GramMatrix gp : Matrix T :=
  let n := length (m_SampleVectors gp) in
  tabulate n n (fun i j => k_eval (m_Kernel gp) (sample gp i) (sample gp j)).

(** [K + sigma * I]: [sigma] added to every diagonal entry. *)
Definition plus_sigma_identity (sigma : T) (K : Matrix T) : Matrix T :=
  tabulate (rows K) (cols K)
    (fun i j => if i =? j then s_add (coeff K i j) sigma else coeff K i j).

(** The n by d_out matrix whose row [i] is the stored output [i]. *)
Definition LabelMatrix gp : Matrix T :=
  tabulate (length (m_LabelVectors gp)) (m_OutputDimension gp)
    (fun i j => vcoeff (label gp i) j).

(** [Inverse(K + sigma * I) * Y] *)
Definition RegressionCoefficients gp : option (Matrix T) :=
  let? Kinv := inverse (plus_sigma_identity (m_Sigma gp) (GramMatrix gp)) in
  mat_mul Kinv (LabelMatrix gp).

(** A kernel whose value does not depend on the order of its two
    arguments. *)
Definition symmetric (k : Kernel T) : Prop :=
  forall x y, k_eval k x y = k_eval k y x.

(** The invariants of the data model: as many outputs as inputs, every
    input of the input dimension, every output of the output dimension,
    and, once trained, at least one sample and coefficients of one row
    per sample and one column per output dimension. *)
Definition consistent gp : Prop :=
  length (m_LabelVectors gp) = length (m_SampleVectors gp)
  /\ Forall (fun x => length x = m_InputDimension gp) (m_SampleVectors gp)
  /\ Forall (fun y => length y = m_OutputDimension gp) (m_LabelVectors gp)
  /\ (m_Initialized gp = true ->
      m_SampleVectors gp <> []
      /\ rows (m_RegressionVectors gp) = length (m_SampleVectors gp)
      /\ cols (m_RegressionVectors gp) = m_OutputDimension gp).

(** The kernel matrix as the loops of [ComputeKernelMatrix] fill it:
    entry (i,j) is the kernel at the stored input of the smaller index
    and the stored input of the larger index. *)
Definition mirrored_kernel gp (i j : nat) : T :=
  k_eval (m_Kernel gp) (sample gp (Nat.min i j)) (sample gp (Nat.max i j)).

(** The coefficients that training stores. *)
Definition trained_coefficients gp : Matrix T :=
  let n := length (m_SampleVectors gp) in
  let K' := plus_sigma_identity (m_Sigma gp) (tabulate n n (mirrored_kernel gp)) in
  let Kinv := tabulate n n (inverse_coeff K') in
  tabulate n (m_OutputDimension gp)
    (fun i j => dot (row Kinv i) (column (LabelMatrix gp) j)).

(** The model after training. *)
Definition trained gp : GaussianProcess T :=
  with_Initialized true (with_RegressionVectors (trained_coefficients gp) gp).

(** The vector of the kernel at [x] and every stored input. *)
Definition KernelVector gp (x : Vector T) : Vector T :=
  map (fun i => k_eval (m_Kernel gp) x (sample gp i))
    (seq 0 (length (m_SampleVectors gp))).

(** The matrix whose row [i] is [x] minus the stored input [i]. *)
Definition DifferenceMatrix gp (x : Vector T) : Matrix T :=
  tabulate (length (m_SampleVectors gp)) (length x)
    (fun i j => s_sub (vcoeff x j) (vcoeff (sample gp i) j)).

(** [-X^T * (Kx o Coefficients[:,c])] *)
Definition derivative_column gp (x : Vector T) (c : nat) : option (Vector T) :=
  let? coefficients := col (m_RegressionVectors gp) c in
  let? weighted := cwiseProduct (KernelVector gp x) coefficients in
  mat_vec (mneg (transpose (DifferenceMatrix gp x))) weighted.

(** [Kx^T * Coefficients], as a vector. *)
Definition posterior_mean gp (x : Vector T) : option (Vector T) :=
  vec_mat (KernelVector gp x) (m_RegressionVectors gp).

End Specification.

(* ------------------------------------------------------------------ *)
(** * What a load is specified to reconstruct *)

Section LoadSpecification.
Context {T : Type} `{Scalar T} `{KernelLibrary T} `{MatrixIO T} `{StreamFormat} `{FileOpening}.

(** The fields of the line of a parameter file. *)
Record ParameterFields : Type := mkParameterFields {
  pf_kernel_type : string;
  pf_kernel_parameters : list T;
  pf_sigma : T;
  pf_input_dimension : nat;
  pf_output_dimension : nat;
  pf_debug : bool
}.

(** The next value of a stream, if it can be extracted, and the rest
    of the stream. *)
Definition extracted {A : Type} (scan : string -> ScanResult A)
    (ls : istream) (default : A) : option (istream * A) :=
  let (ls', v) := extract scan ls default in
  if is_fail ls' then None else Some (ls', v).

Fixpoint extracted_scalars (count : nat) (ls : istream)
    : option (istream * list T) :=
  match count with
  | O => Some (ls, [])
  | S count' =>
      let? r := extracted s_scan ls s_zero in
      let? rs := extracted_scalars count' (fst r) in
      Some (fst rs, snd r :: snd rs)
  end.

(** The fields of a line of the form
    [kernel_name num_kernel_params param_0 ... sigma input_dim
    output_dim debug_flag], and nothing for any other line. *)
Definition parameter_fields (line : string) : option ParameterFields :=
  let? r1 := extracted scan_string (mkIstream line false) EmptyString in
  let? r2 := extracted scan_unsigned (fst r1) 0 in
  let? r3 := extracted_scalars (snd r2) (fst r2) in
  let? r4 := extracted s_scan (fst r3) s_zero in
  let? r5 := extracted scan_unsigned (fst r4) 0 in
  let? r6 := extracted scan_unsigned (fst r5) 0 in
  let? r7 := extracted scan_bool (fst r6) false in
  Some (mkParameterFields (snd r1) (snd r3) (snd r4) (snd r5) (snd r6) (snd r7)).

(** The model after the line of the parameter file has been read. *)
Definition with_fields (f : ParameterFields) (gp : GaussianProcess T) :=
  with_debug (pf_debug f)
    (with_OutputDimension (pf_output_dimension f)
       (with_InputDimension (pf_input_dimension f)
          (with_Sigma (pf_sigma f) gp))).

(** The kernel of a recognized name with the number of parameters that
    the name requires. *)
Definition kernel_by_name (kernel_type : string) (kernel_parameters : list T)
    : option (Kernel T) :=
  if String.eqb kernel_type "GaussianKernel" then
    match kernel_parameters with
    | [p0; p1] => Some (GaussianKernel p0 p1)
    | _ => None
    end
  else if String.eqb kernel_type "PeriodicKernel" then
    match kernel_parameters with
    | [p0; p1; p2] => Some (PeriodicKernel p0 p1 p2)
    | _ => None
    end
  else None.

(** The matrix in a file that exists, is not a directory and holds a
    matrix. *)
Definition matrix_in_file (path : string) (fs : FileSystem) : option (Matrix T) :=
  match lookup path fs with
  | Some (RegularFile content) => matrix_of_text content
  | _ => None
  end.

(** The columns of a matrix, in order. *)
Definition columns (M : Matrix T) : list (Vector T) :=
  map (column M) (seq 0 (cols M)).

(** The model that the four files of a prefix determine, when all four
    are there and well formed: coefficients, samples, labels, noise,
    dimensions, debug flag and kernel come from the files, the model is
    ready, and the members that are not saved are those of the model
    that loads. *)
Definition loaded_model (prefix : string) (fs : FileSystem)
    (gp : GaussianProcess T) : option (GaussianProcess T) :=
  let? R := matrix_in_file (prefix ++ "-RegressionVectors.txt")%string fs in
  let? X := matrix_in_file (prefix ++ "-SampleVectors.txt")%string fs in
  let? Y := matrix_in_file (prefix ++ "-LabelVectors.txt")%string fs in
  match lookup (prefix ++ "-ParameterFile.txt")%string fs with
  | Some (RegularFile content) =>
      let? line := getline content in
      let? f := parameter_fields line in
      let? k := kernel_by_name (pf_kernel_type f) (pf_kernel_parameters f) in
      Some (mkGaussianProcess k (pf_sigma f) (columns X) (columns Y) R
              (m_CoreMatrix gp) true
              (pf_input_dimension f) (pf_output_dimension f)
              (m_InvMethod gp) (m_EfficientStorage gp) (pf_debug f))
  | _ => None
  end.

(** The members that a load which throws leaves as they were. *)
Definition kept_by_failed_Load (w w' : World T) : Prop :=
  m_Kernel (this w') = m_Kernel (this w)
  /\ m_Initialized (this w') = m_Initialized (this w)
  /\ m_InvMethod (this w') = m_InvMethod (this w)
  /\ m_EfficientStorage (this w') = m_EfficientStorage (this w)
  /\ m_CoreMatrix (this w') = m_CoreMatrix (this w)
  /\ disk w' = disk w
  /\ solver_runs w' = solver_runs w.



End LoadSpecification.

(* ------------------------------------------------------------------ *)
(** * Outcomes of a method *)

(** The method [m], started in [w], returns a value and a world that
    satisfy [Q], or throws an exception in a world that satisfy [E], and
    is undefined only if [U]. *)
Definition triple {T A : Type} (w : World T) (m : Method T A)
    (Q : A -> World T -> Prop) (E : Exception -> World T -> Prop)
    (U : Prop) : Prop :=
  match m w with
  | Returns a w' => Q a w'
  | Throws e w' => E e w'
  | Undefined => U
  end.

Section Effects.
Context {T : Type}.

(** The world is as it was, or the model was not trained, had a
    sample, and the solver has run once more, on its samples. *)
Definition same_or_solved (w w' : World T) : Prop :=
  w' = w
  \/ (m_Initialized (this w) = false
      /\ 1 <= length (m_SampleVectors (this w))
      /\ solver_runs w' = length (m_SampleVectors (this w)) :: solver_runs w).

(** A method that leaves the world as it is. *)
Definition read_only {A : Type} (m : Method T A) : Prop :=
  forall w, triple w m (fun _ w' => w' = w) (fun _ w' => w' = w) True.

(** The solver has not run and the flag has not been set. *)
Definition not_trained_by (w w' : World T) : Prop :=
  solver_runs w' = solver_runs w
  /\ (m_Initialized (this w') = true -> m_Initialized (this w) = true).

End Effects.

(** The world with another inversion method selected. *)
Definition select_method {T : Type} (m : InversionMethod) (w : World T) : World T :=
  mkWorld (with_InvMethod m (this w)) (disk w) (solver_runs w).

(** The world with another inversion method, efficient-storage flag
    and core matrix: the members that are not saved. *)
Definition with_unsaved {T : Type} (m : InversionMethod) (s : bool)
    (C : Matrix T) (w : World T) : World T :=
  mkWorld (with_CoreMatrix C (with_EfficientStorage s (with_InvMethod m (this w))))
    (disk w) (solver_runs w).

(** The outcome in another world. *)
Definition with_world {T A : Type} (f : World T -> World T) (r : Result T A)
    : Result T A :=
  match r with
  | Returns a w => Returns a (f w)
  | Throws e w => Throws e (f w)
  | Undefined => Undefined
  end.



Section Oblivious.
Context {T : Type}.

(** A method that does the same whatever inversion method is
    selected, and leaves the selection as it is. *)
Definition oblivious {A : Type} (c : Method T A) : Prop :=
  forall (m : InversionMethod) (w : World T),
    c (select_method m w) = with_world (select_method m) (c w).

End Oblivious.

(* ------------------------------------------------------------------ *)
(** * Decimal text of the standard streams *)

Module Text.
Local Open Scope Z_scope.

Definition string_of_Z (z : Z) : string :=
  NilZero.string_of_int (Z.to_int z).

Definition is_digit (c : ascii) : bool :=
  let n := nat_of_ascii c in ((48 <=? n) && (n <=? 57))%nat.

(** The digits at the head of a string, and the rest. *)
Fixpoint take_digits (s : string) : string * string :=
  match s with
  | String c s' =>
      if is_digit c then let (d, r) := take_digits s' in (String c d, r)
      else (EmptyString, s)
  | EmptyString => (EmptyString, EmptyString)
  end.

Fixpoint Z_of_digits_from (acc : Z) (s : string) : Z :=
  match s with
  | String c s' => Z_of_digits_from (10 * acc + (Z.of_nat (nat_of_ascii c) - 48)) s'
  | EmptyString => acc
  end.

Definition Z_of_digits (s : string) : Z := Z_of_digits_from 0 s.

(** An optional sign at the head of a string: whether it is a minus,
    and the rest. *)
Definition take_sign (s : string) : bool * string :=
  match s with
  | String "-" r => (true, r)
  | String "+" r => (false, r)
  | _ => (false, s)
  end.

Definition show_nat (n : nat) : string := string_of_Z (Z.of_nat n).

(** [is >> n] for an [unsigned]: the largest value is stored on
    overflow. *)
Definition scan_nat (s : string) : ScanResult nat :=
  let (negative, s1) := take_sign s in
  let (digits, r) := take_digits s1 in
  match digits with
  | EmptyString => ScanFailed (Some O) s
  | _ =>
      let v := Z_of_digits digits in
      if 4294967295 <? v then ScanFailed (Some (Z.to_nat 4294967295)) r
      else Scanned (Z.to_nat (if negative then (4294967296 - v) mod 4294967296 else v)) r
  end.

(** [is >> b] for a [bool]: a number is read, 0 and 1 are the two
    values, and [true] is stored for any other number. *)
Definition scan_flag (s : string) : ScanResult bool :=
  let (negative, s1) := take_sign s in
  let (digits, r) := take_digits s1 in
  match digits with
  | EmptyString => ScanFailed (Some false) s
  | _ =>
      let v := Z_of_digits digits in
      if v =? 0 then Scanned false r
      else if (v =? 1) && negb negative then Scanned true r
      else ScanFailed (Some true) r
  end.

End Text.

(* ------------------------------------------------------------------ *)
(** * The scalar [double]

    The finite values of the binary64 format, with an exponent that is
    not bounded: every operation rounds its exact result to 53
    significant bits, ties to even.  Infinities and values that are
    not numbers are not represented. *)

Module Double.
Import Text.
Local Open Scope Z_scope.

(** A finite value m * 2^e, with m odd or both zero. *)
Definition double : Type := (Z * Z)%type.

Definition zero : double := (0, 0).

Fixpoint strip (p : positive) (e : Z) : positive * Z :=
  match p with
  | xO p' => strip p' (e + 1)
  | _ => (p, e)
  end.

Definition normalize (m e : Z) : double :=
  match m with
  | Z0 => zero
  | Zpos p => let (p', e') := strip p e in (Zpos p', e')
  | Zneg p => let (p', e') := strip p e in (Zneg p', e')
  end.

(** Rounding of the quotient [num / den] to the nearest integer, ties to even. *)
Definition round_half_even (num den : Z) : Z :=
  let q := num / den in
  let r := num mod den in
  if 2 * r <? den then q
  else if den <? 2 * r then q + 1
  else if Z.even q then q else q + 1.

Definition precision : Z := 53.

(** The nearest value of 53 significant bits to m * 2^e. *)
Definition round (m e : Z) : double :=
  let n := Z.log2 (Z.abs m) + 1 in
  if n <=? precision then normalize m e
  else
    let shift := n - precision in
    normalize (Z.sgn m * round_half_even (Z.abs m) (2 ^ shift)) (e + shift).

Definition add (a b : double) : double :=
  let '(m1, e1) := a in
  let '(m2, e2) := b in
  let e := Z.min e1 e2 in
  round (m1 * 2 ^ (e1 - e) + m2 * 2 ^ (e2 - e)) e.

Definition neg (a : double) : double := (- fst a, snd a).

Definition sub (a b : double) : double := add a (neg b).

Definition mul (a b : double) : double :=
  round (fst a * fst b) (snd a + snd b).

(** The nearest value to the positive quotient [num / den], scaled by 2^e. *)
Definition round_quotient (num den e : Z) : double :=
  let s := Z.max 0 (precision + 3 + Z.log2 den - Z.log2 num) in
  let q := (num * 2 ^ s) / den in
  let sticky := if (num * 2 ^ s) mod den =? 0 then 0 else 1 in
  round (2 * q + sticky) (e - s - 1).

Definition div (a b : double) : double :=
  let '(m1, e1) := a in
  let '(m2, e2) := b in
  if (m1 =? 0) || (m2 =? 0) then zero
  else
    let '(m, e) := round_quotient (Z.abs m1) (Z.abs m2) (e1 - e2) in
    (Z.sgn m1 * Z.sgn m2 * m, e).

Definition sqrt (a : double) : double :=
  let '(m, e) := a in
  if m <=? 0 then zero
  else
    let k := Z.max 0 (2 * precision + 4 - Z.log2 m) in
    let e' := if Z.even (e - k) then e - k else e - k - 1 in
    let n := m * 2 ^ (e - e') in
    let s := Z.sqrt n in
    let sticky := if s * s =? n then 0 else 1 in
    round (2 * s + sticky) (e' / 2 - 1).

Definition pos (a : double) : bool := 0 <? fst a.

Definition neq (a b : double) : bool :=
  negb ((fst a =? fst b) && (snd a =? snd b)).

Definition of_Z (z : Z) : double := round z 0.

(** ** Decimal output *)

(** The magnitude of a value as a fraction of two positive integers. *)
Definition fraction (a : double) : Z * Z :=
  let '(m, e) := a in
  if 0 <=? e then (Z.abs m * 2 ^ e, 1) else (Z.abs m, 2 ^ (- e)).

Fixpoint count_digits (fuel : nat) (a : Z) : Z :=
  match fuel with
  | O => 1
  | S fuel' => if a <? 10 then 1 else 1 + count_digits fuel' (a / 10)
  end.

(** The number of decimal digits of a positive integer. *)
Definition nb_digits (a : Z) : Z := count_digits (Z.to_nat (Z.log2 a)) a.

(** Whether 10^x <= num / den. *)
Definition reaches (num den x : Z) : bool :=
  if 0 <=? x then 10 ^ x * den <=? num else den <=? num * 10 ^ (- x).

(** The decimal exponent of num / den: the x with 10^x <= num/den < 10^(x+1). *)
Definition decimal_exponent (num den : Z) : Z :=
  let l := nb_digits num - nb_digits den in
  if reaches num den (l + 1) then l + 1
  else if reaches num den l then l
  else l - 1.

(** The [p] significant digits of num / den, as an integer, and the
    decimal exponent of the first of them. *)
Definition significant_digits (p num den : Z) : Z * Z :=
  let x := decimal_exponent num den in
  let k := x - p + 1 in
  let d := if 0 <=? k then round_half_even num (den * 10 ^ k)
           else round_half_even (num * 10 ^ (- k)) den in
  if d =? 10 ^ p then (10 ^ (p - 1), x + 1) else (d, x).

Fixpoint strip_zeros_rev (s : list ascii) : list ascii :=
  match s with
  | "0"%char :: s' => strip_zeros_rev s'
  | _ => s
  end.

Definition strip_trailing_zeros (s : string) : string :=
  string_of_list_ascii (rev (strip_zeros_rev (rev (list_ascii_of_string s)))).

Fixpoint zeros (n : nat) : string :=
  match n with
  | O => EmptyString
  | S n' => String "0" (zeros n')
  end.

Definition two_digits (z : Z) : string :=
  if z <? 10 then String "0" (string_of_Z z) else string_of_Z z.

(** The layout of [%g]: [digits] are the significant digits, the first
    of which has the decimal exponent [x]. *)
Definition layout (p : Z) (digits : string) (x : Z) : string :=
  let n := Z.of_nat (String.length digits) in
  if (x <? -4) || (p <=? x) then
    let first := substring 0 1 digits in
    let rest := strip_trailing_zeros (substring 1 (String.length digits - 1) digits) in
    let mantissa := match rest with
                    | EmptyString => first
                    | _ => (first ++ "." ++ rest)%string
                    end in
    let sign := if x <? 0 then "-"%string else "+"%string in
    (mantissa ++ "e" ++ sign ++ two_digits (Z.abs x))%string
  else if x <? 0 then
    ("0." ++ zeros (Z.to_nat (- x - 1)) ++ strip_trailing_zeros digits)%string
  else
    let int_part := substring 0 (Z.to_nat (x + 1)) digits in
    let frac_part :=
      strip_trailing_zeros (substring (Z.to_nat (x + 1)) (String.length digits) digits) in
    match frac_part with
    | EmptyString => int_part
    | _ => (int_part ++ "." ++ frac_part)%string
    end.

(** [os << std::setprecision(p) << a] in the default float format. *)
Definition show (p : nat) (a : double) : string :=
  let p' := Z.max 1 (Z.of_nat p) in
  if fst a =? 0 then "0"%string
  else
    let '(num, den) := fraction a in
    let '(d, x) := significant_digits p' num den in
    let sign := if fst a <? 0 then "-"%string else EmptyString in
    (sign ++ layout p' (string_of_Z d) x)%string.


(** ** Decimal input *)

(** The nearest value to d * 10^k. *)
Definition of_decimal (negative : bool) (d k : Z) : double :=
  if d =? 0 then zero
  else
    let '(m, e) := if 0 <=? k then round_quotient (d * 10 ^ k) 1 0
                   else round_quotient d (10 ^ (- k)) 0 in
    ((if negative then - m else m), e).

(** An exponent part at the head of a string, if there is a complete
    one. *)
Definition take_exponent (s : string) : Z * string :=
  match s with
  | String c r =>
      if (nat_of_ascii c =? 101)%nat || (nat_of_ascii c =? 69)%nat then
        let (negative, r1) := take_sign r in
        let (digits, r2) := take_digits r1 in
        match digits with
        | EmptyString => (0, s)
        | _ => ((if negative then - Z_of_digits digits else Z_of_digits digits), r2)
        end
      else (0, s)
  | EmptyString => (0, s)
  end.

(** [is >> a] for a [double]: sign, digits, point and digits, exponent;
    zero is stored when there is no digit. *)
Definition scan (s : string) : ScanResult double :=
  let (negative, s1) := take_sign s in
  let (int_digits, s2) := take_digits s1 in
  let (frac_digits, s3) :=
    match s2 with
    | String "." r => take_digits r
    | _ => (EmptyString, s2)
    end in
  match (int_digits ++ frac_digits)%string with
  | EmptyString => ScanFailed (Some zero) s
  | digits =>
      let (exponent, s4) := take_exponent s3 in
      Scanned (of_decimal negative (Z_of_digits digits)
                 (exponent - Z.of_nat (String.length frac_digits))) s4
  end.

End Double.

#[export] Instance Scalar_double : Scalar Double.double := {
  s_zero := Double.zero;
  s_add := Double.add;
  s_sub := Double.sub;
  s_mul := Double.mul;
  s_neg := Double.neg;
  s_sqrt := Double.sqrt;
  s_pos := Double.pos;
  s_neq := Double.neq;
  s_digits10 := 15;
  s_show := Double.show;
  s_scan := Double.scan
}.

#[export] Instance StreamFormat_decimal : StreamFormat := {
  show_unsigned := Text.show_nat;
  scan_unsigned := Text.scan_nat;
  scan_bool := Text.scan_flag
}.

(* ------------------------------------------------------------------ *)
(** * Collaborators for [double] *)

Module DoubleEngine.
Import Double.

Definition one : double := of_Z 1.

(** The function [f] without row [i] and column [j]. *)
Definition minor (f : nat -> nat -> double) (i j : nat) : nat -> nat -> double :=
  fun a b => f (if a <? i then a else S a) (if b <? j then b else S b).

(** The determinant of the first [n] rows and columns of [f], expanded
    along the first row. *)
Fixpoint det (n : nat) (f : nat -> nat -> double) : double :=
  match n with
  | O => one
  | S n' =>
      fold_right (fun j acc =>
          let term := mul (f 0 j) (det n' (minor f 0 j)) in
          add (if Nat.even j then term else neg term) acc)
        zero (seq 0 n)
  end.

(** The inverse by cofactors. *)
#[export] Instance EigenInverse_double : EigenInverse double := {
  inverse_coeff K i j :=
    let cofactor := det (rows K - 1) (minor (coeff K) j i) in
    div (if Nat.even (i + j) then cofactor else neg cofactor)
        (det (rows K) (coeff K))
}.

Definition squared_distance (x y : Vector double) : double :=
  fold_right (fun p acc => add (mul (sub (fst p) (snd p)) (sub (fst p) (snd p))) acc)
    zero (combine x y).

(** Modelled from the spec: the two kernels of Kernel.h that can be
    loaded, which is not among the sources.  Their mathematics is left
    out of the specification; the value of [k_eval] here, the first
    parameter squared over one plus the squared distance over the
    second parameter squared, is a symmetric function in its place. *)
Definition stand_in_eval (p0 p1 : double) (x y : Vector double) : double :=
  div (mul p0 p0) (add one (div (squared_distance x y) (mul p1 p1))).

Fixpoint parameters_differ (ps qs : list double) : bool :=
  match ps, qs with
  | [], [] => false
  | p :: ps', q :: qs' => neq p q || parameters_differ ps' qs'
  | _, _ => true
  end.

#[export] Instance KernelLibrary_double : KernelLibrary double := {
  Kernel_neq a b :=
    negb (String.eqb (k_ToString a) (k_ToString b))
    || parameters_differ (k_GetParameters a) (k_GetParameters b);
  GaussianKernel p0 p1 :=
    mkKernel (stand_in_eval p0 p1) "GaussianKernel" [p0; p1];
  PeriodicKernel p0 p1 p2 :=
    mkKernel (stand_in_eval p0 p1) "PeriodicKernel" [p0; p1; p2]
}.

(** One row of a matrix file: the values, separated by white space. *)
Fixpoint scan_row (fuel : nat) (s : string) : option (list double) :=
  match fuel with
  | O => None
  | S fuel' =>
      match skipws s with
      | EmptyString => Some []
      | s' =>
          match scan s' with
          | Scanned v r =>
              match scan_row fuel' r with
              | Some vs => Some (v :: vs)
              | None => None
              end
          | ScanFailed _ _ => None
          end
      end
  end.

Fixpoint scan_rows (lines : list string) : option (list (list double)) :=
  match lines with
  | [] => Some []
  | l :: lines' =>
      match scan_row (S (String.length l)) l, scan_rows lines' with
      | Some r, Some rs => Some (r :: rs)
      | _, _ => None
      end
  end.

(** The lines of a text, each ended by a line feed. *)
Fixpoint lines_from (current : string) (s : string) : list string :=
  match s with
  | String c s' =>
      if nat_of_ascii c =? 10 then current :: lines_from EmptyString s'
      else lines_from (current ++ String c EmptyString)%string s'
  | EmptyString =>
      match current with
      | EmptyString => []
      | _ => [current]
      end
  end.

(** Modelled from the spec: the format of MatrixIO.h, which is not
    among the sources: one row per line, the values separated by white
    space and written with the 17 digits that determine a [double]. *)
#[export] Instance MatrixIO_double : MatrixIO double := {
  matrix_to_text M :=
    String.concat ""
      (map (fun i =>
              (String.concat "" (map (fun v => (show 17 v ++ " ")%string) (row M i))
                 ++ String (ascii_of_nat 10) EmptyString)%string)
           (seq 0 (rows M)));
  matrix_of_text s :=
    match scan_rows (lines_from EmptyString s) with
    | Some rs =>
        let c := match rs with r :: _ => length r | [] => 0 end in
        if forallb (fun r => length r =? c) rs
        then Some (mkMatrix (length rs) c rs)
        else None
    | None => None
    end
}.

(** The directory that a path lies in: the characters before its last
    slash, if it has one.  [seen] holds the characters gone through. *)
Fixpoint directory_from (seen path : string) : option string :=
  match path with
  | String c path' =>
      match directory_from (seen ++ String c EmptyString)%string path' with
      | Some dir => Some dir
      | None => if nat_of_ascii c =? 47 then Some seen else None
      end
  | EmptyString => None
  end.

Definition directory_of (path : string) : option string :=
  directory_from EmptyString path.

(** In the runs below a file can be opened for writing when the
    directory that it lies in exists: a path without a slash lies in
    the working directory, and a path whose only slash is its first
    lies in the root. *)
#[export] Instance FileOpening_in_directories : FileOpening := {
  opens_for_writing path fs :=
    match directory_of path with
    | None => true
    | Some EmptyString => true
    | Some dir =>
        match lookup dir fs with
        | Some Directory => true
        | _ => false
        end
    end
}.

(** Storage that has not been written holds zeros in the runs below. *)
Definition fresh_storage : nat -> nat -> double := fun _ _ => zero.

End DoubleEngine.

(* ------------------------------------------------------------------ *)
(** * A model of three samples *)

Module Example.
Import Double DoubleEngine.

Definition d (z : Z) : double := of_Z z.

(** 0.1 and 0.2, to the nearest [double]. *)
Definition tenth : double := div (d 1) (d 10).
Definition fifth : double := div (d 2) (d 10).

(** A Gaussian kernel of parameters 1 and 1. *)
Definition kernel : Kernel double := GaussianKernel (d 1) (d 1).

(** The model as it is constructed, in a world without files. *)
Definition fresh : GaussianProcess double := construct zero kernel.

Definition start : World double := mkWorld fresh [] [].

(** The model after [AddSample] of (0,0), (1,1) and (2,4) and
    [SetSigma(0.1 + 0.2)]. *)
Definition three_samples : GaussianProcess double :=
  mkGaussianProcess kernel (add tenth fifth)
    [[d 0]; [d 1]; [d 2]] [[d 0]; [d 1]; [d 4]]
    (mkMatrix 0 0 []) (mkMatrix 0 0 [])
    false 1 1 FullPivotLU false false.

Definition dirty : World double := mkWorld three_samples [] [].

(** The same model after [AddSample] of (3,9). *)
Definition four_samples : World double :=
  mkWorld
    (with_Initialized false
       (with_LabelVectors [[d 0]; [d 1]; [d 4]; [d 9]]
          (with_SampleVectors [[d 0]; [d 1]; [d 2]; [d 3]] three_samples)))
    [] [].

(** The same model, trained. *)
Definition ready : World double :=
  mkWorld (trained three_samples) [] [3].

(** The same model trained, efficient storage on, another inversion
    method selected, and a core matrix kept. *)
Definition ready_other_caches : GaussianProcess double :=
  with_CoreMatrix (mkMatrix 1 1 [[d 5]])
    (with_EfficientStorage true
       (with_InvMethod JacobiSVD (trained three_samples))).


(** Whether a model compares equal to what a fresh model loads after
    the model has been saved, under the prefix [gp]. *)
Definition equal_after_save_and_load (w : World double) : option bool :=
  match Save "gp" w with
  | Returns _ saved =>
      match Load fresh_storage "gp" (mkWorld fresh (disk saved) []) with
      | Returns _ loaded => equal (this w) (this loaded)
      | _ => None
      end
  | _ => None
  end.

(** The noise of the model that a fresh model loads after a model has
    been saved. *)
Definition sigma_after_save_and_load (w : World double) : option double :=
  match Save "gp" w with
  | Returns _ saved =>
      match Load fresh_storage "gp" (mkWorld fresh (disk saved) []) with
      | Returns _ loaded => Some (m_Sigma (this loaded))
      | _ => None
      end
  | _ => None
  end.

(** The parameter file that [Save] writes. *)
Definition saved_parameter_file (w : World double) : option Node :=
  match Save "gp" w with
  | Returns _ saved => lookup "gp-ParameterFile.txt" (disk saved)
  | _ => None
  end.

Definition line_feed : string := String (ascii_of_nat 10) EmptyString.

(** The three matrix files of a model of three samples under the
    prefix [gp]: coefficients 1, 2 and 3, samples 0, 1 and 2, labels 0,
    1 and 4. *)
Definition matrix_files : FileSystem :=
  [("gp-LabelVectors.txt"%string, RegularFile ("0 1 4 " ++ line_feed));
   ("gp-SampleVectors.txt"%string, RegularFile ("0 1 2 " ++ line_feed));
   ("gp-RegressionVectors.txt"%string,
    RegularFile ("1 " ++ line_feed ++ "2 " ++ line_feed ++ "3 " ++ line_feed))].

(** The same with a parameter file: a Gaussian kernel of parameters 1
    and 1, noise 0.5, both dimensions 1, debug off. *)
Definition files_of_a_model : FileSystem :=
  ("gp-ParameterFile.txt"%string, RegularFile "GaussianKernel 2 1 1 0.5 1 1 0")
    :: matrix_files.

(** The same with a parameter file that is empty. *)
Definition files_with_empty_parameters : FileSystem :=
  ("gp-ParameterFile.txt"%string, RegularFile "") :: matrix_files.

(** A model of three samples in the plane, not trained. *)
Definition three_planar_samples : GaussianProcess double :=
  mkGaussianProcess kernel (add tenth fifth)
    [[d 0; d 0]; [d 1; d 0]; [d 0; d 1]] [[d 0]; [d 1]; [d 1]]
    (mkMatrix 0 0 []) (mkMatrix 0 0 [])
    false 2 1 FullPivotLU false false.

(** The model of three samples marked trained with coefficients of
    four rows, and the fresh model marked trained. *)
Definition four_coefficient_rows : World double :=
  mkWorld
    (with_Initialized true
       (with_RegressionVectors (mkMatrix 4 1 [[d 1]; [d 1]; [d 1]; [d 1]])
          three_samples))
    [] [].

Definition marked_trained_without_samples : World double :=
  mkWorld (with_Initialized true fresh) [] [].

(** Under the prefix [gp], three matrix files that hold matrices
    without columns, and the parameter file of a Gaussian kernel of
    parameters 1 and 1, noise 0.5, both dimensions 1, debug off. *)
Definition files_without_columns : FileSystem :=
  [("gp-ParameterFile.txt"%string, RegularFile "GaussianKernel 2 1 1 0.5 1 1 0");
   ("gp-LabelVectors.txt"%string, RegularFile "");
   ("gp-SampleVectors.txt"%string, RegularFile "");
   ("gp-RegressionVectors.txt"%string, RegularFile "")].

End Example.

(* ------------------------------------------------------------------ *)
(** * Facts about loops, vectors and matrices *)

Lemma for_loop_invariant {S : Type} (P : nat -> S -> Prop)
    (count start : nat) (body : nat -> S -> option S) (s : S) :
  P start s ->
  (forall i t, start <= i < start + count -> P i t ->
     exists t', body i t = Some t' /\ P (Datatypes.S i) t') ->
  exists s', for_loop start count body s = Some s' /\ P (start + count) s'.
Proof.
  revert start s.
  induction count as [|count IH]; intros start s Hs Hstep; simpl.
  - exists s. rewrite Nat.add_0_r. auto.
  - destruct (Hstep start s) as [t [Hb Ht]]; [lia | assumption |].
    rewrite Hb. simpl.
    destruct (IH (Datatypes.S start) t) as [s' [Hl Hp]].
    + assumption.
    + intros i u Hi Hu. apply Hstep; [lia | assumption].
    + exists s'. split; [assumption|].
      replace (start + Datatypes.S count) with (Datatypes.S start + count) by lia.
      assumption.
Qed.

Section EigenFacts.
Context {T : Type} `{Scalar T}.

Lemma map_seq_ext {A : Type} (f g : nat -> A) (n start : nat) :
    (forall i, start <= i < start + n -> f i = g i) ->
    map f (seq start n) = map g (seq start n).
Proof.
    intros Hfg. apply map_ext_in. intros i Hi.
    apply in_seq in Hi. apply Hfg. assumption.
Qed.

Lemma nth_map_seq {A : Type} (f : nat -> A) (n i : nat) (d : A) :
    i < n -> nth i (map f (seq 0 n)) d = f i.
Proof.
    intros Hi.
    rewrite (nth_indep _ d (f 0)) by (rewrite length_map, length_seq; assumption).
    rewrite (map_nth f (seq 0 n) 0 i). rewrite seq_nth by assumption. reflexivity.
Qed.

Lemma rows_tabulate (r c : nat) (f : nat -> nat -> T) : rows (tabulate r c f) = r.
Proof. reflexivity. Qed.

Lemma cols_tabulate (r c : nat) (f : nat -> nat -> T) : cols (tabulate r c f) = c.
Proof. reflexivity. Qed.

Lemma coeff_tabulate (r c : nat) (f : nat -> nat -> T) (i j : nat) :
    i < r -> j < c -> coeff (tabulate r c f) i j = f i j.
Proof.
    intros Hi Hj. unfold coeff, tabulate. simpl.
    rewrite (nth_map_seq (fun i => map (fun j => f i j) (seq 0 c))) by assumption.
    apply nth_map_seq. assumption.
Qed.

Lemma tabulate_ext (r c : nat) (f g : nat -> nat -> T) :
    (forall i j, i < r -> j < c -> f i j = g i j) ->
    tabulate r c f = tabulate r c g.
Proof.
    intros Hfg. unfold tabulate. f_equal.
    apply map_seq_ext. intros i Hi.
    apply map_seq_ext. intros j Hj.
    apply Hfg; lia.
Qed.

Lemma row_tabulate (r c : nat) (f : nat -> nat -> T) (i : nat) :
    i < r -> row (tabulate r c f) i = map (f i) (seq 0 c).
Proof.
    intros Hi. unfold row. rewrite cols_tabulate.
    apply map_seq_ext. intros j Hj. apply coeff_tabulate; lia.
Qed.

Lemma column_tabulate (r c : nat) (f : nat -> nat -> T) (j : nat) :
    j < c -> column (tabulate r c f) j = map (fun i => f i j) (seq 0 r).
Proof.
    intros Hj. unfold column. rewrite rows_tabulate.
    apply map_seq_ext. intros i Hi. apply coeff_tabulate; lia.
Qed.

Lemma set_coeff_tabulate (r c : nat) (f : nat -> nat -> T) (i j : nat) (v : T) :
    i < r -> j < c ->
    set_coeff (tabulate r c f) i j v
    = Some (tabulate r c (fun a b => if (a =? i) && (b =? j) then v else f a b)).
Proof.
    intros Hi Hj. unfold set_coeff. rewrite rows_tabulate, cols_tabulate.
    apply Nat.ltb_lt in Hi as Hi'. apply Nat.ltb_lt in Hj as Hj'.
    rewrite Hi', Hj'. simpl. f_equal.
    apply tabulate_ext. intros a b Ha Hb.
    rewrite coeff_tabulate by assumption. reflexivity.
Qed.

Lemma set_row_tabulate (r c : nat) (f : nat -> nat -> T) (i : nat) (v : Vector T) :
    i < r -> length v = c ->
    set_row (tabulate r c f) i v
    = Some (tabulate r c (fun a b => if a =? i then vcoeff v b else f a b)).
Proof.
    intros Hi Hv. unfold set_row. rewrite rows_tabulate, cols_tabulate.
    apply Nat.ltb_lt in Hi as Hi'. apply Nat.eqb_eq in Hv as Hv'.
    rewrite Hi', Hv'. simpl. f_equal.
    apply tabulate_ext. intros a b Ha Hb.
    rewrite coeff_tabulate by assumption. reflexivity.
Qed.

Lemma set_col_tabulate (r c : nat) (f : nat -> nat -> T) (j : nat) (v : Vector T) :
    j < c -> length v = r ->
    set_col (tabulate r c f) j v
    = Some (tabulate r c (fun a b => if b =? j then vcoeff v a else f a b)).
Proof.
    intros Hj Hv. unfold set_col. rewrite rows_tabulate, cols_tabulate.
    apply Nat.ltb_lt in Hj as Hj'. apply Nat.eqb_eq in Hv as Hv'.
    rewrite Hj', Hv'. simpl. f_equal.
    apply tabulate_ext. intros a b Ha Hb.
    rewrite coeff_tabulate by assumption. reflexivity.
Qed.

Lemma vset_map_seq (n : nat) (f : nat -> T) (i : nat) (a : T) :
    i < n ->
    vset (map f (seq 0 n)) i a
    = Some (map (fun k => if k =? i then a else f k) (seq 0 n)).
Proof.
    intros Hi. unfold vset. rewrite length_map, length_seq.
    apply Nat.ltb_lt in Hi as Hi'. rewrite Hi'. f_equal.
    apply map_seq_ext. intros k Hk.
    destruct (k =? i); [reflexivity|].
    unfold vcoeff. apply nth_map_seq. lia.
Qed.

(** A vector is the list of its coefficients. *)
Lemma vector_tabulate (v : Vector T) :
    map (vcoeff v) (seq 0 (length v)) = v.
Proof.
    apply nth_ext with (d := s_zero) (d' := s_zero).
    - rewrite length_map, length_seq. reflexivity.
    - intros i Hi. rewrite length_map, length_seq in Hi.
      rewrite nth_map_seq by assumption. reflexivity.
Qed.

End EigenFacts.

(* ------------------------------------------------------------------ *)
(** * Sample store *)

Section SampleStore.
Context {T : Type} `{Scalar T}.

Ltac run_method :=
  unfold CheckInputDimension, CheckOutputDimension,
    bind, get_this, set_this, throw, ret, defined; simpl.

Lemma length_zero_nil {A : Type} (l : list A) : (length l =? 0) = true -> l = [].
Proof. destruct l; [reflexivity | discriminate]. Qed.

Lemma length_nonzero {A : Type} (l : list A) : l <> [] -> (length l =? 0) = false.
Proof. destruct l; [congruence | reflexivity]. Qed.

(** The first sample fixes both dimensions and is stored. *)
Lemma AddSample_first (w : World T) (x y : Vector T) :
  m_SampleVectors (this w) = [] ->
  m_LabelVectors (this w) = [] ->
  AddSample x y w
  = Returns tt
      (mkWorld
         (with_Initialized false
            (with_LabelVectors [y]
               (with_SampleVectors [x]
                  (with_OutputDimension (length y)
                     (with_InputDimension (length x) (this w))))))
         (disk w) (solver_runs w)).
Proof.
  intros Hx Hy. unfold AddSample. run_method.
  repeat (rewrite ?Nat.eqb_refl, ?Hx, ?Hy; simpl).
  reflexivity.
Qed.

(** A later sample of another dimension is rejected and nothing
    changes. *)
Lemma AddSample_mismatch (w : World T) (x y : Vector T) :
  m_SampleVectors (this w) <> [] ->
  m_LabelVectors (this w) <> [] ->
  length x <> m_InputDimension (this w) \/ length y <> m_OutputDimension (this w) ->
  exists e, AddSample x y w = Throws e w /\ DimensionMismatch e.
Proof.
  intros Hx Hy Hd. unfold AddSample. run_method.
  rewrite (length_nonzero Hx), (length_nonzero Hy). simpl.
  destruct (length x =? m_InputDimension (this w)) eqn:Ex; simpl.
  - destruct (length y =? m_OutputDimension (this w)) eqn:Ey; simpl.
    + apply Nat.eqb_eq in Ex, Ey. destruct Hd; contradiction.
    + eexists. split; [reflexivity | exact I].
  - eexists. split; [reflexivity | exact I].
Qed.

(** A sample that is accepted is appended to both sequences, the flag
    is cleared, and a sample is accepted only if it has the locked
    dimensions. *)
Lemma AddSample_returns (w w' : World T) (x y : Vector T) :
  AddSample x y w = Returns tt w' ->
  m_SampleVectors (this w') = m_SampleVectors (this w) ++ [x]
  /\ m_LabelVectors (this w') = m_LabelVectors (this w) ++ [y]
  /\ m_Initialized (this w') = false
  /\ length x = m_InputDimension (this w')
  /\ length y = m_OutputDimension (this w')
  /\ disk w' = disk w /\ solver_runs w' = solver_runs w.
Proof.
  unfold AddSample. run_method.
  destruct (length (m_SampleVectors (this w)) =? 0) eqn:Ex;
    destruct (length (m_LabelVectors (this w)) =? 0) eqn:Ey; simpl;
    repeat match goal with
      | |- context [negb (?a =? ?b)] => destruct (a =? b) eqn:?; simpl
      end;
    try discriminate;
    intros Hr; injection Hr as <-; simpl;
    repeat match goal with
      | E : (_ =? _) = true |- _ => apply Nat.eqb_eq in E
      end;
    repeat split; auto.
Qed.

(** C4.  [AddSample(x, y)]: the first call fixes the input dimension to
    the size of [x] and the output dimension to the size of [y]; a later
    call with a vector of another size throws a dimension failure and
    leaves the world, so both stores, as it was; a call that returns has
    appended [x] and [y] and cleared the initialized flag. *)
Theorem AddSample_locks_dimensions_and_rejects_mismatch
    (w : World T) (x y : Vector T) :
  (m_SampleVectors (this w) = [] -> m_LabelVectors (this w) = [] ->
     exists w', AddSample x y w = Returns tt w'
       /\ m_InputDimension (this w') = length x
       /\ m_OutputDimension (this w') = length y
       /\ m_SampleVectors (this w') = [x]
       /\ m_LabelVectors (this w') = [y]
       /\ m_Initialized (this w') = false)
  /\ (m_SampleVectors (this w) <> [] -> m_LabelVectors (this w) <> [] ->
      length x <> m_InputDimension (this w)
        \/ length y <> m_OutputDimension (this w) ->
      exists e, AddSample x y w = Throws e w /\ DimensionMismatch e)
  /\ (forall w', AddSample x y w = Returns tt w' ->
      m_SampleVectors (this w') = m_SampleVectors (this w) ++ [x]
      /\ m_LabelVectors (this w') = m_LabelVectors (this w) ++ [y]
      /\ m_Initialized (this w') = false).
Proof.
  split; [|split].
  - intros Hx Hy. eexists. split; [apply AddSample_first; assumption|].
    simpl. repeat split; reflexivity.
  - apply AddSample_mismatch.
  - intros w' Hr. apply AddSample_returns in Hr. tauto.
Qed.

End SampleStore.

(* ------------------------------------------------------------------ *)
(** * Training *)

Section Training.
Context {T : Type} `{Scalar T} `{EigenInverse T}.
Variable junk : nat -> nat -> T.

Implicit Type gp : GaussianProcess T.

Ltac split_tests :=
  repeat match goal with
    | |- context [?a =? ?b] => destruct (Nat.eqb_spec a b)
    | |- context [?a <? ?b] => destruct (Nat.ltb_spec a b)
    end; simpl; try reflexivity; try lia.

Lemma nth_error_sample gp (i : nat) :
  i < length (m_SampleVectors gp) ->
  nth_error (m_SampleVectors gp) i = Some (sample gp i).
Proof. intros Hi. apply nth_error_nth'. assumption. Qed.

Lemma nth_error_label gp (i : nat) :
  i < length (m_LabelVectors gp) ->
  nth_error (m_LabelVectors gp) i = Some (label gp i).
Proof. intros Hi. apply nth_error_nth'. assumption. Qed.

Lemma ComputeKernelMatrix_mirrored gp :
  let n := length (m_SampleVectors gp) in
  ComputeKernelMatrix junk gp = Some (tabulate n n (mirrored_kernel gp)).
Proof.
  intros n. unfold ComputeKernelMatrix. fold n.
  pose (filled := fun (a b i j : nat) =>
    (Nat.min i j <? a) || ((Nat.min i j =? a) && (Nat.max i j <? b))).
  pose (P := fun (a : nat) (M : Matrix T) =>
    M = tabulate n n (fun i j =>
          if Nat.min i j <? a then mirrored_kernel gp i j else junk i j)).
  destruct (@for_loop_invariant _ P n 0
      (fun i M =>
         for_loop i (n - i) (fun j M0 =>
           let? xi := nth_error (m_SampleVectors gp) i in
           let? xj := nth_error (m_SampleVectors gp) j in
           let v := k_eval (m_Kernel gp) xi xj in
           let? M' := set_coeff M0 i j v in
           set_coeff M' j i v) M)
      (resize junk n n)) as [M [HM HP]].
  - unfold P, resize. apply tabulate_ext. intros; reflexivity.
  - intros a M Ha HPa. unfold P in HPa. subst M.
    pose (Q := fun (b : nat) (M : Matrix T) =>
      M = tabulate n n (fun i j =>
            if filled a b i j then mirrored_kernel gp i j else junk i j)).
    destruct (@for_loop_invariant _ Q (n - a) a
        (fun j M0 =>
           let? xi := nth_error (m_SampleVectors gp) a in
           let? xj := nth_error (m_SampleVectors gp) j in
           let v := k_eval (m_Kernel gp) xi xj in
           let? M' := set_coeff M0 a j v in
           set_coeff M' j a v)
        (tabulate n n (fun i j =>
           if Nat.min i j <? a then mirrored_kernel gp i j else junk i j)))
      as [M [HM HQ]].
    + unfold Q. apply tabulate_ext. intros i j Hi Hj. unfold filled. split_tests.
    + intros b M Hb HQb. unfold Q in HQb. subst M.
      rewrite !nth_error_sample by (fold n; lia). simpl.
      rewrite set_coeff_tabulate by lia. simpl.
      rewrite set_coeff_tabulate by lia.
      eexists. split; [reflexivity|].
      unfold Q. apply tabulate_ext. intros i j Hi Hj.
      unfold filled, mirrored_kernel.
      destruct (Nat.eqb_spec i b); destruct (Nat.eqb_spec j a);
        destruct (Nat.eqb_spec i a); destruct (Nat.eqb_spec j b); simpl; subst;
        try (replace (Nat.min b a) with a by lia;
             replace (Nat.max b a) with b by lia);
        try (replace (Nat.min a b) with a by lia;
             replace (Nat.max a b) with b by lia);
        try rewrite Nat.min_id; try rewrite Nat.max_id;
        split_tests.
    + exists M. split; [assumption|].
      unfold Q in HQ. subst M. unfold P. apply tabulate_ext.
      intros i j Hi Hj. unfold filled. split_tests.
  - simpl in HP. unfold P in HP. subst M.
    etransitivity; [exact HM|]. f_equal.
    apply tabulate_ext. intros i j Hi Hj. split_tests.
Qed.

Lemma GramMatrix_mirrored gp :
  symmetric (m_Kernel gp) ->
  tabulate (length (m_SampleVectors gp)) (length (m_SampleVectors gp))
    (mirrored_kernel gp)
  = GramMatrix gp.
Proof.
  intros Hsym. unfold GramMatrix. apply tabulate_ext. intros i j Hi Hj.
  unfold mirrored_kernel.
  destruct (Nat.le_ge_cases i j) as [Hij|Hij].
  - rewrite Nat.min_l, Nat.max_r by assumption. reflexivity.
  - rewrite Nat.min_r, Nat.max_l by assumption. apply Hsym.
Qed.

Lemma add_noise_tabulate (sigma : T) (n : nat) (f : nat -> nat -> T) :
  add_noise sigma (tabulate n n f)
  = Some (plus_sigma_identity sigma (tabulate n n f)).
Proof.
  unfold add_noise. rewrite rows_tabulate.
  pose (P := fun (a : nat) (M : Matrix T) =>
    M = tabulate n n (fun i j =>
          if (i =? j) && (i <? a) then s_add (f i j) sigma else f i j)).
  destruct (@for_loop_invariant _ P n 0
      (fun i K' => set_coeff K' i i (s_add (coeff K' i i) sigma))
      (tabulate n n f)) as [M [HM HP]].
  - unfold P. apply tabulate_ext. intros i j Hi Hj.
    rewrite andb_false_r. reflexivity.
  - intros a M Ha HPa. unfold P in HPa. subst M.
    rewrite set_coeff_tabulate by lia.
    eexists. split; [reflexivity|].
    unfold P. apply tabulate_ext. intros i j Hi Hj.
    rewrite coeff_tabulate by lia.
    destruct (Nat.eqb_spec i a); destruct (Nat.eqb_spec j a); simpl; subst;
      split_tests.
  - unfold P in HP. simpl in HP. subst M.
    etransitivity; [exact HM|]. f_equal.
    unfold plus_sigma_identity. rewrite rows_tabulate, cols_tabulate.
    apply tabulate_ext. intros i j Hi Hj.
    rewrite coeff_tabulate by lia. split_tests.
Qed.

Lemma label_rows_tabulate gp (d : nat) :
  Forall (fun y => length y = d) (m_LabelVectors gp) ->
  for_loop 0 (length (m_LabelVectors gp))
    (fun i Y => let? yi := nth_error (m_LabelVectors gp) i in set_row Y i yi)
    (resize junk (length (m_LabelVectors gp)) d)
  = Some (tabulate (length (m_LabelVectors gp)) d
            (fun i j => vcoeff (label gp i) j)).
Proof.
  intros Hd. set (n := length (m_LabelVectors gp)).
  pose (P := fun (a : nat) (M : Matrix T) =>
    M = tabulate n d (fun i j =>
          if i <? a then vcoeff (label gp i) j else junk i j)).
  destruct (@for_loop_invariant _ P n 0
      (fun i Y => let? yi := nth_error (m_LabelVectors gp) i in set_row Y i yi)
      (resize junk n d)) as [M [HM HP]].
  - unfold P, resize. apply tabulate_ext. intros; reflexivity.
  - intros a M Ha HPa. unfold P in HPa. subst M.
    rewrite nth_error_label by (fold n; lia). simpl.
    rewrite set_row_tabulate.
    + eexists. split; [reflexivity|].
      unfold P. apply tabulate_ext. intros i j Hi Hj.
      split_tests; subst; try reflexivity; lia.
    + lia.
    + rewrite Forall_forall in Hd. apply Hd. unfold label.
      apply nth_In. fold n. lia.
  - unfold P in HP. simpl in HP. subst M.
    etransitivity; [exact HM|]. f_equal.
    apply tabulate_ext. intros i j Hi Hj. split_tests.
Qed.

Lemma RegressionCoefficients_trained gp :
  symmetric (m_Kernel gp) ->
  length (m_LabelVectors gp) = length (m_SampleVectors gp) ->
  RegressionCoefficients gp = Some (trained_coefficients gp).
Proof.
  intros Hsym Hlen. unfold RegressionCoefficients, trained_coefficients.
  rewrite GramMatrix_mirrored by assumption.
  unfold inverse, plus_sigma_identity at 1 2.
  rewrite !rows_tabulate, !cols_tabulate, Nat.eqb_refl. simpl.
  unfold mat_mul, LabelMatrix at 1 2.
  rewrite !rows_tabulate, !cols_tabulate, Hlen, Nat.eqb_refl.
  reflexivity.
Qed.

Lemma ComputeLabelMatrix_returns (w : World T) :
  m_LabelVectors (this w) <> [] ->
  Forall (fun y => length y = m_OutputDimension (this w)) (m_LabelVectors (this w)) ->
  ComputeLabelMatrix junk w = Returns (LabelMatrix (this w)) w.
Proof.
  intros Hne Hd. unfold ComputeLabelMatrix, bind, get_this, throw, defined.
  destruct (m_LabelVectors (this w)) as [|y0 ys] eqn:E; [congruence|].
  simpl (0 <? _). simpl (nth_error _ 0). cbv iota beta.
  assert (Hy0 : length y0 = m_OutputDimension (this w))
    by (inversion Hd; assumption).
  rewrite <- E in *. rewrite Hy0.
  rewrite label_rows_tabulate by assumption. reflexivity.
Qed.

(** Training on a model with as many outputs as inputs, at least one,
    every output of the output dimension. *)
Lemma ComputeRegressionVectors_returns (w : World T) :
  m_SampleVectors (this w) <> [] ->
  length (m_LabelVectors (this w)) = length (m_SampleVectors (this w)) ->
  Forall (fun y => length y = m_OutputDimension (this w)) (m_LabelVectors (this w)) ->
  ComputeRegressionVectors junk w
  = Returns tt
      (mkWorld (with_RegressionVectors (trained_coefficients (this w)) (this w))
         (disk w) (length (m_SampleVectors (this w)) :: solver_runs w)).
Proof.
  intros Hne Hlen Hd.
  assert (Hl : m_LabelVectors (this w) <> []).
  { intros E. rewrite E in Hlen. destruct (m_SampleVectors (this w)); [congruence | discriminate]. }
  unfold ComputeRegressionVectors, bind, get_this, note_solver_run, defined.
  cbv beta iota. simpl (this _).
  rewrite ComputeKernelMatrix_mirrored. cbv beta iota zeta.
  rewrite add_noise_tabulate.
  match goal with
  | |- context [ComputeLabelMatrix junk ?w'] =>
      rewrite (@ComputeLabelMatrix_returns w') by assumption
  end.
  unfold inverse, plus_sigma_identity at 1 2.
  rewrite !rows_tabulate, !cols_tabulate, Nat.eqb_refl.
  unfold mat_mul, LabelMatrix at 1 2.
  rewrite !rows_tabulate, !cols_tabulate. simpl (this _).
  rewrite Hlen, Nat.eqb_refl.
  unfold set_this. reflexivity.
Qed.

Lemma Initialize_returns (w : World T) :
  m_Initialized (this w) = false ->
  m_SampleVectors (this w) <> [] ->
  length (m_LabelVectors (this w)) = length (m_SampleVectors (this w)) ->
  Forall (fun y => length y = m_OutputDimension (this w)) (m_LabelVectors (this w)) ->
  Initialize junk w
  = Returns tt
      (mkWorld (trained (this w)) (disk w)
         (length (m_SampleVectors (this w)) :: solver_runs w)).
Proof.
  intros Hi Hne Hlen Hd.
  unfold Initialize, bind at 1, get_this. rewrite Hi.
  destruct (m_SampleVectors (this w)) as [|x0 xs] eqn:Ex; [congruence|].
  destruct (m_LabelVectors (this w)) as [|y0 ys] eqn:Ey; [discriminate|].
  simpl (negb _). cbv iota.
  unfold bind. rewrite ComputeRegressionVectors_returns.
  - unfold set_this, trained. simpl. rewrite Ex. reflexivity.
  - rewrite Ex. discriminate.
  - rewrite Ex, Ey. assumption.
  - rewrite Ey. assumption.
Qed.

Lemma Initialize_ready (w : World T) :
  m_Initialized (this w) = true -> Initialize junk w = Returns tt w.
Proof.
  intros Hi. unfold Initialize, bind, get_this. rewrite Hi. reflexivity.
Qed.

(** C1.  On a model with n >= 1 stored samples that is not trained,
    whose kernel is symmetric and whose outputs are as many as the
    inputs and of the output dimension, [Initialize] returns, the
    coefficients it stores are [Inverse(K + sigma * I) * Y] for the Gram
    matrix [K] of the stored inputs and the matrix [Y] of the stored
    outputs, they have n rows and d_out columns, and the model is marked
    ready. *)
Theorem Initialize_computes_regression_coefficients (w : World T) :
  let gp := this w in
  let n := length (m_SampleVectors gp) in
  1 <= n ->
  m_Initialized gp = false ->
  symmetric (m_Kernel gp) ->
  length (m_LabelVectors gp) = n ->
  Forall (fun y => length y = m_OutputDimension gp) (m_LabelVectors gp) ->
  exists R w',
    Initialize junk w = Returns tt w'
    /\ RegressionCoefficients gp = Some R
    /\ m_RegressionVectors (this w') = R
    /\ rows R = n /\ cols R = m_OutputDimension gp
    /\ m_Initialized (this w') = true.
Proof.
  intros gp n Hn Hi Hsym Hlen Hd.
  assert (Hne : m_SampleVectors gp <> []).
  { intros E. unfold n in Hn. rewrite E in Hn. simpl in Hn. lia. }
  exists (trained_coefficients gp). eexists.
  split; [apply Initialize_returns; assumption|].
  split; [apply RegressionCoefficients_trained; assumption|].
  simpl. repeat split; reflexivity.
Qed.

End Training.

(* ------------------------------------------------------------------ *)
(** * Prediction *)

Section Prediction.
Context {T : Type} `{Scalar T} `{EigenInverse T}.
Variable junk : nat -> nat -> T.

Implicit Type gp : GaussianProcess T.

Ltac split_tests :=
  repeat match goal with
    | |- context [?a =? ?b] => destruct (Nat.eqb_spec a b)
    | |- context [?a <? ?b] => destruct (Nat.ltb_spec a b)
    end; simpl; try reflexivity; try lia.

Lemma vcoeff_map_seq (f : nat -> T) (n i : nat) :
  i < n -> vcoeff (map f (seq 0 n)) i = f i.
Proof. intros Hi. unfold vcoeff. apply nth_map_seq. assumption. Qed.

Lemma vcoeff_vsub (u v : Vector T) (j : nat) :
  length u = length v -> j < length u ->
  vcoeff (map (fun p => s_sub (fst p) (snd p)) (combine u v)) j
  = s_sub (vcoeff u j) (vcoeff v j).
Proof.
  intros Hl Hj. unfold vcoeff.
  rewrite (nth_indep _ s_zero (s_sub (fst (s_zero, s_zero)) (snd (s_zero, s_zero)))).
  - rewrite (map_nth (fun p => s_sub (fst p) (snd p))).
    rewrite combine_nth by assumption. reflexivity.
  - rewrite length_map, length_combine. lia.
Qed.

Lemma ComputeKernelVector_returns (w : World T) (x : Vector T) :
  m_Initialized (this w) = true ->
  rows (m_RegressionVectors (this w)) = length (m_SampleVectors (this w)) ->
  ComputeKernelVector junk x w = Returns (KernelVector (this w) x) w.
Proof.
  intros Hi Hr. unfold ComputeKernelVector, bind, get_this, throw, defined.
  rewrite Hi. simpl (negb true). cbv iota. rewrite Hr.
  set (gp := this w). set (n := length (m_SampleVectors gp)).
  pose (P := fun (a : nat) (v : Vector T) =>
    v = map (fun i => if i <? a then k_eval (m_Kernel gp) x (sample gp i)
                      else junk i 0) (seq 0 n)).
  destruct (@for_loop_invariant _ P n 0
      (fun i Kx => let? xi := nth_error (m_SampleVectors gp) i in
                   vset Kx i (k_eval (m_Kernel gp) x xi))
      (vresize junk n)) as [v [Hv HP]].
  - unfold P, vresize. apply map_seq_ext. intros; reflexivity.
  - intros a v Ha HPa. unfold P in HPa. subst v.
    rewrite nth_error_sample by (fold n; lia). simpl.
    rewrite vset_map_seq by lia.
    eexists. split; [reflexivity|].
    unfold P. apply map_seq_ext. intros i Hi'.
    split_tests; subst; try reflexivity; lia.
  - unfold P in HP. simpl in HP. subst v. rewrite Hv.
    f_equal. unfold KernelVector. fold gp n.
    apply map_seq_ext. intros i Hi'. split_tests.
Qed.

Lemma ComputeDifferenceMatrix_defined gp (x : Vector T) :
  Forall (fun s => length s = length x) (m_SampleVectors gp) ->
  ComputeDifferenceMatrix junk gp x = Some (DifferenceMatrix gp x).
Proof.
  intros Hd. unfold ComputeDifferenceMatrix, DifferenceMatrix.
  set (n := length (m_SampleVectors gp)). set (d := length x).
  pose (P := fun (a : nat) (M : Matrix T) =>
    M = tabulate n d (fun i j =>
          if i <? a then s_sub (vcoeff x j) (vcoeff (sample gp i) j)
          else junk i j)).
  destruct (@for_loop_invariant _ P n 0
      (fun i X => let? xi := nth_error (m_SampleVectors gp) i in
                  let? r := vsub x xi in set_row X i r)
      (resize junk n d)) as [M [HM HP]].
  - unfold P, resize. apply tabulate_ext. intros; reflexivity.
  - intros a M Ha HPa. unfold P in HPa. subst M.
    rewrite nth_error_sample by (fold n; lia). simpl.
    assert (Hs : length (sample gp a) = length x).
    { rewrite Forall_forall in Hd. apply Hd. unfold sample.
      apply nth_In. fold n. lia. }
    unfold vsub. rewrite Hs, Nat.eqb_refl. simpl.
    rewrite set_row_tabulate.
    + eexists. split; [reflexivity|].
      unfold P. apply tabulate_ext. intros i j Hi Hj.
      destruct (Nat.eqb_spec i a).
      * subst i. rewrite vcoeff_vsub by (fold d; lia).
        destruct (Nat.ltb_spec a (S a)); [reflexivity | lia].
      * split_tests.
    + lia.
    + rewrite length_map, length_combine, Hs. apply Nat.min_id.
  - unfold P in HP. simpl in HP. subst M. rewrite HM. f_equal.
    apply tabulate_ext. intros i j Hi Hj. split_tests.
Qed.

Lemma length_KernelVector gp (x : Vector T) :
  length (KernelVector gp x) = length (m_SampleVectors gp).
Proof. unfold KernelVector. rewrite length_map, length_seq. reflexivity. Qed.

(** With coefficients of one row per sample, every derivative column
    is defined and has one entry per input dimension. *)
Lemma derivative_column_defined gp (x : Vector T) (c : nat) :
  rows (m_RegressionVectors gp) = length (m_SampleVectors gp) ->
  c < cols (m_RegressionVectors gp) ->
  exists v, derivative_column gp x c = Some v /\ length v = length x.
Proof.
  intros Hr Hc. unfold derivative_column, col.
  apply Nat.ltb_lt in Hc. rewrite Hc. simpl.
  unfold cwiseProduct. rewrite length_KernelVector, length_map, length_seq, Hr.
  rewrite Nat.eqb_refl. simpl.
  unfold mat_vec, mneg, transpose, DifferenceMatrix.
  rewrite !rows_tabulate, !cols_tabulate.
  rewrite length_map, length_combine, length_KernelVector, length_map, length_seq.
  rewrite Nat.min_id, Nat.eqb_refl.
  eexists. split; [reflexivity|].
  rewrite length_map, length_seq. reflexivity.
Qed.

(** The loop over the output dimensions in [PredictDerivative]. *)
Lemma derivative_loop_defined gp (x : Vector T) :
  rows (m_RegressionVectors gp) = length (m_SampleVectors gp) ->
  cols (m_RegressionVectors gp) = m_OutputDimension gp ->
  length x = m_InputDimension gp ->
  exists D,
    for_loop 0 (m_OutputDimension gp) (fun i D =>
        let? c := col (m_RegressionVectors gp) i in
        let? w := cwiseProduct (KernelVector gp x) c in
        let? v := mat_vec (mneg (transpose (DifferenceMatrix gp x))) w in
        set_col D i v)
      (resize junk (m_InputDimension gp) (m_OutputDimension gp)) = Some D
    /\ rows D = m_InputDimension gp
    /\ cols D = m_OutputDimension gp
    /\ forall c, c < m_OutputDimension gp ->
         derivative_column gp x c = Some (column D c).
Proof.
  intros Hr Hc Hx.
  set (din := m_InputDimension gp). set (dout := m_OutputDimension gp).
  pose (dv := fun c => match derivative_column gp x c with
                       | Some v => v
                       | None => []
                       end).
  assert (Hdv : forall c, c < dout ->
            derivative_column gp x c = Some (dv c) /\ length (dv c) = din).
  { intros c Hlt.
    destruct (@derivative_column_defined gp x c Hr) as [v [Hv Hl]].
    - rewrite Hc. assumption.
    - unfold dv. rewrite Hv. split; [reflexivity|]. rewrite Hl. assumption. }
  pose (P := fun (a : nat) (D : Matrix T) =>
    D = tabulate din dout (fun r c =>
          if c <? a then vcoeff (dv c) r else junk r c)).
  destruct (@for_loop_invariant _ P dout 0
      (fun i D =>
        let? c := col (m_RegressionVectors gp) i in
        let? w := cwiseProduct (KernelVector gp x) c in
        let? v := mat_vec (mneg (transpose (DifferenceMatrix gp x))) w in
        set_col D i v)
      (resize junk din dout)) as [D [HD HP]].
  - unfold P, resize. apply tabulate_ext. intros; reflexivity.
  - intros a D Ha HPa. unfold P in HPa. subst D.
    destruct (Hdv a) as [Hv Hl]; [lia|].
    assert (Hbody :
      (let? c := col (m_RegressionVectors gp) a in
       let? w := cwiseProduct (KernelVector gp x) c in
       let? v := mat_vec (mneg (transpose (DifferenceMatrix gp x))) w in
       set_col (tabulate din dout
                  (fun r c => if c <? a then vcoeff (dv c) r else junk r c)) a v)
      = (let? v := derivative_column gp x a in
         set_col (tabulate din dout
                    (fun r c => if c <? a then vcoeff (dv c) r else junk r c)) a v)).
    { unfold derivative_column.
      destruct (col (m_RegressionVectors gp) a); [|reflexivity]. simpl.
      destruct (cwiseProduct (KernelVector gp x) v); reflexivity. }
    rewrite Hbody, Hv. simpl.
    rewrite set_col_tabulate by lia.
    eexists. split; [reflexivity|].
    unfold P. apply tabulate_ext. intros r c Hr' Hc'.
    split_tests; subst; try reflexivity; lia.
  - exists D. unfold P in HP. simpl in HP. subst D.
    split; [exact HD|]. split; [reflexivity|]. split; [reflexivity|].
    intros c Hlt. destruct (Hdv c Hlt) as [Hv Hl]. rewrite Hv. f_equal.
    rewrite column_tabulate by assumption.
    rewrite <- (vector_tabulate (dv c)) at 1. rewrite Hl.
    apply map_seq_ext. intros r Hr'. split_tests.
Qed.

Lemma CheckInputDimension_returns (w : World T) (x : Vector T) (msg : string) :
  length x = m_InputDimension (this w) ->
  CheckInputDimension x msg w = Returns tt w.
Proof.
  intros Hx. unfold CheckInputDimension, bind, get_this, throw, ret.
  rewrite Hx, Nat.eqb_refl. reflexivity.
Qed.

(** Prediction on a trained model whose coefficients have one row per
    sample. *)
Lemma Predict_ready (w : World T) (x : Vector T) :
  m_Initialized (this w) = true ->
  rows (m_RegressionVectors (this w)) = length (m_SampleVectors (this w)) ->
  length x = m_InputDimension (this w) ->
  exists p, posterior_mean (this w) x = Some p
    /\ Predict junk x w = Returns p w.
Proof.
  intros Hi Hr Hx.
  assert (Hp : exists p, posterior_mean (this w) x = Some p).
  { unfold posterior_mean, vec_mat. rewrite length_KernelVector, Hr, Nat.eqb_refl.
    eexists. reflexivity. }
  destruct Hp as [p Hp]. exists p. split; [assumption|].
  unfold Predict, bind. rewrite Initialize_ready by assumption.
  rewrite CheckInputDimension_returns by assumption.
  rewrite ComputeKernelVector_returns by assumption.
  unfold get_this, defined. unfold posterior_mean in Hp. rewrite Hp. reflexivity.
Qed.

Lemma PredictDerivative_ready (w : World T) (x : Vector T) :
  m_Initialized (this w) = true ->
  rows (m_RegressionVectors (this w)) = length (m_SampleVectors (this w)) ->
  cols (m_RegressionVectors (this w)) = m_OutputDimension (this w) ->
  Forall (fun s => length s = m_InputDimension (this w)) (m_SampleVectors (this w)) ->
  length x = m_InputDimension (this w) ->
  exists p D, posterior_mean (this w) x = Some p
    /\ PredictDerivative junk x w = Returns (p, D) w
    /\ rows D = m_InputDimension (this w)
    /\ cols D = m_OutputDimension (this w)
    /\ forall c, c < m_OutputDimension (this w) ->
         derivative_column (this w) x c = Some (column D c).
Proof.
  intros Hi Hr Hc Hs Hx.
  destruct (@Predict_ready w x Hi Hr Hx) as [p [Hp _]].
  destruct (@derivative_loop_defined (this w) x Hr Hc Hx) as [D [HD [HrD [HcD Hcol]]]].
  exists p, D. split; [assumption|].
  split; [|split; [assumption | split; assumption]].
  unfold PredictDerivative, bind. rewrite Initialize_ready by assumption.
  rewrite CheckInputDimension_returns by assumption.
  rewrite ComputeKernelVector_returns by assumption.
  unfold get_this, defined.
  rewrite ComputeDifferenceMatrix_defined.
  - rewrite HD. unfold posterior_mean in Hp. rewrite Hp. reflexivity.
  - rewrite Hx. assumption.
Qed.

(** Training keeps the invariants of the data model. *)
Lemma trained_consistent gp :
  consistent gp -> m_SampleVectors gp <> [] -> consistent (trained gp).
Proof.
  intros [Hl [Hx [Hy _]]] Hne. unfold consistent, trained. simpl.
  repeat split; assumption.
Qed.

(** [Initialize] on a consistent model with a sample: it returns, and
    the model is trained and consistent afterwards. *)
Lemma Initialize_consistent (w : World T) :
  consistent (this w) -> m_SampleVectors (this w) <> [] ->
  exists w', Initialize junk w = Returns tt w'
    /\ consistent (this w') /\ m_Initialized (this w') = true
    /\ m_SampleVectors (this w') = m_SampleVectors (this w)
    /\ m_InputDimension (this w') = m_InputDimension (this w)
    /\ m_OutputDimension (this w') = m_OutputDimension (this w)
    /\ disk w' = disk w
    /\ (m_Initialized (this w) = true -> w' = w)
    /\ (m_Initialized (this w) = false ->
        this w' = trained (this w)
        /\ solver_runs w' = length (m_SampleVectors (this w)) :: solver_runs w).
Proof.
  intros Hc Hne. destruct (m_Initialized (this w)) eqn:Hi.
  - exists w. rewrite Initialize_ready by assumption.
    split; [reflexivity|]. split; [exact Hc|].
    repeat split; congruence.
  - assert (Hc' := Hc). destruct Hc' as [Hl [Hx [Hy Ht]]]. eexists.
    rewrite Initialize_returns by assumption.
    split; [reflexivity|]. simpl.
    split; [apply trained_consistent; assumption|].
    repeat split; try reflexivity; congruence.
Qed.

Lemma Predict_after_Initialize (w w1 : World T) (x : Vector T) :
  Initialize junk w = Returns tt w1 ->
  m_Initialized (this w1) = true ->
  Predict junk x w = Predict junk x w1.
Proof.
  intros Hw Hi. unfold Predict, bind.
  rewrite Hw, (Initialize_ready junk w1 Hi). reflexivity.
Qed.

Lemma PredictDerivative_after_Initialize (w w1 : World T) (x : Vector T) :
  Initialize junk w = Returns tt w1 ->
  m_Initialized (this w1) = true ->
  PredictDerivative junk x w = PredictDerivative junk x w1.
Proof.
  intros Hw Hi. unfold PredictDerivative, bind.
  rewrite Hw, (Initialize_ready junk w1 Hi). reflexivity.
Qed.

(** C9.  On a model that keeps the invariants of the data model and
    has at least one sample, for an input of the input dimension,
    [PredictDerivative] returns the prediction that [Predict] returns,
    in the same world, and a matrix of d_in rows and d_out columns whose
    column [c] is [-X^T * (Kx o Coefficients[:,c])], with [Kx] the kernel
    at the input and every stored input and [X] the matrix of the
    differences of the input and every stored input. *)
Theorem PredictDerivative_returns_prediction_and_jacobian
    (w : World T) (x : Vector T) :
  consistent (this w) ->
  1 <= length (m_SampleVectors (this w)) ->
  length x = m_InputDimension (this w) ->
  exists p D w',
    PredictDerivative junk x w = Returns (p, D) w'
    /\ Predict junk x w = Returns p w'
    /\ rows D = m_InputDimension (this w)
    /\ cols D = m_OutputDimension (this w)
    /\ forall c, c < m_OutputDimension (this w) ->
         derivative_column (this w') x c = Some (column D c).
Proof.
  intros Hc Hn Hx.
  assert (Hne : m_SampleVectors (this w) <> []).
  { intros E. rewrite E in Hn. simpl in Hn. lia. }
  destruct (@Initialize_consistent w Hc Hne)
    as [w1 [Hw [Hc1 [Hi1 [Hs1 [Hdi [Hdo _]]]]]]].
  destruct Hc1 as [Hl1 [Hx1 [Hy1 Ht1]]].
  destruct (Ht1 Hi1) as [_ [Hr1 Hcols1]].
  assert (Hx' : length x = m_InputDimension (this w1)) by congruence.
  destruct (@PredictDerivative_ready w1 x Hi1 Hr1 Hcols1 Hx1 Hx')
    as [p [D [Hp [HD [HrD [HcD Hcol]]]]]].
  destruct (@Predict_ready w1 x Hi1 Hr1 Hx') as [p' [Hp' HP]].
  assert (p' = p) by congruence. subst p'.
  exists p, D, w1.
  rewrite (@PredictDerivative_after_Initialize w w1 x Hw Hi1).
  rewrite (@Predict_after_Initialize w w1 x Hw Hi1).
  rewrite <- Hdi, <- Hdo.
  repeat split; assumption.
Qed.

End Prediction.

(* ------------------------------------------------------------------ *)
(** * Reasoning about methods *)

Section Triples.
Context {T : Type}.

Lemma triple_ret {A : Type} (w : World T) (a : A) Q E U :
  Q a w -> triple w (ret a) Q E U.
Proof. intros Hq. exact Hq. Qed.

Lemma triple_throw {A : Type} (w : World T) (e : Exception)
    (Q : A -> World T -> Prop) E U :
  E e w -> triple w (throw e) Q E U.
Proof. intros He. exact He. Qed.

Lemma triple_defined {A : Type} (w : World T) (o : option A) Q E U :
  match o with Some a => Q a w | None => U end ->
  triple w (defined o) Q E U.
Proof. unfold triple, defined. destruct o; auto. Qed.

Lemma triple_get_this (w : World T) Q E U :
  Q (this w) w -> triple w get_this Q E U.
Proof. intros Hq. exact Hq. Qed.

Lemma triple_get_disk (w : World T) Q E U :
  Q (disk w) w -> triple w get_disk Q E U.
Proof. intros Hq. exact Hq. Qed.

Lemma triple_set_this (w : World T) (f : GaussianProcess T -> GaussianProcess T)
    Q E U :
  Q tt (mkWorld (f (this w)) (disk w) (solver_runs w)) ->
  triple w (set_this f) Q E U.
Proof. intros Hq. exact Hq. Qed.

Lemma triple_set_disk (w : World T) (f : FileSystem -> FileSystem) Q E U :
  Q tt (mkWorld (this w) (f (disk w)) (solver_runs w)) ->
  triple w (set_disk f) Q E U.
Proof. intros Hq. exact Hq. Qed.

Lemma triple_note_solver_run (w : World T) (n : nat) Q E U :
  Q tt (mkWorld (this w) (disk w) (n :: solver_runs w)) ->
  triple w (note_solver_run n) Q E U.
Proof. intros Hq. exact Hq. Qed.

Lemma triple_bind {A B : Type} (w : World T) (m : Method T A)
    (k : A -> Method T B) Q E U :
  triple w m (fun a w1 => triple w1 (k a) Q E U) E U ->
  triple w (bind m k) Q E U.
Proof.
  unfold triple, bind. destruct (m w); auto.
Qed.

Lemma triple_consequence {A : Type} (w : World T) (m : Method T A)
    (Q Q' : A -> World T -> Prop) (E E' : Exception -> World T -> Prop)
    (U U' : Prop) :
  triple w m Q' E' U' ->
  (forall a w', Q' a w' -> Q a w') ->
  (forall e w', E' e w' -> E e w') ->
  (U' -> U) ->
  triple w m Q E U.
Proof.
  unfold triple. intros Hm Hq He Hu. destruct (m w); auto.
Qed.

(** What a triple says of each outcome. *)
Lemma triple_returns {A : Type} (w w' : World T) (m : Method T A) (a : A) Q E U :
  triple w m Q E U -> m w = Returns a w' -> Q a w'.
Proof. unfold triple. intros Hm Hr. rewrite Hr in Hm. exact Hm. Qed.

Lemma triple_throws {A : Type} (w w' : World T) (m : Method T A)
    (e : Exception) Q E U :
  triple w m Q E U -> m w = Throws e w' -> E e w'.
Proof. unfold triple. intros Hm Hr. rewrite Hr in Hm. exact Hm. Qed.

Lemma triple_total {A : Type} (w : World T) (m : Method T A) Q E :
  triple w m Q E False -> m w <> Undefined.
Proof. unfold triple. intros Hm Hr. rewrite Hr in Hm. exact Hm. Qed.

End Triples.

(* ------------------------------------------------------------------ *)
(** * Loading *)

Section Loading.
Context {T : Type} `{Scalar T} `{KernelLibrary T} `{EigenInverse T}
        `{MatrixIO T} `{StreamFormat} `{FileOpening}.
Variable junk : nat -> nat -> T.

Lemma extract_failed {A : Type} (scan : string -> ScanResult A)
    (ls : istream) (x : A) :
  is_fail ls = true -> extract scan ls x = (ls, x).
Proof. intros Hf. unfold extract. rewrite Hf. reflexivity. Qed.

(** An extraction succeeds or fails whatever the variable held. *)
Lemma extract_cases {A : Type} (scan : string -> ScanResult A) (ls : istream) :
  (exists ls' v, is_fail ls' = false
     /\ (forall x, extract scan ls x = (ls', v))
     /\ (forall x, extracted scan ls x = Some (ls', v)))
  \/ ((forall x, is_fail (fst (extract scan ls x)) = true)
      /\ (forall x, extracted scan ls x = None)).
Proof.
  unfold extracted, extract.
  destruct (is_fail ls) eqn:Hf.
  - right. split; intros x; simpl; rewrite Hf; reflexivity.
  - destruct (skipws (is_buf ls)) as [|c s] eqn:Hs.
    + right. split; intros x; reflexivity.
    + destruct (scan (String c s)) as [v r|stored r].
      * left. exists (mkIstream r false), v. repeat split; reflexivity.
      * right. split; intros x; reflexivity.
Qed.

Lemma read_kernel_parameters_failed (count : nat) (ls : istream)
    (acc : list T) :
  is_fail ls = true ->
  read_kernel_parameters junk count ls false acc = (ls, false, acc).
Proof.
  induction count as [|count IH]; intros Hf; simpl.
  - reflexivity.
  - rewrite extract_failed by assumption. rewrite Hf. apply IH. assumption.
Qed.

Lemma read_kernel_parameters_cases (count : nat) (ls : istream) (load : bool)
    (acc : list T) :
  (exists ls' ps, extracted_scalars count ls = Some (ls', ps)
     /\ read_kernel_parameters junk count ls load acc = (ls', load, acc ++ ps))
  \/ (extracted_scalars count ls = None
      /\ exists ls' ps, read_kernel_parameters junk count ls load acc = (ls', false, ps)
           /\ is_fail ls' = true).
Proof.
  revert ls load acc. induction count as [|count IH]; intros ls load acc; simpl.
  - left. exists ls, []. rewrite app_nil_r. split; reflexivity.
  - destruct (extract_cases s_scan ls) as [[ls' [v [Hf [He Hx]]]]|[Hf Hx]].
    + rewrite He, Hx, Hf. simpl.
      destruct (IH ls' load (acc ++ [v])) as [[ls'' [ps [Hs Hr]]]|[Hs [ls'' [ps [Hr Hf']]]]].
      * left. exists ls'', (v :: ps). rewrite Hs. simpl. split; [reflexivity|].
        rewrite Hr. rewrite <- app_assoc. reflexivity.
      * right. rewrite Hs. simpl. split; [reflexivity|].
        exists ls'', ps. split; assumption.
    + right. rewrite Hx. simpl. split; [reflexivity|].
      specialize (Hf (junk 0 0)).
      destruct (extract s_scan ls (junk 0 0)) as [ls' p]. simpl in Hf.
      rewrite Hf. exists ls', acc.
      split; [apply read_kernel_parameters_failed; assumption | assumption].
Qed.

Lemma kept_by_failed_Load_refl (w : World T) : kept_by_failed_Load w w.
Proof. repeat split; reflexivity. Qed.

Ltac keeps := unfold kept_by_failed_Load; simpl; repeat split; reflexivity.

Lemma read_parameter_line_spec (line : string) (w : World T) :
  triple w (read_parameter_line junk line)
    (fun r w' => exists f, parameter_fields line = Some f
       /\ r = (pf_kernel_type f, pf_kernel_parameters f)
       /\ w' = mkWorld (with_fields f (this w)) (disk w) (solver_runs w))
    (fun e w' => parameter_fields line = None /\ kept_by_failed_Load w w')
    False.
Proof.
  unfold read_parameter_line, parameter_fields, triple, bind, get_this,
    set_this, throw, ret.
  (* kernel type *)
  destruct (extract_cases scan_string (mkIstream line false))
    as [[ls1 [kt [Hok1 [He1 Hx1]]]]|[Hf1 Hx1]].
  2:{ rewrite Hx1. specialize (Hf1 EmptyString).
      destruct (extract scan_string _ EmptyString) as [ls1 kt]. simpl in Hf1.
      rewrite (extract_failed _ _ _ Hf1). rewrite Hf1. simpl.
      rewrite (extract_failed _ _ _ Hf1). rewrite Hf1.
      split; [reflexivity | keeps]. }
  rewrite He1, Hx1, Hok1. simpl.
  (* number of kernel parameters *)
  destruct (extract_cases scan_unsigned ls1)
    as [[ls2 [num [Hok2 [He2 Hx2]]]]|[Hf2 Hx2]].
  2:{ rewrite Hx2. specialize (Hf2 0).
      destruct (extract scan_unsigned ls1 0) as [ls2 num]. simpl in Hf2.
      rewrite Hf2. simpl.
      rewrite (read_kernel_parameters_failed _ _ _ Hf2).
      rewrite (extract_failed _ _ _ Hf2). rewrite Hf2.
      split; [reflexivity | keeps]. }
  rewrite He2, Hx2, Hok2. simpl.
  (* kernel parameters *)
  destruct (read_kernel_parameters_cases num ls2 true [])
    as [[ls3 [ps [Hs3 Hr3]]]|[Hs3 [ls3 [ps [Hr3 Hf3]]]]].
  2:{ rewrite Hs3, Hr3. simpl.
      rewrite (extract_failed _ _ _ Hf3). rewrite Hf3.
      split; [reflexivity | keeps]. }
  rewrite Hs3, Hr3. simpl.
  (* noise *)
  destruct (extract_cases s_scan ls3)
    as [[ls4 [sigma [Hok4 [He4 Hx4]]]]|[Hf4 Hx4]].
  2:{ rewrite Hx4. specialize (Hf4 (m_Sigma (this w))).
      destruct (extract s_scan ls3 _) as [ls4 sigma]. simpl in Hf4.
      rewrite Hf4. split; [reflexivity | keeps]. }
  rewrite He4, Hx4, Hok4. simpl.
  (* input dimension *)
  destruct (extract_cases scan_unsigned ls4)
    as [[ls5 [din [Hok5 [He5 Hx5]]]]|[Hf5 Hx5]].
  2:{ rewrite Hx5. specialize (Hf5 (m_InputDimension (this w))).
      destruct (extract scan_unsigned ls4 _) as [ls5 din]. simpl in Hf5.
      rewrite Hf5. split; [reflexivity | keeps]. }
  rewrite He5, Hx5, Hok5. simpl.
  (* output dimension *)
  destruct (extract_cases scan_unsigned ls5)
    as [[ls6 [dout [Hok6 [He6 Hx6]]]]|[Hf6 Hx6]].
  2:{ rewrite Hx6. specialize (Hf6 (m_OutputDimension (this w))).
      destruct (extract scan_unsigned ls5 _) as [ls6 dout]. simpl in Hf6.
      rewrite Hf6. split; [reflexivity | keeps]. }
  rewrite He6, Hx6, Hok6. simpl.
  (* debug flag *)
  destruct (extract_cases scan_bool ls6)
    as [[ls7 [dbg [Hok7 [He7 Hx7]]]]|[Hf7 Hx7]].
  2:{ rewrite Hx7. specialize (Hf7 (debug (this w))).
      destruct (extract scan_bool ls6 _) as [ls7 dbg]. simpl in Hf7.
      rewrite Hf7. split; [reflexivity | keeps]. }
  rewrite He7, Hx7, Hok7. simpl.
  eexists. split; [reflexivity|]. split; reflexivity.
Qed.

Lemma load_kernel_spec (kernel_type : string) (kernel_parameters : list T)
    (w : World T) :
  triple w (load_kernel kernel_type kernel_parameters)
    (fun _ w' => exists k, kernel_by_name kernel_type kernel_parameters = Some k
       /\ w' = mkWorld (with_Kernel k (this w)) (disk w) (solver_runs w))
    (fun e w' => kernel_by_name kernel_type kernel_parameters = None /\ w' = w)
    False.
Proof.
  unfold load_kernel, kernel_by_name, triple, bind, defined, set_this, throw.
  destruct (String.eqb kernel_type "GaussianKernel").
  - destruct kernel_parameters as [|p0 [|p1 [|p2 ps]]]; simpl;
      try (split; reflexivity).
    eexists. split; reflexivity.
  - destruct (String.eqb kernel_type "PeriodicKernel").
    + destruct kernel_parameters as [|p0 [|p1 [|p2 [|p3 ps]]]]; simpl;
        try (split; reflexivity).
      eexists. split; reflexivity.
    + split; reflexivity.
Qed.

Lemma Load_triple (prefix : string) (w : World T) :
  triple w (Load junk prefix)
    (fun _ w' => exists gp', loaded_model prefix (disk w) (this w) = Some gp'
       /\ w' = mkWorld gp' (disk w) (solver_runs w))
    (fun e w' => loaded_model prefix (disk w) (this w) = None
       /\ kept_by_failed_Load w w')
    False.
Proof.
  unfold Load, loaded_model, matrix_in_file, ReadMatrix, is_regular_file.
  apply triple_bind, triple_get_disk.
  (* regression vectors *)
  destruct (lookup (prefix ++ "-RegressionVectors.txt")%string (disk w))
    as [[|c1]|] eqn:L1; cbn [negb obind].
  1,3: apply triple_throw; split; [reflexivity | keeps].
  apply triple_bind, triple_bind, triple_get_disk. rewrite L1.
  destruct (matrix_of_text c1) as [R|] eqn:M1; cbn [obind];
    [|apply triple_throw; split; [reflexivity | keeps]].
  apply triple_ret, triple_bind, triple_set_this. cbn [disk this solver_runs].
  (* sample vectors *)
  destruct (lookup (prefix ++ "-SampleVectors.txt")%string (disk w))
    as [[|c2]|] eqn:L2; cbn [negb obind].
  1,3: apply triple_throw; split; [reflexivity | keeps].
  apply triple_bind, triple_bind, triple_get_disk. cbn [disk]. rewrite L2.
  destruct (matrix_of_text c2) as [X|] eqn:M2; cbn [obind];
    [|apply triple_throw; split; [reflexivity | keeps]].
  apply triple_ret, triple_bind, triple_set_this. cbn [disk this solver_runs].
  (* label vectors *)
  destruct (lookup (prefix ++ "-LabelVectors.txt")%string (disk w))
    as [[|c3]|] eqn:L3; cbn [negb obind].
  1,3: apply triple_throw; split; [reflexivity | keeps].
  apply triple_bind, triple_bind, triple_get_disk. cbn [disk]. rewrite L3.
  destruct (matrix_of_text c3) as [Y|] eqn:M3; cbn [obind];
    [|apply triple_throw; split; [reflexivity | keeps]].
  apply triple_ret, triple_bind, triple_set_this. cbn [disk this solver_runs].
  (* parameter file *)
  destruct (lookup (prefix ++ "-ParameterFile.txt")%string (disk w))
    as [[|c4]|] eqn:L4.
  1,3: apply triple_throw; split; [reflexivity | keeps].
  apply triple_bind.
  destruct (getline c4) as [line|] eqn:G4; cbn [obind].
  - eapply triple_consequence;
      [apply read_parameter_line_spec | | | exact (fun u => u)];
      cbn [disk this solver_runs].
    + intros [kt kp] w4 [f [Hf [Hr ->]]]. injection Hr as -> ->.
      rewrite Hf. cbn [obind fst snd].
      apply triple_bind.
      eapply triple_consequence;
        [apply load_kernel_spec | | | exact (fun u => u)];
        cbn [disk this solver_runs].
      * intros _ w5 [k [Hk ->]]. rewrite Hk. cbn [obind].
        apply triple_set_this. eexists. split; reflexivity.
      * intros e w5 [Hk ->]. rewrite Hk. split; [reflexivity | keeps].
    + intros e w4 [Hf Hk]. rewrite Hf. split; [reflexivity|].
      unfold kept_by_failed_Load in *. cbn [disk this solver_runs] in *.
      simpl in Hk. simpl. intuition.
  - apply triple_ret. cbn [fst snd]. apply triple_bind.
    eapply triple_consequence;
      [apply load_kernel_spec | | | exact (fun u => u)].
    + intros _ w5 [k [Hk _]]. discriminate Hk.
    + intros e w5 [_ ->]. split; [reflexivity | keeps].
Qed.

(** [Load] refines the specification of a load: it returns exactly
    when the four files determine a model, and the model is then that
    one; otherwise it throws, and the kernel, the flags, the inversion
    method, the core matrix, the files and the record of solver runs
    are as before. *)
Lemma Load_refines (prefix : string) (w : World T) :
  match loaded_model prefix (disk w) (this w) with
  | Some gp' =>
      Load junk prefix w = Returns tt (mkWorld gp' (disk w) (solver_runs w))
  | None =>
      exists e w', Load junk prefix w = Throws e w' /\ kept_by_failed_Load w w'
  end.
Proof.
  pose proof (Load_triple prefix w) as Ht. unfold triple in Ht.
  destruct (Load junk prefix w) as [[] w'|e w'|]; [| |contradiction].
  - destruct Ht as [gp' [Hl ->]]. rewrite Hl. reflexivity.
  - destruct Ht as [Hl Hk]. rewrite Hl. exists e, w'. split; [reflexivity | assumption].
Qed.

End Loading.

(* ------------------------------------------------------------------ *)
(** * The initialized flag and the solver *)

Section Lifecycle.
Context {T : Type} `{Scalar T} `{KernelLibrary T} `{EigenInverse T}
        `{MatrixIO T} `{StreamFormat} `{FileOpening}.
Variable junk : nat -> nat -> T.

Lemma read_only_CheckInputDimension (x : Vector T) (msg : string) :
  read_only (CheckInputDimension x msg).
Proof.
  intros w. unfold CheckInputDimension.
  apply triple_bind, triple_get_this.
  destruct (negb _); [apply triple_throw | apply triple_ret]; reflexivity.
Qed.

Lemma read_only_ComputeKernelVector (x : Vector T) :
  read_only (ComputeKernelVector junk x).
Proof.
  intros w. unfold ComputeKernelVector.
  apply triple_bind, triple_get_this.
  destruct (negb _); [apply triple_throw; reflexivity|].
  apply triple_defined. destruct (for_loop _ _ _ _); [reflexivity | exact I].
Qed.

Lemma read_only_then {A B : Type} (m : Method T A) (k : A -> Method T B) :
  read_only m -> (forall a, read_only (k a)) -> read_only (bind m k).
Proof.
  intros Hm Hk w. apply triple_bind.
  eapply triple_consequence; [apply Hm | | | exact (fun u => u)].
  - intros a w' Hw'. cbv beta in Hw'. subst w'. apply Hk.
  - intros e w' Hw'. exact Hw'.
Qed.

Lemma read_only_defined {A : Type} (o : option A) : read_only (@defined T A o).
Proof. intros w. apply triple_defined. destruct o; [reflexivity | exact I]. Qed.

Lemma read_only_get_this : read_only (@get_this T).
Proof. intros w. apply triple_get_this. reflexivity. Qed.

Lemma read_only_ret {A : Type} (a : A) : read_only (@ret T A a).
Proof. intros w. apply triple_ret. reflexivity. Qed.

(** Training starts only on a model that is not trained and has a
    sample, and the solver is then run on that many samples. *)
Lemma Initialize_effect (w : World T) :
  triple w (Initialize junk)
    (fun _ w' => same_or_solved w w') (fun _ w' => same_or_solved w w') True.
Proof.
  unfold Initialize. apply triple_bind, triple_get_this.
  destruct (m_Initialized (this w)) eqn:Hi; [apply triple_ret; left; reflexivity|].
  destruct (m_SampleVectors (this w)) as [|x0 xs] eqn:Hx; cbn [length Nat.ltb Nat.leb negb].
  { apply triple_throw. left. reflexivity. }
  destruct (negb _); [apply triple_throw; left; reflexivity|].
  assert (Hs : forall w', solver_runs w' = S (length xs) :: solver_runs w ->
                same_or_solved w w').
  { intros w' Hr. right. rewrite Hx. simpl. repeat split; [assumption | lia | assumption]. }
  apply triple_bind. unfold ComputeRegressionVectors.
  apply triple_bind, triple_get_this. rewrite Hx. cbn [length].
  apply triple_bind, triple_note_solver_run.
  apply triple_bind, triple_defined.
  destruct (ComputeKernelMatrix junk (this w)); [|exact I].
  apply triple_bind, triple_defined.
  destruct (add_noise _ _); [|exact I].
  apply triple_bind. unfold ComputeLabelMatrix.
  apply triple_bind, triple_get_this. cbn [this].
  destruct (negb _); [apply triple_throw, Hs; reflexivity|].
  apply triple_bind, triple_defined.
  destruct (nth_error _ 0); [|exact I].
  apply triple_defined.
  destruct (for_loop _ _ _ _); [|exact I].
  apply triple_bind, triple_defined.
  destruct (inverse _); [|exact I].
  apply triple_bind, triple_defined.
  destruct (mat_mul _ _); [|exact I].
  apply triple_set_this, triple_set_this, Hs. reflexivity.
Qed.

Lemma Predict_effect (w : World T) (x : Vector T) :
  triple w (Predict junk x)
    (fun _ w' => same_or_solved w w') (fun _ w' => same_or_solved w w') True.
Proof.
  unfold Predict. apply triple_bind.
  eapply triple_consequence; [apply Initialize_effect | | | exact (fun u => u)];
    [|intros e w' Hw'; exact Hw'].
  intros u w1 Hw1. cbv beta in Hw1.
  eapply triple_consequence;
    [ apply (@read_only_then _ _
               (CheckInputDimension x "GaussianProcess::Predict: ")
               (fun _ => Kx <- ComputeKernelVector junk x ;;
                         gp <- get_this ;;
                         defined (vec_mat Kx (m_RegressionVectors gp))))
    | | | exact (fun u => u)].
  - apply read_only_CheckInputDimension.
  - intros _. apply read_only_then; [apply read_only_ComputeKernelVector|].
    intros Kx. apply read_only_then; [apply read_only_get_this|].
    intros gp. apply read_only_defined.
  - intros p w' Hw'. cbv beta in Hw'. subst w'. assumption.
  - intros e w' Hw'. cbv beta in Hw'. subst w'. assumption.
Qed.

Lemma PredictDerivative_effect (w : World T) (x : Vector T) :
  triple w (PredictDerivative junk x)
    (fun _ w' => same_or_solved w w') (fun _ w' => same_or_solved w w') True.
Proof.
  unfold PredictDerivative. apply triple_bind.
  eapply triple_consequence; [apply Initialize_effect | | | exact (fun u => u)];
    [|intros e w' Hw'; exact Hw'].
  intros u w1 Hw1. cbv beta in Hw1.
  match goal with
  | |- triple w1 (?m ;; ?k) _ _ _ =>
      eapply triple_consequence;
        [ apply (@read_only_then _ _ m (fun _ => k)) | | | exact (fun u => u)]
  end.
  - apply read_only_CheckInputDimension.
  - intros _. apply read_only_then; [apply read_only_ComputeKernelVector|].
    intros Kx. apply read_only_then; [apply read_only_get_this|].
    intros gp. apply read_only_then; [apply read_only_defined|].
    intros X. apply read_only_then; [apply read_only_defined|].
    intros D. apply read_only_then; [apply read_only_defined|].
    intros p. apply read_only_ret.
  - intros p w' Hw'. cbv beta in Hw'. subst w'. assumption.
  - intros e w' Hw'. cbv beta in Hw'. subst w'. assumption.
Qed.

Ltac triple_step :=
  first
    [ apply triple_bind
    | apply triple_get_this
    | apply triple_get_disk
    | apply triple_set_this
    | apply triple_set_disk
    | apply triple_ret
    | apply triple_throw ].

Ltac untrained :=
  unfold not_trained_by; cbn [this disk solver_runs]; simpl;
  split; [reflexivity | auto; try discriminate].

Lemma AddSample_effect (w : World T) (x y : Vector T) :
  triple w (AddSample x y)
    (fun _ w' => not_trained_by w w' /\ m_Initialized (this w') = false)
    (fun _ w' => not_trained_by w w') True.
Proof.
  unfold AddSample, CheckInputDimension, CheckOutputDimension.
  apply triple_bind, triple_get_this, triple_bind.
  destruct (length (m_SampleVectors (this w)) =? 0);
    [apply triple_set_this | apply triple_ret];
    (apply triple_bind;
     destruct (length (m_LabelVectors (this w)) =? 0);
       [apply triple_set_this | apply triple_ret]);
    cbn [this disk solver_runs];
    (apply triple_bind, triple_bind, triple_get_this;
     destruct (negb _); [apply triple_throw; untrained|]; apply triple_ret;
     apply triple_bind, triple_bind, triple_get_this;
     destruct (negb _); [apply triple_throw; untrained|]; apply triple_ret;
     apply triple_bind, triple_set_this, triple_bind, triple_set_this,
       triple_set_this;
     split; [untrained | reflexivity]).
Qed.

Lemma Save_effect (prefix : string) (w : World T) :
  triple w (Save prefix)
    (fun _ w' => this w' = this w /\ solver_runs w' = solver_runs w)
    (fun e w' => w' = w /\ e = SaveNotInitialized
                 /\ m_Initialized (this w) = false)
    True.
Proof.
  unfold Save, WriteMatrix. apply triple_bind, triple_get_this.
  destruct (m_Initialized (this w)) eqn:Hi; cbn [negb].
  2:{ apply triple_throw. repeat split; reflexivity. }
  apply triple_bind, triple_set_disk, triple_bind, triple_defined.
  destruct (vectors_as_columns (m_SampleVectors (this w))); [|exact I].
  apply triple_bind, triple_set_disk, triple_bind, triple_defined.
  destruct (vectors_as_columns (m_LabelVectors (this w))); [|exact I].
  apply triple_bind, triple_set_disk, triple_set_disk.
  split; reflexivity.
Qed.

Lemma Save_not_initialized (prefix : string) (w : World T) :
  m_Initialized (this w) = false ->
  Save prefix w = Throws SaveNotInitialized w.
Proof.
  intros Hi. unfold Save, bind, get_this, throw. rewrite Hi. reflexivity.
Qed.

Lemma Load_effect (prefix : string) (w : World T) :
  triple w (Load junk prefix)
    (fun _ w' => solver_runs w' = solver_runs w
                 /\ m_Initialized (this w') = true)
    (fun _ w' => not_trained_by w w') False.
Proof.
  eapply triple_consequence; [apply Load_triple | | | exact (fun u => u)].
  - intros u w' [gp' [Hl Hw']]. subst w'. cbn [this solver_runs].
    split; [reflexivity|].
    unfold loaded_model in Hl.
    repeat match type of Hl with
      | obind ?o _ = Some _ => destruct o; cbn [obind] in Hl; [|discriminate]
      end.
    destruct (lookup _ _) as [[|content]|]; try discriminate.
    repeat match type of Hl with
      | obind ?o _ = Some _ => destruct o; cbn [obind] in Hl; [|discriminate]
      end.
    injection Hl as <-. reflexivity.
  - intros e w' [_ Hk]. unfold kept_by_failed_Load in Hk.
    unfold not_trained_by. intuition congruence.
Qed.

(** The world in which a call leaves the caller satisfies what the
    triple of the call says of both outcomes. *)
Lemma triple_world_after {A : Type} (w w' : World T) (m : Method T A)
    (P : World T -> Prop) (U : Prop) :
  triple w m (fun _ w1 => P w1) (fun _ w1 => P w1) U ->
  world_after (m w) = Some w' -> P w'.
Proof.
  unfold triple, world_after. destruct (m w); intros Hp Hw;
    try discriminate; injection Hw as <-; assumption.
Qed.

Lemma triple_drop_value {A : Type} (w : World T) (m : Method T A)
    (P : World T -> Prop) (U : Prop) :
  triple w m (fun _ w1 => P w1) (fun _ w1 => P w1) U ->
  triple w (m ;; ret tt) (fun _ w1 => P w1) (fun _ w1 => P w1) U.
Proof.
  intros Hm. apply triple_bind.
  eapply triple_consequence; [exact Hm | | | exact (fun u => u)].
  - intros a w1 Hp. apply triple_ret. exact Hp.
  - intros e w1 Hp. exact Hp.
Qed.

(** What an operation that is not a load does to the record of solver
    runs and to the flag. *)
Lemma perform_effect (op : Operation) (w w' : World T) :
  (forall prefix, op <> OpLoad prefix) ->
  world_after (perform junk op w) = Some w' ->
  (trains op /\ same_or_solved w w') \/ not_trained_by w w'.
Proof.
  intros Hop Hw.
  destruct op as [x y|x|x| |k|sigma|m|s| |prefix|prefix]; cbn [perform] in Hw.
  - right. revert Hw. apply triple_world_after with (U := True).
    eapply triple_consequence; [apply AddSample_effect | | | exact (fun u => u)].
    + intros u w1 [Hn _]. exact Hn.
    + intros e w1 Hn. exact Hn.
  - left. split; [exact I|]. revert Hw. apply triple_world_after with (U := True).
    apply triple_drop_value with (P := same_or_solved w). apply Predict_effect.
  - left. split; [exact I|]. revert Hw. apply triple_world_after with (U := True).
    apply triple_drop_value with (P := same_or_solved w).
    apply PredictDerivative_effect.
  - left. split; [exact I|]. revert Hw. apply triple_world_after with (U := True).
    apply Initialize_effect.
  - right. injection Hw as <-. untrained.
  - right. injection Hw as <-. untrained.
  - right. injection Hw as <-. untrained.
  - right. injection Hw as <-. untrained.
  - right. injection Hw as <-. untrained.
  - right. revert Hw. apply triple_world_after with (U := True).
    eapply triple_consequence; [apply Save_effect | | | exact (fun u => u)].
    + intros u w1 [Ht Hr]. unfold not_trained_by. rewrite Ht, Hr. auto.
    + intros e w1 [Hw1 _]. subst w1. unfold not_trained_by. auto.
  - exfalso. apply (Hop prefix). reflexivity.
Qed.

(** The fresh model keeps the invariants of the data model. *)
Lemma consistent_construct (kernel : Kernel T) :
  consistent (construct s_zero kernel).
Proof.
  unfold consistent, construct. simpl.
  repeat split; try constructor; discriminate.
Qed.

Ltac not_a_load Hw He :=
  match type of Hw with
  | world_after (perform _ ?o _) = _ =>
      let Hop := fresh "Hop" in
      assert (Hop : forall prefix, o <> OpLoad prefix)
        by (let p := fresh "p" in intros p; discriminate);
      pose proof (@perform_effect o _ _ Hop Hw) as He
  end.

(** C6.  On a model that is not trained, keeps the invariants of the
    data model and has at least one sample, [Predict] and
    [PredictDerivative] on an input of the input dimension train the
    model and return; [Save] does not train: it throws and leaves the
    world as it is. *)
Theorem Predict_trains_and_Save_refuses_when_not_initialized
    (w : World T) (x : Vector T) (prefix : string) :
  consistent (this w) ->
  m_Initialized (this w) = false ->
  1 <= length (m_SampleVectors (this w)) ->
  length x = m_InputDimension (this w) ->
  let w' := mkWorld (trained (this w)) (disk w)
              (length (m_SampleVectors (this w)) :: solver_runs w) in
  (exists p, Predict junk x w = Returns p w')
  /\ (exists p D, PredictDerivative junk x w = Returns (p, D) w')
  /\ Save prefix w = Throws SaveNotInitialized w.
Proof.
  intros Hc Hi Hn Hx w'.
  assert (Hne : m_SampleVectors (this w) <> []).
  { intros E. rewrite E in Hn. simpl in Hn. lia. }
  assert (Hc' := Hc). destruct Hc' as [Hl [Hxs [Hys _]]].
  assert (Hw : Initialize junk w = Returns tt w')
    by (apply Initialize_returns; assumption).
  assert (Hi' : m_Initialized (this w') = true) by reflexivity.
  assert (Hr : rows (m_RegressionVectors (this w')) = length (m_SampleVectors (this w')))
    by reflexivity.
  assert (Hcl : cols (m_RegressionVectors (this w')) = m_OutputDimension (this w'))
    by reflexivity.
  split; [|split].
  - rewrite (Predict_after_Initialize junk w x Hw Hi').
    destruct (@Predict_ready _ _ _ junk w' x Hi' Hr Hx) as [p [_ Hp]].
    exists p. exact Hp.
  - rewrite (PredictDerivative_after_Initialize junk w x Hw Hi').
    destruct (@PredictDerivative_ready _ _ _ junk w' x Hi' Hr Hcl Hxs Hx)
      as [p [D [_ [Hp _]]]].
    exists p, D. exact Hp.
  - apply Save_not_initialized. assumption.
Qed.

(** C7.  [AddSample] when it returns, [SetKernel] and [SetSigma]
    clear the initialized flag; [SetEfficientStorage] stores its
    argument and leaves the flag as it is; and whenever an operation
    leaves the flag set on a model whose flag was clear, the operation
    is [Initialize], [Predict] or [PredictDerivative] and the solver
    has run on the samples of the model, or the operation is a [Load]
    that returned. *)
Theorem initialized_flag_cleared_by_mutation_set_by_training_or_Load :
  (forall (w w' : World T) x y,
      AddSample x y w = Returns tt w' -> m_Initialized (this w') = false)
  /\ (forall (w : World T) k, exists w',
         SetKernel k w = Returns tt w' /\ m_Initialized (this w') = false)
  /\ (forall (w : World T) sigma, exists w',
         SetSigma sigma w = Returns tt w' /\ m_Initialized (this w') = false)
  /\ (forall (w : World T) s, exists w',
         SetEfficientStorage s w = Returns tt w'
         /\ m_EfficientStorage (this w') = s
         /\ m_Initialized (this w') = m_Initialized (this w))
  /\ (forall (op : Operation) (w w' : World T),
         m_Initialized (this w) = false ->
         world_after (perform junk op w) = Some w' ->
         m_Initialized (this w') = true ->
         (trains op
          /\ 1 <= length (m_SampleVectors (this w))
          /\ solver_runs w' = length (m_SampleVectors (this w)) :: solver_runs w)
         \/ (exists prefix, op = OpLoad prefix
              /\ perform junk op w = Returns tt w')).
Proof.
  split; [|split; [|split; [|split]]].
  - intros w w' x y Hr. apply AddSample_returns in Hr. tauto.
  - intros w k. eexists. split; reflexivity.
  - intros w sigma. eexists. split; reflexivity.
  - intros w s. eexists. repeat split; reflexivity.
  - intros op w w' Hi Hw Hi'.
    destruct op as [x y|x|x| |k|sigma|m|s| |prefix|prefix];
      try (not_a_load Hw He; destruct He as [[Ht [Hs|Hs]]|[_ Hs]];
           [ subst w'; congruence
           | left; split; [exact Ht | tauto]
           | apply Hs in Hi'; congruence ]).
    right. exists prefix. split; [reflexivity|].
    cbn [perform] in *.
    pose proof (Load_effect prefix w) as Hl. unfold triple in Hl.
    destruct (Load junk prefix w) as [[] w1|e w1|]; [| |contradiction].
    + injection Hw as <-. reflexivity.
    + injection Hw as <-. destruct Hl as [_ Hl]. apply Hl in Hi'. congruence.
Qed.

(** Whatever the operation and the world, when the solver has run it
    has run once, on the samples of the model, of which there is at
    least one. *)
Lemma solver_runs_on_samples (op : Operation) (w0 w' : World T) :
  world_after (perform junk op w0) = Some w' ->
  solver_runs w' = solver_runs w0
  \/ (1 <= length (m_SampleVectors (this w0))
      /\ solver_runs w'
         = length (m_SampleVectors (this w0)) :: solver_runs w0).
Proof.
  intros Hw.
  destruct op as [x' y'|x'|x'| |k|sigma|m|s| |prefix'|prefix'];
    try (not_a_load Hw He; destruct He as [[_ [Hs|Hs]]|[Hs _]];
         [ subst w'; left; reflexivity
         | right; tauto
         | left; exact Hs ]).
  left. cbn [perform] in Hw.
  pose proof (Load_effect prefix' w0) as Hl. unfold triple in Hl.
  destruct (Load junk prefix' w0) as [[] w1|e w1|]; [| |contradiction];
    injection Hw as <-; [tauto | apply Hl].
Qed.

End Lifecycle.

(* ------------------------------------------------------------------ *)
(** * Comparison *)

Section Comparison.
Context {T : Type} `{ScalarLaws T} `{KernelLibrary T}.

Lemma squaredNorm_null (l : list T) :
  Forall s_null l -> s_null (squaredNorm l).
Proof.
  induction 1 as [|a l Ha Hl IH]; simpl.
  - apply s_null_zero.
  - apply s_null_add; [apply s_null_mul; assumption | assumption].
Qed.

Lemma vsub_self (v : Vector T) :
  exists d, vsub v v = Some d /\ Forall s_null d.
Proof.
  unfold vsub. rewrite Nat.eqb_refl. eexists. split; [reflexivity|].
  induction v as [|a v IH]; simpl; constructor.
  - apply s_null_sub.
  - assumption.
Qed.

Lemma some_vector_differs_self (vs : list (Vector T)) (count start : nat) :
  start + count <= length vs ->
  some_vector_differs start count vs vs = Some false.
Proof.
  revert start. induction count as [|count IH]; intros start Hl; simpl.
  - reflexivity.
  - destruct (nth_error vs start) as [v|] eqn:Hv.
    + simpl. destruct (vsub_self v) as [d [Hd Hn]]. rewrite Hd. simpl.
      unfold vnorm.
      rewrite (s_null_pos _ (s_null_sqrt _ (squaredNorm_null Hn))).
      apply IH. lia.
    + apply nth_error_None in Hv. lia.
Qed.

Lemma msub_self (M : Matrix T) :
  exists D, msub M M = Some D /\ s_pos (mnorm D) = false.
Proof.
  unfold msub. rewrite !Nat.eqb_refl. eexists. split; [reflexivity|].
  unfold mnorm. apply s_null_pos, s_null_sqrt, squaredNorm_null.
  rewrite rows_tabulate.
  apply Forall_concat. apply Forall_map. apply Forall_forall.
  intros i Hi. apply in_seq in Hi.
  rewrite row_tabulate by lia.
  apply Forall_map. apply Forall_forall. intros j _. apply s_null_sub.
Qed.

(** Two models whose compared members agree compare equal. *)
Lemma equal_when_members_agree (a b : GaussianProcess T) :
  m_RegressionVectors a = m_RegressionVectors b ->
  m_SampleVectors a = m_SampleVectors b ->
  m_LabelVectors a = m_LabelVectors b ->
  Kernel_neq (m_Kernel a) (m_Kernel b) = false ->
  s_neq (m_Sigma a) (m_Sigma b) = false ->
  m_Initialized a = m_Initialized b ->
  m_InputDimension a = m_InputDimension b ->
  m_OutputDimension a = m_OutputDimension b ->
  debug a = debug b ->
  equal a b = Some true.
Proof.
  intros HR Hx Hy Hk Hs Hi Hdi Hdo Hd. unfold equal.
  rewrite <- HR, <- Hx, <- Hy, <- Hi, <- Hdi, <- Hdo, <- Hd, Hk, Hs.
  destruct (msub_self (m_RegressionVectors a)) as [D [HD Hp]].
  rewrite HD. simpl. rewrite Hp.
  rewrite !Nat.eqb_refl. simpl.
  rewrite !some_vector_differs_self by (simpl; lia). simpl.
  rewrite !Bool.eqb_reflx. reflexivity.
Qed.

(** The comparison does not read the inversion method, the
    efficient-storage flag or the core matrix of either model. *)
Lemma equal_unread_members (a b : GaussianProcess T)
    (m1 m2 : InversionMethod) (s1 s2 : bool) (C1 C2 : Matrix T) :
  equal (with_CoreMatrix C1 (with_EfficientStorage s1 (with_InvMethod m1 a)))
        (with_CoreMatrix C2 (with_EfficientStorage s2 (with_InvMethod m2 b)))
  = equal a b.
Proof. reflexivity. Qed.

(** C10.  Two models that agree on regression coefficients, samples,
    labels, kernel, sigma, initialized flag, both dimensions and debug
    flag compare equal, whatever their inversion methods,
    efficient-storage flags and core matrices; and the result of a
    comparison does not change when these three members change, the core
    matrix among them. *)
Theorem equal_ignores_inversion_method_storage_flag_and_core_matrix
    (a b : GaussianProcess T) :
  m_RegressionVectors a = m_RegressionVectors b ->
  m_SampleVectors a = m_SampleVectors b ->
  m_LabelVectors a = m_LabelVectors b ->
  Kernel_neq (m_Kernel a) (m_Kernel b) = false ->
  s_neq (m_Sigma a) (m_Sigma b) = false ->
  m_Initialized a = m_Initialized b ->
  m_InputDimension a = m_InputDimension b ->
  m_OutputDimension a = m_OutputDimension b ->
  debug a = debug b ->
  equal a b = Some true
  /\ (forall m1 m2 s1 s2 C1 C2,
        equal (with_CoreMatrix C1 (with_EfficientStorage s1 (with_InvMethod m1 a)))
              (with_CoreMatrix C2 (with_EfficientStorage s2 (with_InvMethod m2 b)))
        = Some true)
  /\ (forall (a' b' : GaussianProcess T) C1 C2,
        equal (with_CoreMatrix C1 a') (with_CoreMatrix C2 b') = equal a' b').
Proof.
  intros HR Hx Hy Hk Hs Hi Hdi Hdo Hd.
  split; [apply equal_when_members_agree; assumption|].
  split; [|reflexivity].
  intros m1 m2 s1 s2 C1 C2. rewrite equal_unread_members.
  apply equal_when_members_agree; assumption.
Qed.

End Comparison.

(* ------------------------------------------------------------------ *)
(** * The inversion method *)

Section InversionMethodSelector.
Context {T : Type} `{Scalar T} `{EigenInverse T}.
Variable junk : nat -> nat -> T.

Lemma oblivious_ret {A : Type} (a : A) : oblivious (@ret T A a).
Proof. intros m w. reflexivity. Qed.

Lemma oblivious_throw {A : Type} (e : Exception) : oblivious (@throw T A e).
Proof. intros m w. reflexivity. Qed.

Lemma oblivious_defined {A : Type} (o : option A) : oblivious (@defined T A o).
Proof. intros m w. unfold defined. destruct o; reflexivity. Qed.

Lemma oblivious_note_solver_run (n : nat) : oblivious (@note_solver_run T n).
Proof. intros m w. reflexivity. Qed.

Lemma oblivious_set_this (f : GaussianProcess T -> GaussianProcess T) :
  (forall m gp, f (with_InvMethod m gp) = with_InvMethod m (f gp)) ->
  oblivious (set_this f).
Proof.
  intros Hf m w. unfold set_this, select_method, with_world. simpl.
  rewrite Hf. reflexivity.
Qed.

Lemma oblivious_bind {A B : Type} (c : Method T A) (k : A -> Method T B) :
  oblivious c -> (forall a, oblivious (k a)) -> oblivious (bind c k).
Proof.
  intros Hc Hk m w. unfold bind. rewrite Hc.
  destruct (c w) as [a w1|e w1|]; simpl; [apply Hk | reflexivity | reflexivity].
Qed.

(** A method that reads the model, but nothing that depends on the
    inversion method. *)
Lemma oblivious_get_this {B : Type} (k : GaussianProcess T -> Method T B) :
  (forall m gp, k (with_InvMethod m gp) = k gp) ->
  (forall gp, oblivious (k gp)) ->
  oblivious (bind get_this k).
Proof.
  intros Hk Ho m w. unfold bind, get_this. simpl.
  rewrite Hk. apply Ho.
Qed.

Lemma oblivious_ComputeLabelMatrix : oblivious (ComputeLabelMatrix junk).
Proof.
  unfold ComputeLabelMatrix. apply oblivious_get_this.
  - intros m gp. reflexivity.
  - intros gp. destruct (negb _); [apply oblivious_throw|].
    apply oblivious_bind; [apply oblivious_defined|].
    intros y0. apply oblivious_defined.
Qed.

Lemma oblivious_ComputeRegressionVectors :
  oblivious (ComputeRegressionVectors junk).
Proof.
  unfold ComputeRegressionVectors. apply oblivious_get_this.
  - intros m gp. reflexivity.
  - intros gp.
    apply oblivious_bind; [apply oblivious_note_solver_run|]. intros _.
    apply oblivious_bind; [apply oblivious_defined|]. intros K.
    apply oblivious_bind; [apply oblivious_defined|]. intros K'.
    apply oblivious_bind; [apply oblivious_ComputeLabelMatrix|]. intros Y.
    apply oblivious_bind; [apply oblivious_defined|]. intros Kinv.
    apply oblivious_bind; [apply oblivious_defined|]. intros R.
    apply oblivious_set_this. intros m gp'. reflexivity.
Qed.

Lemma oblivious_Initialize : oblivious (Initialize junk).
Proof.
  unfold Initialize. apply oblivious_get_this.
  - intros m gp. reflexivity.
  - intros gp. destruct (m_Initialized gp); [apply oblivious_ret|].
    destruct (negb _); [apply oblivious_throw|].
    destruct (negb _); [apply oblivious_throw|].
    apply oblivious_bind; [apply oblivious_ComputeRegressionVectors|]. intros _.
    apply oblivious_set_this. intros m gp'. reflexivity.
Qed.

(** C3.  Training does not read the inversion method: [Initialize]
    after [SetInversionMethod(m)] does what [Initialize] does without
    it, whatever [m] is, and stores the coefficients that the one
    inverse [K.inverse()] gives; the selected method is kept in the
    model and nothing else. *)
Theorem Initialize_does_not_read_the_inversion_method
    (w : World T) (m : InversionMethod) :
  (SetInversionMethod m ;; Initialize junk) w
  = with_world (select_method m) (Initialize junk w).
Proof.
  unfold bind at 1. unfold SetInversionMethod, set_this.
  apply oblivious_Initialize.
Qed.

End InversionMethodSelector.

(* ------------------------------------------------------------------ *)
(** * A load that fails *)

Section FailedLoad.
Context {T : Type} `{Scalar T} `{KernelLibrary T} `{EigenInverse T}
        `{MatrixIO T} `{StreamFormat} `{FileOpening}.
Variable junk : nat -> nat -> T.












End FailedLoad.

(* ------------------------------------------------------------------ *)
(** * Training happens once *)

Section TrainingOnce.
Context {T : Type} `{Scalar T} `{KernelLibrary T} `{EigenInverse T}
        `{MatrixIO T} `{StreamFormat} `{FileOpening}.
Variable junk : nat -> nat -> T.

(** What [Initialize] leaves: the flag set, and the world as it was or
    with new coefficients and one more solver run; it throws only for
    want of samples or labels, before it has changed anything. *)
Lemma Initialize_outcome (w : World T) :
  triple w (Initialize junk)
    (fun _ w' =>
       m_Initialized (this w') = true
       /\ (w' = w
           \/ (m_Initialized (this w) = false
               /\ exists R,
                    w' = mkWorld
                           (with_Initialized true (with_RegressionVectors R (this w)))
                           (disk w)
                           (length (m_SampleVectors (this w)) :: solver_runs w))))
    (fun e w' =>
       w' = w /\ m_Initialized (this w) = false
       /\ ((e = NoInputSamples /\ m_SampleVectors (this w) = [])
           \/ (e = NoOutputLabels /\ m_LabelVectors (this w) = [])))
    True.
Proof.
  unfold Initialize. apply triple_bind, triple_get_this.
  destruct (m_Initialized (this w)) eqn:Hi.
  { apply triple_ret. split; [assumption | left; reflexivity]. }
  destruct (m_SampleVectors (this w)) as [|x0 xs] eqn:Hx;
    cbn [length Nat.ltb Nat.leb negb].
  { apply triple_throw. repeat split. left. split; reflexivity. }
  destruct (m_LabelVectors (this w)) as [|y0 ys] eqn:Hy;
    cbn [length Nat.ltb Nat.leb negb].
  { apply triple_throw. repeat split. right. split; reflexivity. }
  apply triple_bind. unfold ComputeRegressionVectors.
  apply triple_bind, triple_get_this. rewrite Hx. cbn [length].
  apply triple_bind, triple_note_solver_run.
  apply triple_bind, triple_defined.
  destruct (ComputeKernelMatrix junk (this w)); [|exact I].
  apply triple_bind, triple_defined.
  destruct (add_noise _ _); [|exact I].
  apply triple_bind. unfold ComputeLabelMatrix.
  apply triple_bind, triple_get_this. cbn [this]. rewrite Hy.
  cbn [length Nat.ltb Nat.leb negb].
  apply triple_bind, triple_defined. cbn [nth_error].
  apply triple_defined.
  destruct (for_loop _ _ _ _); [|exact I].
  apply triple_bind, triple_defined.
  destruct (inverse _); [|exact I].
  apply triple_bind, triple_defined.
  destruct (mat_mul _ _) as [R|]; [|exact I].
  apply triple_set_this, triple_set_this. cbn [this disk solver_runs].
  split; [reflexivity|]. right. split; [reflexivity|].
  exists R. reflexivity.
Qed.

Lemma Initialize_returns_ready (w w' : World T) :
  Initialize junk w = Returns tt w' -> m_Initialized (this w') = true.
Proof.
  intros Hr. pose proof (Initialize_outcome w) as Ht.
  unfold triple in Ht. rewrite Hr in Ht. tauto.
Qed.

(** After the flag is set, the rest of a prediction reads and does
    not write. *)
Lemma Predict_outcome (w : World T) (x : Vector T) :
  triple w (Predict junk x)
    (fun _ w' => Initialize junk w = Returns tt w'
                 /\ length x = m_InputDimension (this w'))
    (fun e w' =>
       Initialize junk w = Throws e w'
       \/ (Initialize junk w = Returns tt w'
           /\ length x <> m_InputDimension (this w')
           /\ e = InputDimensionMismatch "GaussianProcess::Predict: "
                    (length x) (m_InputDimension (this w'))))
    True.
Proof.
  unfold triple, Predict, bind.
  destruct (Initialize junk w) as [[] w1|e w1|] eqn:Hw; [| left; reflexivity | exact I].
  pose proof (Initialize_returns_ready w Hw) as Hi.
  unfold CheckInputDimension, ComputeKernelVector, bind, get_this, throw, ret, defined.
  destruct (Nat.eqb_spec (length x) (m_InputDimension (this w1))) as [Hx|Hx];
    cbn [negb].
  - rewrite Hi. cbn [negb].
    destruct (for_loop _ _ _ _); [|exact I].
    destruct (vec_mat _ _); [|exact I].
    split; [reflexivity | assumption].
  - right. repeat split. assumption.
Qed.

Lemma PredictDerivative_outcome (w : World T) (x : Vector T) :
  triple w (PredictDerivative junk x)
    (fun _ w' => Initialize junk w = Returns tt w'
                 /\ length x = m_InputDimension (this w'))
    (fun e w' =>
       Initialize junk w = Throws e w'
       \/ (Initialize junk w = Returns tt w'
           /\ length x <> m_InputDimension (this w')
           /\ e = InputDimensionMismatch "GaussianProcess::PredictDerivative: "
                    (length x) (m_InputDimension (this w'))))
    True.
Proof.
  unfold triple, PredictDerivative, bind.
  destruct (Initialize junk w) as [[] w1|e w1|] eqn:Hw; [| left; reflexivity | exact I].
  pose proof (Initialize_returns_ready w Hw) as Hi.
  unfold CheckInputDimension, ComputeKernelVector, bind, get_this, throw, ret, defined.
  destruct (Nat.eqb_spec (length x) (m_InputDimension (this w1))) as [Hx|Hx];
    cbn [negb].
  - rewrite Hi. cbn [negb].
    destruct (for_loop _ _ _ _); [|exact I].
    destruct (ComputeDifferenceMatrix _ _ _); [|exact I].
    destruct (for_loop _ _ _ _); [|exact I].
    destruct (vec_mat _ _); [|exact I].
    split; [reflexivity | assumption].
  - right. repeat split. assumption.
Qed.

(** X1.  A second [Initialize] right after a first does nothing more:
    whatever the world, two calls in a row leave what one call leaves,
    so the solver is not run again and the coefficients are not
    recomputed. *)
Theorem Initialize_twice_is_Initialize_once (w : World T) :
  (Initialize junk ;; Initialize junk) w = Initialize junk w.
Proof.
  unfold bind at 1.
  destruct (Initialize junk w) as [[] w1|e w1|] eqn:Hw; try reflexivity.
  apply Initialize_ready. apply (Initialize_returns_ready w Hw).
Qed.

(** X2.  A load that returns has set the flag, so the [Initialize] that
    follows it, alone or at the head of a prediction, does not train:
    the coefficients that the file held are the ones that are used. *)
Theorem Load_then_Initialize_does_not_train (prefix : string) (w : World T) :
  (Load junk prefix ;; Initialize junk) w = Load junk prefix w.
Proof.
  unfold bind at 1.
  pose proof (Load_effect junk prefix w) as Hl. unfold triple in Hl.
  destruct (Load junk prefix w) as [[] w1|e w1|]; try reflexivity.
  apply Initialize_ready. tauto.
Qed.

(** X3.  [Initialize] throws only for want of samples or of labels, and
    then nothing has changed; [Predict] and [PredictDerivative] throw
    only these two failures and the mismatch of the dimension of their
    argument: the failures of [ComputeKernelVector] on a model that is
    not initialized and of [ComputeLabelMatrix] on a model without
    labels are never seen by a caller. *)
Theorem prediction_throws_only_for_no_data_or_wrong_dimension
    (w w' : World T) (x : Vector T) (e : Exception) :
  (Initialize junk w = Throws e w' ->
     w' = w /\ (e = NoInputSamples \/ e = NoOutputLabels))
  /\ (Predict junk x w = Throws e w' ->
        e = NoInputSamples \/ e = NoOutputLabels
        \/ e = InputDimensionMismatch "GaussianProcess::Predict: "
                 (length x) (m_InputDimension (this w)))
  /\ (PredictDerivative junk x w = Throws e w' ->
        e = NoInputSamples \/ e = NoOutputLabels
        \/ e = InputDimensionMismatch "GaussianProcess::PredictDerivative: "
                 (length x) (m_InputDimension (this w))).
Proof.
  assert (Hi : forall e0 w0, Initialize junk w = Throws e0 w0 ->
            w0 = w /\ (e0 = NoInputSamples \/ e0 = NoOutputLabels)).
  { intros e0 w0 Hr. pose proof (Initialize_outcome w) as Ht.
    unfold triple in Ht. rewrite Hr in Ht. tauto. }
  assert (Hd : forall w1, Initialize junk w = Returns tt w1 ->
            m_InputDimension (this w1) = m_InputDimension (this w)).
  { intros w1 Hr. pose proof (Initialize_outcome w) as Ht.
    unfold triple in Ht. rewrite Hr in Ht.
    destruct Ht as [_ [->|[_ [R ->]]]]; reflexivity. }
  split; [apply Hi|]. split.
  - intros Hr. pose proof (Predict_outcome w x) as Ht.
    unfold triple in Ht. rewrite Hr in Ht.
    destruct Ht as [Ht|[Ht [_ ->]]].
    + apply Hi in Ht. tauto.
    + rewrite (Hd _ Ht). tauto.
  - intros Hr. pose proof (PredictDerivative_outcome w x) as Ht.
    unfold triple in Ht. rewrite Hr in Ht.
    destruct Ht as [Ht|[Ht [_ ->]]].
    + apply Hi in Ht. tauto.
    + rewrite (Hd _ Ht). tauto.
Qed.

(** X4.  The dimension of the argument is checked after training: on a
    model that is not trained and has samples, a prediction at an input
    of another dimension throws the mismatch, and the model has been
    trained all the same, the solver run on its samples. *)
Theorem prediction_of_wrong_dimension_has_trained
    (w : World T) (x : Vector T) :
  consistent (this w) ->
  m_Initialized (this w) = false ->
  1 <= length (m_SampleVectors (this w)) ->
  length x <> m_InputDimension (this w) ->
  let w' := mkWorld (trained (this w)) (disk w)
              (length (m_SampleVectors (this w)) :: solver_runs w) in
  Predict junk x w
  = Throws (InputDimensionMismatch "GaussianProcess::Predict: "
              (length x) (m_InputDimension (this w))) w'
  /\ PredictDerivative junk x w
     = Throws (InputDimensionMismatch "GaussianProcess::PredictDerivative: "
                 (length x) (m_InputDimension (this w))) w'.
Proof.
  intros Hc Hi Hn Hx w'.
  assert (Hne : m_SampleVectors (this w) <> []).
  { intros E. rewrite E in Hn. simpl in Hn. lia. }
  destruct Hc as [Hl [Hxs [Hys _]]].
  assert (Hw : Initialize junk w = Returns tt w')
    by (apply Initialize_returns; assumption).
  apply Nat.eqb_neq in Hx.
  split.
  - unfold Predict, bind. rewrite Hw.
    unfold CheckInputDimension, bind, get_this, throw.
    cbn [this w' trained with_Initialized with_RegressionVectors m_InputDimension].
    rewrite Hx. reflexivity.
  - unfold PredictDerivative, bind. rewrite Hw.
    unfold CheckInputDimension, bind, get_this, throw.
    cbn [this w' trained with_Initialized with_RegressionVectors m_InputDimension].
    rewrite Hx. reflexivity.
Qed.

(** X5.  Once a prediction has returned, the model is trained, and every
    further prediction, whatever its argument and whether it returns or
    throws, leaves the world as it is: the solver runs once for any
    number of predictions. *)
Theorem prediction_after_prediction_changes_nothing
    (w w' : World T) (x : Vector T) (p : Vector T) :
  Predict junk x w = Returns p w' ->
  forall (x' : Vector T) (w'' : World T),
    (world_after (Predict junk x' w') = Some w'' -> w'' = w')
    /\ (world_after (PredictDerivative junk x' w') = Some w'' -> w'' = w').
Proof.
  intros Hr x' w''.
  pose proof (Predict_outcome w x) as Ht. unfold triple in Ht.
  rewrite Hr in Ht. destruct Ht as [Hw _].
  pose proof (Initialize_returns_ready w Hw) as Hi.
  pose proof (Initialize_ready junk w' Hi) as Hw'.
  split; intros Ha.
  - pose proof (Predict_outcome w' x') as Ht. unfold triple in Ht.
    destruct (Predict junk x' w') as [q w2|e w2|]; simpl in Ha;
      try discriminate; injection Ha as <-.
    + destruct Ht as [Ht _]. congruence.
    + destruct Ht as [Ht|[Ht _]]; congruence.
  - pose proof (PredictDerivative_outcome w' x') as Ht. unfold triple in Ht.
    destruct (PredictDerivative junk x' w') as [q w2|e w2|]; simpl in Ha;
      try discriminate; injection Ha as <-.
    + destruct Ht as [Ht _]. congruence.
    + destruct Ht as [Ht|[Ht _]]; congruence.
Qed.

End TrainingOnce.

(* ------------------------------------------------------------------ *)
(** * Vectors as the columns of a matrix *)

Section StorageLayout.
Context {T : Type} `{Scalar T}.

Lemma map_nth_seq {A : Type} (l : list A) (d : A) :
  map (fun j => nth j l d) (seq 0 (length l)) = l.
Proof.
  apply nth_ext with (d := d) (d' := d).
  - rewrite length_map, length_seq. reflexivity.
  - intros n Hn. rewrite length_map, length_seq in Hn.
    rewrite (nth_map_seq (fun j => nth j l d)) by assumption. reflexivity.
Qed.

(** The matrix that [Save] builds of a sequence of vectors of one
    size. *)
Lemma vectors_as_columns_tabulate (vs : list (Vector T)) (d : nat) :
  vs <> [] ->
  Forall (fun v => length v = d) vs ->
  vectors_as_columns vs
  = Some (tabulate d (length vs) (fun i j => vcoeff (nth j vs []) i)).
Proof.
  intros Hne Hd. unfold vectors_as_columns.
  destruct vs as [|v0 vs'] eqn:E; [congruence|].
  cbn [nth_error obind]. rewrite <- E in *.
  assert (H0 : length v0 = d).
  { rewrite E in Hd. inversion Hd. assumption. }
  rewrite H0. set (n := length vs).
  pose (P := fun (a : nat) (M : Matrix T) =>
    M = tabulate d n (fun i j =>
          if j <? a then vcoeff (nth j vs []) i else s_zero)).
  destruct (@for_loop_invariant _ P n 0
      (fun i X => let? vi := nth_error vs i in set_col X i vi)
      (Zero d n)) as [M [HM HP]].
  - unfold P, Zero. apply tabulate_ext. intros; reflexivity.
  - intros a M Ha HPa. unfold P in HPa. subst M.
    rewrite (nth_error_nth' vs []) by (fold n; lia). cbn [obind].
    rewrite set_col_tabulate.
    + eexists. split; [reflexivity|].
      unfold P. apply tabulate_ext. intros i j Hi Hj.
      destruct (Nat.eqb_spec j a).
      * subst j. destruct (Nat.ltb_spec a (S a)); [reflexivity | lia].
      * destruct (Nat.ltb_spec j a); destruct (Nat.ltb_spec j (S a));
          try reflexivity; lia.
    + lia.
    + rewrite Forall_forall in Hd. apply Hd. apply nth_In. fold n. lia.
  - unfold P in HP. simpl in HP. subst M. rewrite HM. f_equal.
    apply tabulate_ext. intros i j Hi Hj.
    destruct (Nat.ltb_spec j n); [reflexivity | lia].
Qed.

Lemma columns_vectors (vs : list (Vector T)) (d : nat) :
  Forall (fun v => length v = d) vs ->
  columns (tabulate d (length vs) (fun i j => vcoeff (nth j vs []) i)) = vs.
Proof.
  intros Hd. unfold columns. rewrite cols_tabulate.
  rewrite <- (map_nth_seq vs []) at 3.
  apply map_seq_ext. intros j Hj.
  rewrite column_tabulate by lia.
  assert (Hl : length (nth j vs []) = d).
  { rewrite Forall_forall in Hd. apply Hd. apply nth_In. lia. }
  rewrite <- Hl. apply vector_tabulate.
Qed.

(** X6.  What [Load] does with the matrix of the samples, and with that of
    the labels, undoes what [Save] did: the vectors of one size that
    [Save] lays down as the columns of a matrix, of as many rows as the
    vectors are long, are the columns that [Load] takes from it, in
    order. *)
Theorem columns_of_vectors_as_columns (vs : list (Vector T)) (d : nat) :
  vs <> [] ->
  Forall (fun v => length v = d) vs ->
  exists X,
    vectors_as_columns vs = Some X
    /\ rows X = d
    /\ cols X = length vs
    /\ map (column X) (seq 0 (cols X)) = vs.
Proof.
  intros Hne Hd. eexists.
  split; [apply vectors_as_columns_tabulate; eassumption|].
  split; [apply rows_tabulate|]. split; [apply cols_tabulate|].
  apply (columns_vectors Hd).
Qed.

(** Vectors that are not of one size cannot be laid down: the
    assignment of a column of another length than the first is an
    assertion of Eigen. *)
Lemma vectors_as_columns_mismatch (v0 v1 : Vector T) (vs : list (Vector T)) :
  length v1 <> length v0 ->
  vectors_as_columns (v0 :: v1 :: vs) = None.
Proof.
  intros Hl. unfold vectors_as_columns. cbn [nth_error obind length for_loop].
  unfold Zero. rewrite set_col_tabulate by (simpl; lia). cbn [obind].
  unfold set_col. rewrite rows_tabulate, cols_tabulate.
  apply Nat.eqb_neq in Hl. rewrite Hl, andb_false_r. reflexivity.
Qed.

End StorageLayout.

(* ------------------------------------------------------------------ *)
(** * The order of the checks of a sample *)

Section SampleChecks.
Context {T : Type} `{Scalar T}.

(** [AddSample] on a model that holds samples and labels. *)
Lemma AddSample_later (w : World T) (x y : Vector T) :
  m_SampleVectors (this w) <> [] ->
  m_LabelVectors (this w) <> [] ->
  AddSample x y w
  = if negb (length x =? m_InputDimension (this w))
    then Throws (InputDimensionMismatch "GaussianProcess::AddSample: "
                   (length x) (m_InputDimension (this w))) w
    else if negb (length y =? m_OutputDimension (this w))
    then Throws (OutputDimensionMismatch "GaussianProcess::AddSample: "
                   (length y) (m_OutputDimension (this w))) w
    else Returns tt
           (mkWorld
              (with_Initialized false
                 (with_LabelVectors (m_LabelVectors (this w) ++ [y])
                    (with_SampleVectors (m_SampleVectors (this w) ++ [x])
                       (this w))))
              (disk w) (solver_runs w)).
Proof.
  intros Hx Hy. unfold AddSample, CheckInputDimension, CheckOutputDimension,
    bind, get_this, set_this, throw, ret.
  rewrite (length_nonzero Hx), (length_nonzero Hy).
  destruct (length x =? m_InputDimension (this w)); cbn [negb]; [|reflexivity].
  destruct (length y =? m_OutputDimension (this w)); cbn [negb]; reflexivity.
Qed.

(** X7.  Once samples are stored, [AddSample] checks the input before the
    output: a pair whose input has another size than the input
    dimension is rejected with the failure of the input, whatever its
    output; a pair whose input fits and whose output does not is
    rejected with the failure of the output; each failure names
    [AddSample], the size given and the size expected, and leaves the
    world as it is; a pair that fits is appended. *)
Theorem AddSample_checks_the_input_before_the_output
    (w : World T) (x y : Vector T) :
  m_SampleVectors (this w) <> [] ->
  m_LabelVectors (this w) <> [] ->
  (length x <> m_InputDimension (this w) ->
     AddSample x y w
     = Throws (InputDimensionMismatch "GaussianProcess::AddSample: "
                 (length x) (m_InputDimension (this w))) w)
  /\ (length x = m_InputDimension (this w) ->
      length y <> m_OutputDimension (this w) ->
      AddSample x y w
      = Throws (OutputDimensionMismatch "GaussianProcess::AddSample: "
                  (length y) (m_OutputDimension (this w))) w)
  /\ (length x = m_InputDimension (this w) ->
      length y = m_OutputDimension (this w) ->
      AddSample x y w
      = Returns tt
          (mkWorld
             (with_Initialized false
                (with_LabelVectors (m_LabelVectors (this w) ++ [y])
                   (with_SampleVectors (m_SampleVectors (this w) ++ [x])
                      (this w))))
             (disk w) (solver_runs w))).
Proof.
  intros Hx Hy. rewrite (AddSample_later w x y) by assumption.
  split; [|split].
  - intros Hd. apply Nat.eqb_neq in Hd. rewrite Hd. reflexivity.
  - intros Hd He. apply Nat.eqb_eq in Hd. apply Nat.eqb_neq in He.
    rewrite Hd, He. reflexivity.
  - intros Hd He. apply Nat.eqb_eq in Hd, He. rewrite Hd, He. reflexivity.
Qed.

End SampleChecks.

(* ------------------------------------------------------------------ *)
(** * The invariants of the data model *)

Section Invariants.
Context {T : Type} `{Scalar T} `{KernelLibrary T} `{EigenInverse T}
        `{MatrixIO T} `{StreamFormat} `{FileOpening}.
Variable junk : nat -> nat -> T.

Lemma consistent_stores (gp : GaussianProcess T) :
  consistent gp ->
  (m_SampleVectors gp = [] /\ m_LabelVectors gp = [] /\ m_Initialized gp = false)
  \/ (m_SampleVectors gp <> [] /\ m_LabelVectors gp <> []).
Proof.
  intros [Hl [_ [_ Ht]]].
  destruct (m_SampleVectors gp) as [|x xs] eqn:Hx.
  - left. split; [reflexivity|].
    split; [destruct (m_LabelVectors gp); [reflexivity | discriminate]|].
    destruct (m_Initialized gp); [|reflexivity].
    destruct (Ht eq_refl) as [Hne _]. congruence.
  - right. split; [discriminate|].
    destruct (m_LabelVectors gp); [discriminate | discriminate].
Qed.

(** The world that a prediction leaves is the world that its
    [Initialize] leaves. *)
Lemma Predict_world (w w' : World T) (x : Vector T) :
  world_after (Predict junk x w) = Some w' ->
  world_after (Initialize junk w) = Some w'.
Proof.
  pose proof (Predict_outcome junk w x) as Ht. unfold triple in Ht.
  destruct (Predict junk x w) as [p w1|e w1|]; simpl; try discriminate;
    intros Hw; injection Hw as <-.
  - destruct Ht as [-> _]. reflexivity.
  - destruct Ht as [->|[-> _]]; reflexivity.
Qed.

Lemma PredictDerivative_world (w w' : World T) (x : Vector T) :
  world_after (PredictDerivative junk x w) = Some w' ->
  world_after (Initialize junk w) = Some w'.
Proof.
  pose proof (PredictDerivative_outcome junk w x) as Ht. unfold triple in Ht.
  destruct (PredictDerivative junk x w) as [p w1|e w1|]; simpl; try discriminate;
    intros Hw; injection Hw as <-.
  - destruct Ht as [-> _]. reflexivity.
  - destruct Ht as [->|[-> _]]; reflexivity.
Qed.

Lemma world_after_drop_value {A : Type} (m : Method T A) (w : World T) :
  world_after ((m ;; ret tt) w) = world_after (m w).
Proof. unfold bind, ret. destruct (m w); reflexivity. Qed.

Lemma Initialize_keeps_consistent (w w' : World T) :
  consistent (this w) ->
  world_after (Initialize junk w) = Some w' ->
  consistent (this w').
Proof.
  intros Hc Hw. destruct (consistent_stores Hc) as [[Hx [Hy Hi]]|[Hx Hy]].
  - unfold Initialize, bind, get_this, throw in Hw. rewrite Hi, Hx in Hw.
    simpl in Hw. injection Hw as <-. assumption.
  - destruct (Initialize_consistent junk w Hc Hx) as [w1 [Hr [Hc1 _]]].
    rewrite Hr in Hw. simpl in Hw. injection Hw as <-. assumption.
Qed.

Lemma AddSample_keeps_consistent (w w' : World T) (x y : Vector T) :
  consistent (this w) ->
  world_after (AddSample x y w) = Some w' ->
  consistent (this w').
Proof.
  intros Hc Hw. destruct (consistent_stores Hc) as [[Hx [Hy Hi]]|[Hx Hy]].
  - rewrite (AddSample_first w x y Hx Hy) in Hw. simpl in Hw.
    injection Hw as <-. unfold consistent. simpl.
    repeat split; try (repeat constructor); discriminate.
  - rewrite (AddSample_later w x y) in Hw by assumption.
    destruct (Nat.eqb_spec (length x) (m_InputDimension (this w))) as [Ex|Ex];
      cbn [negb] in Hw; [|injection Hw as <-; assumption].
    destruct (Nat.eqb_spec (length y) (m_OutputDimension (this w))) as [Ey|Ey];
      cbn [negb] in Hw; [|injection Hw as <-; assumption].
    simpl in Hw. injection Hw as <-.
    destruct Hc as [Hl [Hxs [Hys _]]]. unfold consistent. simpl.
    split; [rewrite !length_app, Hl; reflexivity|].
    split; [apply Forall_app; split; [assumption | repeat constructor; assumption]|].
    split; [apply Forall_app; split; [assumption | repeat constructor; assumption]|].
    discriminate.
Qed.

(** Every operation but a load keeps the invariants of the data model,
    whether it returns or throws. *)
Lemma perform_keeps_consistent (op : Operation) (w w' : World T) :
  (forall prefix, op <> OpLoad prefix) ->
  consistent (this w) ->
  world_after (perform junk op w) = Some w' ->
  consistent (this w').
Proof.
  intros Hop Hc Hw.
  destruct op as [x y|x|x| |k|sigma|m|s| |prefix|prefix]; cbn [perform] in Hw.
  - eapply AddSample_keeps_consistent; eassumption.
  - rewrite world_after_drop_value in Hw. apply Predict_world in Hw.
    eapply Initialize_keeps_consistent; eassumption.
  - rewrite world_after_drop_value in Hw. apply PredictDerivative_world in Hw.
    eapply Initialize_keeps_consistent; eassumption.
  - eapply Initialize_keeps_consistent; eassumption.
  - injection Hw as <-. destruct Hc as [Hl [Hxs [Hys _]]].
    unfold consistent. simpl. repeat split; try assumption; discriminate.
  - injection Hw as <-. destruct Hc as [Hl [Hxs [Hys _]]].
    unfold consistent. simpl. repeat split; try assumption; discriminate.
  - injection Hw as <-. exact Hc.
  - injection Hw as <-. exact Hc.
  - injection Hw as <-. exact Hc.
  - pose proof (Save_effect prefix w) as Ht. unfold triple in Ht.
    destruct (Save prefix w) as [[] w1|e w1|]; simpl in Hw; try discriminate;
      injection Hw as <-.
    + destruct Ht as [-> _]. assumption.
    + destruct Ht as [-> _]. assumption.
  - exfalso. apply (Hop prefix). reflexivity.
Qed.

(** A model that was not loaded keeps the invariants of the data
    model. *)
Lemma built_without_Load_consistent (w : World T) :
  built_without_Load junk w -> consistent (this w).
Proof.
  induction 1 as [kernel fs|op w w' Hb IH Hop Hw].
  - apply consistent_construct.
  - eapply perform_keeps_consistent; eassumption.
Qed.

(** X8.  The model as constructed keeps the invariants of the data model,
    and every operation but a load keeps them, whether it returns or
    throws: as many outputs as inputs, every input of the input
    dimension and every output of the output dimension, and a model that
    is marked trained has a sample and coefficients of one row per
    sample and one column per output dimension. *)
Theorem operations_keep_the_data_model_invariants
    (kernel : Kernel T) (op : Operation) (w w' : World T) :
  consistent (construct s_zero kernel)
  /\ ((forall prefix, op <> OpLoad prefix) ->
      consistent (this w) ->
      world_after (perform junk op w) = Some w' ->
      consistent (this w')).
Proof.
  split; [apply consistent_construct | apply perform_keeps_consistent].
Qed.

(** X25.  A model that the constructor and operations other than a load
    have made, and that holds no sample, is not marked trained:
    [Initialize], [Predict] and [PredictDerivative] throw for want of
    samples, [Save] throws as the model is not trained, and each leaves
    the world as it is.  And whatever the operation and the world, when
    the solver has run it has run on at least one sample. *)
Theorem no_sample_no_prediction_unless_loaded
    (w : World T) (x : Vector T) (prefix : string) :
  built_without_Load junk w ->
  m_SampleVectors (this w) = [] ->
  m_Initialized (this w) = false
  /\ Initialize junk w = Throws NoInputSamples w
  /\ Predict junk x w = Throws NoInputSamples w
  /\ PredictDerivative junk x w = Throws NoInputSamples w
  /\ Save prefix w = Throws SaveNotInitialized w
  /\ (forall (op : Operation) (w0 w' : World T),
         world_after (perform junk op w0) = Some w' ->
         solver_runs w' = solver_runs w0
         \/ (1 <= length (m_SampleVectors (this w0))
             /\ solver_runs w'
                = length (m_SampleVectors (this w0)) :: solver_runs w0)).
Proof.
  intros Hb Hx.
  assert (Hi : m_Initialized (this w) = false).
  { destruct (m_Initialized (this w)) eqn:Hi; [|reflexivity].
    destruct (built_without_Load_consistent Hb) as [_ [_ [_ Ht]]].
    destruct (Ht Hi) as [Hne _]. contradiction. }
  split; [exact Hi|].
  split; [unfold Initialize, bind, get_this, throw; rewrite Hi, Hx; reflexivity|].
  split; [unfold Predict, Initialize, bind, get_this, throw; rewrite Hi, Hx;
          reflexivity|].
  split; [unfold PredictDerivative, Initialize, bind, get_this, throw;
          rewrite Hi, Hx; reflexivity|].
  split; [apply Save_not_initialized; assumption|].
  intros op w0 w'. apply solver_runs_on_samples.
Qed.

(** [Save] on a trained model that keeps the invariants. *)
Lemma Save_returns (prefix : string) (w : World T) :
  consistent (this w) ->
  m_Initialized (this w) = true ->
  exists X Y,
    vectors_as_columns (m_SampleVectors (this w)) = Some X
    /\ vectors_as_columns (m_LabelVectors (this w)) = Some Y
    /\ columns X = m_SampleVectors (this w)
    /\ columns Y = m_LabelVectors (this w)
    /\ Save prefix w
       = Returns tt
           (mkWorld (this w)
              (ofstream_write (prefix ++ "-ParameterFile.txt")
                 (parameter_line (this w))
                 (write_file (prefix ++ "-LabelVectors.txt") (matrix_to_text Y)
                    (write_file (prefix ++ "-SampleVectors.txt") (matrix_to_text X)
                       (write_file (prefix ++ "-RegressionVectors.txt")
                          (matrix_to_text (m_RegressionVectors (this w)))
                          (disk w)))))
              (solver_runs w)).
Proof.
  intros Hc Hi.
  destruct (consistent_stores Hc) as [[_ [_ Hf]]|[Hx Hy]]; [congruence|].
  destruct Hc as [_ [Hxs [Hys _]]].
  exists (tabulate (m_InputDimension (this w)) (length (m_SampleVectors (this w)))
            (fun i j => vcoeff (nth j (m_SampleVectors (this w)) []) i)).
  exists (tabulate (m_OutputDimension (this w)) (length (m_LabelVectors (this w)))
            (fun i j => vcoeff (nth j (m_LabelVectors (this w)) []) i)).
  pose proof (vectors_as_columns_tabulate Hx Hxs) as HX.
  pose proof (vectors_as_columns_tabulate Hy Hys) as HY.
  split; [exact HX|]. split; [exact HY|].
  split; [apply (columns_vectors Hxs)|]. split; [apply (columns_vectors Hys)|].
  unfold Save, WriteMatrix, bind, get_this, set_disk, defined, throw.
  rewrite Hi. cbn [negb this disk solver_runs]. rewrite HX, HY. reflexivity.
Qed.

Lemma drop_value_defined {A : Type} (m : Method T A) (w : World T) :
  m w <> Undefined -> (m ;; ret tt) w <> Undefined.
Proof. unfold bind, ret. destruct (m w); congruence. Qed.

(** X9.  On a model that keeps the invariants of the data model no
    operation runs into an assertion of Eigen or reads a vector out of
    its range: every operation returns or throws one of the failures of
    the engine.  A load does so on any model. *)
Theorem no_operation_is_undefined_on_a_consistent_model
    (op : Operation) (w : World T) :
  consistent (this w) ->
  perform junk op w <> Undefined.
Proof.
  intros Hc.
  assert (Hinit : (exists e, Initialize junk w = Throws e w)
                  \/ exists w1, Initialize junk w = Returns tt w1
                       /\ consistent (this w1) /\ m_Initialized (this w1) = true).
  { destruct (consistent_stores Hc) as [[Hx [Hy Hi]]|[Hx Hy]].
    - left. exists NoInputSamples.
      unfold Initialize, bind, get_this, throw. rewrite Hi, Hx. reflexivity.
    - right. destruct (Initialize_consistent junk w Hc Hx) as [w1 [Hr [Hc1 [Hi1 _]]]].
      exists w1. split; [assumption|]. split; assumption. }
  destruct op as [x y|x|x| |k|sigma|m|s| |prefix|prefix]; cbn [perform];
    try discriminate.
  - destruct (consistent_stores Hc) as [[Hx [Hy Hi]]|[Hx Hy]].
    + rewrite (AddSample_first w x y Hx Hy). discriminate.
    + rewrite (AddSample_later w x y) by assumption.
      destruct (negb _); [discriminate|]. destruct (negb _); discriminate.
  - apply drop_value_defined.
    destruct Hinit as [[e He]|[w1 [Hr [Hc1 Hi1]]]].
    + unfold Predict, bind. rewrite He. discriminate.
    + rewrite (Predict_after_Initialize junk w x Hr Hi1).
      destruct Hc1 as [_ [_ [_ Ht]]]. destruct (Ht Hi1) as [_ [Hrows _]].
      destruct (Nat.eq_dec (length x) (m_InputDimension (this w1))) as [Ex|Ex].
      * destruct (Predict_ready junk w1 x Hi1 Hrows Ex) as [p [_ Hp]].
        rewrite Hp. discriminate.
      * apply Nat.eqb_neq in Ex.
        unfold Predict, bind. rewrite (Initialize_ready junk w1 Hi1).
        unfold CheckInputDimension, bind, get_this, throw. rewrite Ex.
        discriminate.
  - apply drop_value_defined.
    destruct Hinit as [[e He]|[w1 [Hr [Hc1 Hi1]]]].
    + unfold PredictDerivative, bind. rewrite He. discriminate.
    + rewrite (PredictDerivative_after_Initialize junk w x Hr Hi1).
      destruct Hc1 as [_ [Hxs [_ Ht]]]. destruct (Ht Hi1) as [_ [Hrows Hcols]].
      destruct (Nat.eq_dec (length x) (m_InputDimension (this w1))) as [Ex|Ex].
      * destruct (PredictDerivative_ready junk w1 x Hi1 Hrows Hcols Hxs Ex)
          as [p [D [_ [Hp _]]]].
        rewrite Hp. discriminate.
      * apply Nat.eqb_neq in Ex.
        unfold PredictDerivative, bind. rewrite (Initialize_ready junk w1 Hi1).
        unfold CheckInputDimension, bind, get_this, throw. rewrite Ex.
        discriminate.
  - destruct Hinit as [[e He]|[w1 [Hr _]]]; [rewrite He | rewrite Hr]; discriminate.
  - destruct (m_Initialized (this w)) eqn:Hi.
    + destruct (Save_returns prefix w Hc Hi) as [X [Y [_ [_ [_ [_ Hs]]]]]].
      rewrite Hs. discriminate.
    + rewrite (Save_not_initialized prefix w Hi). discriminate.
  - eapply triple_total. apply Load_triple.
Qed.

End Invariants.

(* ------------------------------------------------------------------ *)
(** * The files of a model *)

Section Files.
Context {T : Type} `{Scalar T} `{KernelLibrary T} `{EigenInverse T}
        `{MatrixIO T} `{StreamFormat} `{FileOpening}.
Variable junk : nat -> nat -> T.

Lemma append_cancel (p a b : string) : (p ++ a = p ++ b)%string -> a = b.
Proof.
  induction p as [|c p IH]; simpl; intros E; [assumption|].
  injection E as E. apply IH. assumption.
Qed.

Lemma lookup_write_file (path content q : string) (fs : FileSystem) :
  lookup q (write_file path content fs)
  = if String.eqb path q
    then match lookup path fs with
         | Some Directory => Some Directory
         | _ => Some (RegularFile content)
         end
    else lookup q fs.
Proof.
  unfold write_file.
  destruct (lookup path fs) as [[|c]|] eqn:L; simpl;
    destruct (String.eqb_spec path q) as [->|Hq]; try reflexivity.
  assumption.
Qed.

Lemma lookup_write_other (path content q : string) (fs : FileSystem) :
  q <> path -> lookup q (write_file path content fs) = lookup q fs.
Proof.
  intros Hq. rewrite lookup_write_file.
  destruct (String.eqb_spec path q); [congruence | reflexivity].
Qed.

Lemma lookup_write_same (path content : string) (fs : FileSystem) :
  lookup path fs <> Some Directory ->
  lookup path (write_file path content fs) = Some (RegularFile content).
Proof.
  intros Hd. rewrite lookup_write_file, String.eqb_refl.
  destruct (lookup path fs) as [[|c]|]; congruence.
Qed.

Ltac other_file :=
  let E := fresh "E" in
  intros E; apply append_cancel in E; discriminate E.

Lemma lookup_ofstream_write (path content q : string) (fs : FileSystem) :
  lookup q (ofstream_write path content fs)
  = if String.eqb path q
    then match lookup path fs with
         | Some Directory => Some Directory
         | held => if opens_for_writing path fs
                   then Some (RegularFile content)
                   else held
         end
    else lookup q fs.
Proof.
  unfold ofstream_write.
  destruct (lookup path fs) as [[|c]|] eqn:L;
    try destruct (opens_for_writing path fs); simpl;
    destruct (String.eqb_spec path q) as [->|Hq]; try reflexivity;
    assumption.
Qed.

Lemma lookup_ofstream_other (path content q : string) (fs : FileSystem) :
  q <> path -> lookup q (ofstream_write path content fs) = lookup q fs.
Proof.
  intros Hq. rewrite lookup_ofstream_write.
  destruct (String.eqb_spec path q); [congruence | reflexivity].
Qed.

(** X10.  [Save] on a trained model that keeps the invariants of the data
    model returns and leaves the model and the record of solver runs as
    they are, whether or not the stream of the parameter file could be
    opened: the stream is not checked.  Every path but the four of the
    prefix keeps what it held.  When the stream opens, on the files as
    they are once the three matrices are written, the parameter file
    holds the parameter line of the model.  When it does not open, or
    the path is a directory, nothing is written to the path, which
    keeps what it held. *)
Theorem Save_writes_the_four_files_and_no_other
    (prefix : string) (w : World T) :
  consistent (this w) ->
  m_Initialized (this w) = true ->
  exists w' X Y,
    Save prefix w = Returns tt w'
    /\ this w' = this w
    /\ solver_runs w' = solver_runs w
    /\ (forall path,
          path <> (prefix ++ "-RegressionVectors.txt")%string ->
          path <> (prefix ++ "-SampleVectors.txt")%string ->
          path <> (prefix ++ "-LabelVectors.txt")%string ->
          path <> (prefix ++ "-ParameterFile.txt")%string ->
          lookup path (disk w') = lookup path (disk w))
    /\ vectors_as_columns (m_SampleVectors (this w)) = Some X
    /\ vectors_as_columns (m_LabelVectors (this w)) = Some Y
    /\ let written :=
         write_file (prefix ++ "-LabelVectors.txt") (matrix_to_text Y)
           (write_file (prefix ++ "-SampleVectors.txt") (matrix_to_text X)
              (write_file (prefix ++ "-RegressionVectors.txt")
                 (matrix_to_text (m_RegressionVectors (this w))) (disk w))) in
       (lookup (prefix ++ "-ParameterFile.txt") (disk w) <> Some Directory ->
        opens_for_writing (prefix ++ "-ParameterFile.txt") written = true ->
        lookup (prefix ++ "-ParameterFile.txt") (disk w')
        = Some (RegularFile (parameter_line (this w))))
       /\ (lookup (prefix ++ "-ParameterFile.txt") (disk w) = Some Directory
           \/ opens_for_writing (prefix ++ "-ParameterFile.txt") written = false ->
           lookup (prefix ++ "-ParameterFile.txt") (disk w')
           = lookup (prefix ++ "-ParameterFile.txt") (disk w)).
Proof.
  intros Hc Hi.
  destruct (Save_returns prefix w Hc Hi) as [X [Y [HX [HY [_ [_ Hs]]]]]].
  eexists. exists X, Y. split; [exact Hs|]. cbn [this disk solver_runs].
  split; [reflexivity|]. split; [reflexivity|]. split.
  { intros path P1 P2 P3 P4.
    rewrite lookup_ofstream_other by assumption.
    rewrite !lookup_write_other by assumption. reflexivity. }
  split; [exact HX|]. split; [exact HY|]. cbv zeta.
  rewrite lookup_ofstream_write, String.eqb_refl.
  rewrite !lookup_write_other by other_file.
  split.
  - intros Hd Ho. rewrite Ho.
    destruct (lookup (prefix ++ "-ParameterFile.txt") (disk w)) as [[|c]|];
      congruence.
  - intros [Hd|Ho].
    + rewrite Hd. reflexivity.
    + rewrite Ho.
      destruct (lookup (prefix ++ "-ParameterFile.txt") (disk w)) as [[|c]|];
        reflexivity.
Qed.

(** A matrix that is read back from the text that is written for it. *)
Lemma matrix_in_written_file (path : string) (M : Matrix T) (fs : FileSystem) :
  lookup path fs <> Some Directory ->
  matrix_of_text (matrix_to_text M) = Some M ->
  matrix_in_file path (write_file path (matrix_to_text M) fs) = Some M.
Proof.
  intros Hd Hm. unfold matrix_in_file.
  rewrite lookup_write_same by assumption. assumption.
Qed.

Lemma matrix_in_file_write_other (path q content : string) (fs : FileSystem) :
  q <> path ->
  matrix_in_file q (write_file path content fs) = matrix_in_file (T := T) q fs.
Proof.
  intros Hq. unfold matrix_in_file. rewrite lookup_write_other by assumption.
  reflexivity.
Qed.

Lemma matrix_in_file_ofstream_other (path q content : string) (fs : FileSystem) :
  q <> path ->
  matrix_in_file q (ofstream_write path content fs) = matrix_in_file (T := T) q fs.
Proof.
  intros Hq. unfold matrix_in_file. rewrite lookup_ofstream_other by assumption.
  reflexivity.
Qed.

(** What a model that is loaded holds of the three matrices. *)
Lemma loaded_model_matrices (prefix : string) (fs : FileSystem)
    (gp gp' : GaussianProcess T) (R X Y : Matrix T) :
  matrix_in_file (prefix ++ "-RegressionVectors.txt") fs = Some R ->
  matrix_in_file (prefix ++ "-SampleVectors.txt") fs = Some X ->
  matrix_in_file (prefix ++ "-LabelVectors.txt") fs = Some Y ->
  loaded_model prefix fs gp = Some gp' ->
  m_RegressionVectors gp' = R
  /\ m_SampleVectors gp' = columns X
  /\ m_LabelVectors gp' = columns Y
  /\ m_Initialized gp' = true
  /\ m_CoreMatrix gp' = m_CoreMatrix gp
  /\ m_InvMethod gp' = m_InvMethod gp
  /\ m_EfficientStorage gp' = m_EfficientStorage gp.
Proof.
  intros HR HX HY. unfold loaded_model. rewrite HR, HX, HY. cbn [obind].
  destruct (lookup _ fs) as [[|content]|]; try discriminate.
  destruct (getline content) as [line|]; [|discriminate]. cbn [obind].
  destruct (parameter_fields line) as [f|]; [|discriminate]. cbn [obind].
  destruct (kernel_by_name _ _) as [k|]; [|discriminate]. cbn [obind].
  intros E. injection E as <-. repeat split; reflexivity.
Qed.

(** X11.  The samples, the labels and the coefficients of a model survive
    [Save] and [Load]: when the text that is written for each of the
    three matrices is read back as that matrix and none of their paths
    is a directory, a load of the saved prefix that returns, by whatever
    model, holds the coefficients, the samples and the labels of the
    model that was saved, vector by vector, and is marked trained. *)
Theorem Load_after_Save_restores_samples_labels_and_coefficients
    (prefix : string) (w : World T) :
  consistent (this w) ->
  m_Initialized (this w) = true ->
  lookup (prefix ++ "-RegressionVectors.txt") (disk w) <> Some Directory ->
  lookup (prefix ++ "-SampleVectors.txt") (disk w) <> Some Directory ->
  lookup (prefix ++ "-LabelVectors.txt") (disk w) <> Some Directory ->
  matrix_of_text (matrix_to_text (m_RegressionVectors (this w)))
  = Some (m_RegressionVectors (this w)) ->
  (forall X, vectors_as_columns (m_SampleVectors (this w)) = Some X ->
             matrix_of_text (matrix_to_text X) = Some X) ->
  (forall Y, vectors_as_columns (m_LabelVectors (this w)) = Some Y ->
             matrix_of_text (matrix_to_text Y) = Some Y) ->
  exists saved,
    Save prefix w = Returns tt saved
    /\ forall (loader loaded : World T),
         disk loader = disk saved ->
         Load junk prefix loader = Returns tt loaded ->
         m_RegressionVectors (this loaded) = m_RegressionVectors (this w)
         /\ m_SampleVectors (this loaded) = m_SampleVectors (this w)
         /\ m_LabelVectors (this loaded) = m_LabelVectors (this w)
         /\ m_Initialized (this loaded) = true.
Proof.
  intros Hc Hi D1 D2 D3 MR MX MY.
  destruct (Save_returns prefix w Hc Hi) as [X [Y [HX [HY [CX [CY Hs]]]]]].
  eexists. split; [exact Hs|]. cbn [disk].
  intros loader loaded Hd Hl.
  pose proof (Load_refines junk prefix loader) as Hr.
  destruct (loaded_model prefix (disk loader) (this loader)) as [gp'|] eqn:Hm.
  2:{ destruct Hr as [e [w' [Hr _]]]. rewrite Hr in Hl. discriminate. }
  rewrite Hr in Hl. injection Hl as <-. cbn [this].
  rewrite Hd in Hm.
  assert (HR' : matrix_in_file (prefix ++ "-RegressionVectors.txt")
                  (ofstream_write (prefix ++ "-ParameterFile.txt")
                     (parameter_line (this w))
                     (write_file (prefix ++ "-LabelVectors.txt") (matrix_to_text Y)
                        (write_file (prefix ++ "-SampleVectors.txt") (matrix_to_text X)
                           (write_file (prefix ++ "-RegressionVectors.txt")
                              (matrix_to_text (m_RegressionVectors (this w)))
                              (disk w)))))
                = Some (m_RegressionVectors (this w))).
  { rewrite matrix_in_file_ofstream_other by other_file.
    rewrite !matrix_in_file_write_other by other_file.
    apply matrix_in_written_file; assumption. }
  assert (HX' : matrix_in_file (prefix ++ "-SampleVectors.txt")
                  (ofstream_write (prefix ++ "-ParameterFile.txt")
                     (parameter_line (this w))
                     (write_file (prefix ++ "-LabelVectors.txt") (matrix_to_text Y)
                        (write_file (prefix ++ "-SampleVectors.txt") (matrix_to_text X)
                           (write_file (prefix ++ "-RegressionVectors.txt")
                              (matrix_to_text (m_RegressionVectors (this w)))
                              (disk w)))))
                = Some X).
  { rewrite matrix_in_file_ofstream_other by other_file.
    rewrite !matrix_in_file_write_other by other_file.
    apply matrix_in_written_file; [|apply MX; assumption].
    rewrite lookup_write_other by other_file. assumption. }
  assert (HY' : matrix_in_file (prefix ++ "-LabelVectors.txt")
                  (ofstream_write (prefix ++ "-ParameterFile.txt")
                     (parameter_line (this w))
                     (write_file (prefix ++ "-LabelVectors.txt") (matrix_to_text Y)
                        (write_file (prefix ++ "-SampleVectors.txt") (matrix_to_text X)
                           (write_file (prefix ++ "-RegressionVectors.txt")
                              (matrix_to_text (m_RegressionVectors (this w)))
                              (disk w)))))
                = Some Y).
  { rewrite matrix_in_file_ofstream_other by other_file.
    apply matrix_in_written_file; [|apply MY; assumption].
    rewrite !lookup_write_other by other_file. assumption. }
  destruct (loaded_model_matrices _ _ _ HR' HX' HY' Hm) as [E1 [E2 [E3 [E4 _]]]].
  rewrite E1, E2, E3, E4, CX, CY. repeat split; reflexivity.
Qed.

(** X12.  When the three matrix files hold matrices and the parameter file
    starts with a well-formed line that names a kernel with the number
    of parameters it requires, [Load] returns, and the model is the one
    the files give: coefficients, samples and labels from the matrices,
    column by column, kernel, noise, dimensions and debug flag from the
    line, the flag set.  The solver is not run, the dimensions of the
    line are not compared with the matrices, and of the model that
    loads only the inversion method, the efficient-storage flag and the
    core matrix are left. *)
Theorem Load_returns_the_model_of_the_files
    (prefix : string) (w : World T) (R X Y : Matrix T)
    (content line : string) (f : ParameterFields) (k : Kernel T) :
  matrix_in_file (prefix ++ "-RegressionVectors.txt") (disk w) = Some R ->
  matrix_in_file (prefix ++ "-SampleVectors.txt") (disk w) = Some X ->
  matrix_in_file (prefix ++ "-LabelVectors.txt") (disk w) = Some Y ->
  lookup (prefix ++ "-ParameterFile.txt") (disk w) = Some (RegularFile content) ->
  getline content = Some line ->
  parameter_fields line = Some f ->
  kernel_by_name (pf_kernel_type f) (pf_kernel_parameters f) = Some k ->
  Load junk prefix w
  = Returns tt
      (mkWorld
         (mkGaussianProcess k (pf_sigma f)
            (map (column X) (seq 0 (cols X)))
            (map (column Y) (seq 0 (cols Y)))
            R (m_CoreMatrix (this w)) true
            (pf_input_dimension f) (pf_output_dimension f)
            (m_InvMethod (this w)) (m_EfficientStorage (this w)) (pf_debug f))
         (disk w) (solver_runs w)).
Proof.
  intros HR HX HY Hc Hg Hf Hk.
  pose proof (Load_refines junk prefix w) as Hr.
  unfold loaded_model in Hr.
  rewrite HR, HX, HY, Hc in Hr. cbn [obind] in Hr.
  rewrite Hg in Hr. cbn [obind] in Hr.
  rewrite Hf in Hr. cbn [obind] in Hr.
  rewrite Hk in Hr. cbn [obind] in Hr.
  exact Hr.
Qed.

(** X13.  An empty parameter file is not reported as corrupt: nothing is
    read from it, the kernel name stays empty, and the load throws that
    the kernel is not recognized, after the coefficients, the samples
    and the labels of the model have been replaced. *)
Theorem Load_of_an_empty_parameter_file_does_not_recognize_the_kernel
    (prefix : string) (w : World T) (R X Y : Matrix T) :
  matrix_in_file (prefix ++ "-RegressionVectors.txt") (disk w) = Some R ->
  matrix_in_file (prefix ++ "-SampleVectors.txt") (disk w) = Some X ->
  matrix_in_file (prefix ++ "-LabelVectors.txt") (disk w) = Some Y ->
  lookup (prefix ++ "-ParameterFile.txt") (disk w) = Some (RegularFile "") ->
  Load junk prefix w
  = Throws KernelNotRecognized
      (mkWorld
         (with_LabelVectors (map (column Y) (seq 0 (cols Y)))
            (with_SampleVectors (map (column X) (seq 0 (cols X)))
               (with_RegressionVectors R (this w))))
         (disk w) (solver_runs w)).
Proof.
  unfold matrix_in_file. intros HR HX HY Hc.
  destruct (lookup (prefix ++ "-RegressionVectors.txt") (disk w))
    as [[|c1]|] eqn:L1; try discriminate.
  destruct (lookup (prefix ++ "-SampleVectors.txt") (disk w))
    as [[|c2]|] eqn:L2; try discriminate.
  destruct (lookup (prefix ++ "-LabelVectors.txt") (disk w))
    as [[|c3]|] eqn:L3; try discriminate.
  unfold Load, ReadMatrix, is_regular_file, bind, get_disk, set_this, throw, ret.
  cbn [disk this solver_runs].
  repeat (rewrite ?L1, ?L2, ?L3, ?HR, ?HX, ?HY, ?Hc;
          cbn [negb disk this solver_runs]).
  reflexivity.
Qed.

End Files.

(* ------------------------------------------------------------------ *)
(** * The failure of each defect *)

Section LoadFailures.
Context {T : Type} `{Scalar T} `{KernelLibrary T} `{EigenInverse T}
        `{MatrixIO T} `{StreamFormat} `{FileOpening}.
Variable junk : nat -> nat -> T.





End LoadFailures.

(* ------------------------------------------------------------------ *)
(** * What each operation writes *)

Section Frames.
Context {T : Type} `{Scalar T} `{KernelLibrary T} `{EigenInverse T}
        `{MatrixIO T} `{StreamFormat} `{FileOpening}.
Variable junk : nat -> nat -> T.

(** [AddSample] on any model: it returns or throws, and writes the two
    stores, the flag and, for a store that is empty, its dimension. *)
Lemma AddSample_outcome (w : World T) (x y : Vector T) :
  triple w (AddSample x y)
    (fun _ w' =>
       m_SampleVectors (this w') = m_SampleVectors (this w) ++ [x]
       /\ m_LabelVectors (this w') = m_LabelVectors (this w) ++ [y]
       /\ this w' = with_Initialized false
                      (with_LabelVectors (m_LabelVectors (this w) ++ [y])
                         (with_SampleVectors (m_SampleVectors (this w) ++ [x])
                            (with_OutputDimension (m_OutputDimension (this w'))
                               (with_InputDimension (m_InputDimension (this w'))
                                  (this w)))))
       /\ (m_SampleVectors (this w) <> [] ->
           m_InputDimension (this w') = m_InputDimension (this w))
       /\ (m_LabelVectors (this w) <> [] ->
           m_OutputDimension (this w') = m_OutputDimension (this w))
       /\ disk w' = disk w /\ solver_runs w' = solver_runs w)
    (fun _ w' =>
       this w' = with_OutputDimension (m_OutputDimension (this w'))
                   (with_InputDimension (m_InputDimension (this w')) (this w))
       /\ (m_SampleVectors (this w) <> [] ->
           m_InputDimension (this w') = m_InputDimension (this w))
       /\ (m_LabelVectors (this w) <> [] ->
           m_OutputDimension (this w') = m_OutputDimension (this w))
       /\ disk w' = disk w /\ solver_runs w' = solver_runs w)
    False.
Proof.
  unfold triple, AddSample, CheckInputDimension, CheckOutputDimension,
    bind, get_this, set_this, throw, ret.
  destruct w as [gp fs runs]. cbn [this disk solver_runs].
  destruct gp as [k s xs ys R C i di do m e dbg]. cbn.
  destruct xs as [|x0 xs]; destruct ys as [|y0 ys]; cbn;
    repeat match goal with
      | |- context [negb (?a =? ?b)] => destruct (a =? b) eqn:?; cbn
      end;
    repeat split; try reflexivity; intros Hn; congruence.
Qed.

Lemma Initialize_world (w w' : World T) :
  world_after (Initialize junk w) = Some w' ->
  w' = w
  \/ exists R,
       w' = mkWorld (with_Initialized true (with_RegressionVectors R (this w)))
              (disk w) (length (m_SampleVectors (this w)) :: solver_runs w).
Proof.
  pose proof (Initialize_outcome junk w) as Ht. unfold triple in Ht.
  destruct (Initialize junk w) as [[] w1|e w1|]; simpl; try discriminate;
    intros Hw; injection Hw as <-.
  - destruct Ht as [_ [Ht|[_ Ht]]]; [left | right]; assumption.
  - left. tauto.
Qed.

Lemma perform_training_world (op : Operation) (w w' : World T) :
  trains op ->
  world_after (perform junk op w) = Some w' ->
  world_after (Initialize junk w) = Some w'.
Proof.
  destruct op; cbn [trains perform]; try contradiction; intros _ Hw.
  - rewrite world_after_drop_value in Hw. apply (Predict_world junk w x Hw).
  - rewrite world_after_drop_value in Hw. apply (PredictDerivative_world junk w x Hw).
  - assumption.
Qed.

Lemma Load_world (prefix : string) (w w' : World T) :
  world_after (Load junk prefix w) = Some w' ->
  m_CoreMatrix (this w') = m_CoreMatrix (this w)
  /\ m_InvMethod (this w') = m_InvMethod (this w)
  /\ m_EfficientStorage (this w') = m_EfficientStorage (this w)
  /\ disk w' = disk w
  /\ solver_runs w' = solver_runs w.
Proof.
  pose proof (Load_triple junk prefix w) as Ht. unfold triple in Ht.
  destruct (Load junk prefix w) as [[] w1|e w1|]; simpl; try discriminate;
    intros Hw; injection Hw as <-.
  - destruct Ht as [gp' [Hm ->]]. cbn [this disk solver_runs].
    unfold loaded_model in Hm.
    repeat match type of Hm with
      | obind ?o _ = Some _ => destruct o; cbn [obind] in Hm; [|discriminate]
      end.
    destruct (lookup _ _) as [[|content]|]; try discriminate.
    repeat match type of Hm with
      | obind ?o _ = Some _ => destruct o; cbn [obind] in Hm; [|discriminate]
      end.
    injection Hm as <-. repeat split; reflexivity.
  - destruct Ht as [_ Hk]. unfold kept_by_failed_Load in Hk. tauto.
Qed.

(** X14.  No operation writes the core matrix, a load included: it is what
    the constructor made it for the life of the model.  The inversion
    method and the efficient-storage flag are written by their setters
    alone, which a load is not; the kernel by [SetKernel] and a load, the
    noise by [SetSigma] and a load, the coefficients by training and a
    load, and the files by [Save] alone. *)
Theorem members_are_written_by_their_own_operations_only
    (op : Operation) (w w' : World T) :
  world_after (perform junk op w) = Some w' ->
  m_CoreMatrix (this w') = m_CoreMatrix (this w)
  /\ (m_InvMethod (this w') <> m_InvMethod (this w) ->
      exists m, op = OpSetInversionMethod m)
  /\ (m_EfficientStorage (this w') <> m_EfficientStorage (this w) ->
      exists s, op = OpSetEfficientStorage s)
  /\ (m_Kernel (this w') <> m_Kernel (this w) ->
      (exists k, op = OpSetKernel k) \/ (exists prefix, op = OpLoad prefix))
  /\ (m_Sigma (this w') <> m_Sigma (this w) ->
      (exists sigma, op = OpSetSigma sigma) \/ (exists prefix, op = OpLoad prefix))
  /\ (m_RegressionVectors (this w') <> m_RegressionVectors (this w) ->
      trains op \/ (exists prefix, op = OpLoad prefix))
  /\ (disk w' <> disk w -> exists prefix, op = OpSave prefix).
Proof.
  intros Hw.
  assert (Htrain : trains op ->
            m_CoreMatrix (this w') = m_CoreMatrix (this w)
            /\ m_InvMethod (this w') = m_InvMethod (this w)
            /\ m_EfficientStorage (this w') = m_EfficientStorage (this w)
            /\ m_Kernel (this w') = m_Kernel (this w)
            /\ m_Sigma (this w') = m_Sigma (this w)
            /\ disk w' = disk w).
  { intros Ht. apply (perform_training_world op w Ht) in Hw.
    apply Initialize_world in Hw. destruct Hw as [->|[R ->]];
      repeat split; reflexivity. }
  destruct op as [x y|x|x| |k|sigma|m|s| |prefix|prefix];
    try (destruct (Htrain I) as [E1 [E2 [E3 [E4 [E5 E6]]]]];
         split; [assumption|];
         repeat split; intros Hn; try congruence; left; exact I);
    cbn [perform] in Hw.
  - pose proof (AddSample_outcome w x y) as Ht. unfold triple in Ht.
    destruct (AddSample x y w) as [[] w1|e w1|]; simpl in Hw; try discriminate;
      injection Hw as <-.
    + destruct Ht as [_ [_ [Et [_ [_ [Ed _]]]]]].
      rewrite Et. cbn. repeat split; intros Hn; congruence.
    + destruct Ht as [Et [_ [_ [Ed _]]]].
      rewrite Et. cbn. repeat split; intros Hn; congruence.
  - injection Hw as <-. cbn. repeat split; intros Hn; try congruence.
    left. exists k. reflexivity.
  - injection Hw as <-. cbn. repeat split; intros Hn; try congruence.
    left. exists sigma. reflexivity.
  - injection Hw as <-. cbn. repeat split; intros Hn; try congruence.
    exists m. reflexivity.
  - injection Hw as <-. cbn. repeat split; intros Hn; try congruence.
    exists s. reflexivity.
  - injection Hw as <-. cbn. repeat split; intros Hn; congruence.
  - pose proof (Save_effect prefix w) as Ht. unfold triple in Ht.
    destruct (Save prefix w) as [[] w1|e w1|]; simpl in Hw; try discriminate;
      injection Hw as <-.
    + destruct Ht as [Et _]. rewrite Et.
      repeat split; intros Hn; try congruence. exists prefix. reflexivity.
    + destruct Ht as [-> _].
      repeat split; intros Hn; congruence.
  - destruct (Load_world prefix w Hw) as [E1 [E2 [E3 [E4 _]]]].
    split; [assumption|].
    repeat split; intros Hn; try congruence; right; exists prefix; reflexivity.
Qed.

(** X15.  The stores only grow, by one pair at the end and by [AddSample]
    alone: no operation but a load removes, replaces or reorders a
    stored sample or label; and once a store holds a vector its
    dimension is never written again. *)
Theorem stored_samples_are_never_dropped_or_changed
    (op : Operation) (w w' : World T) :
  (forall prefix, op <> OpLoad prefix) ->
  world_after (perform junk op w) = Some w' ->
  ((m_SampleVectors (this w') = m_SampleVectors (this w)
    /\ m_LabelVectors (this w') = m_LabelVectors (this w))
   \/ (exists x y, op = OpAddSample x y
         /\ perform junk op w = Returns tt w'
         /\ m_SampleVectors (this w') = m_SampleVectors (this w) ++ [x]
         /\ m_LabelVectors (this w') = m_LabelVectors (this w) ++ [y]))
  /\ (m_SampleVectors (this w) <> [] ->
      m_InputDimension (this w') = m_InputDimension (this w))
  /\ (m_LabelVectors (this w) <> [] ->
      m_OutputDimension (this w') = m_OutputDimension (this w)).
Proof.
  intros Hop Hw.
  assert (Htrain : trains op -> this w' = this w
            \/ exists R, this w'
                 = with_Initialized true (with_RegressionVectors R (this w))).
  { intros Ht. apply (perform_training_world op w Ht) in Hw.
    apply Initialize_world in Hw. destruct Hw as [->|[R ->]];
      [left | right; exists R]; reflexivity. }
  destruct op as [x y|x|x| |k|sigma|m|s| |prefix|prefix];
    try (destruct (Htrain I) as [->|[R ->]]; cbn;
         (split; [left; split; reflexivity | split; intros _; reflexivity]));
    cbn [perform] in Hw.
  - cbn [perform].
    pose proof (AddSample_outcome w x y) as Ht. unfold triple in Ht.
    destruct (AddSample x y w) as [[] w1|e w1|]; simpl in Hw; try discriminate;
      injection Hw as <-.
    + destruct Ht as [Ex [Ey [Et [Hdi [Hdo _]]]]].
      split; [right; exists x, y; repeat split; assumption|].
      split; assumption.
    + destruct Ht as [Et [Hdi [Hdo _]]].
      split; [left; rewrite Et; split; reflexivity|].
      split; assumption.
  - injection Hw as <-. cbn.
    split; [left; split; reflexivity | split; intros _; reflexivity].
  - injection Hw as <-. cbn.
    split; [left; split; reflexivity | split; intros _; reflexivity].
  - injection Hw as <-. cbn.
    split; [left; split; reflexivity | split; intros _; reflexivity].
  - injection Hw as <-. cbn.
    split; [left; split; reflexivity | split; intros _; reflexivity].
  - injection Hw as <-. cbn.
    split; [left; split; reflexivity | split; intros _; reflexivity].
  - pose proof (Save_effect prefix w) as Ht. unfold triple in Ht.
    destruct (Save prefix w) as [[] w1|e w1|]; simpl in Hw; try discriminate;
      injection Hw as <-.
    + destruct Ht as [-> _].
      split; [left; split; reflexivity | split; intros _; reflexivity].
    + destruct Ht as [-> _].
      split; [left; split; reflexivity | split; intros _; reflexivity].
  - exfalso. apply (Hop prefix). reflexivity.
Qed.

End Frames.

(* ------------------------------------------------------------------ *)
(** * Training after a change *)

Section Retraining.
Context {T : Type} `{Scalar T} `{KernelLibrary T} `{EigenInverse T}
        `{MatrixIO T} `{StreamFormat} `{FileOpening}.
Variable junk : nat -> nat -> T.

(** X16.  Whether or not the model was trained, training after [SetSigma],
    after [SetKernel] and after an [AddSample] that is accepted runs the
    solver again and stores the coefficients of the model as changed:
    with the new noise, with the new kernel, with the new pair among the
    samples and one row more. *)
Theorem training_after_a_change_uses_the_changed_model (w : World T) :
  consistent (this w) ->
  1 <= length (m_SampleVectors (this w)) ->
  let n := length (m_SampleVectors (this w)) in
  (forall sigma,
      (SetSigma sigma ;; Initialize junk) w
      = Returns tt
          (mkWorld (trained (with_Initialized false (with_Sigma sigma (this w))))
             (disk w) (n :: solver_runs w)))
  /\ (forall k,
        (SetKernel k ;; Initialize junk) w
        = Returns tt
            (mkWorld (trained (with_Initialized false (with_Kernel k (this w))))
               (disk w) (n :: solver_runs w)))
  /\ (forall x y,
        length x = m_InputDimension (this w) ->
        length y = m_OutputDimension (this w) ->
        (AddSample x y ;; Initialize junk) w
        = Returns tt
            (mkWorld
               (trained
                  (with_Initialized false
                     (with_LabelVectors (m_LabelVectors (this w) ++ [y])
                        (with_SampleVectors (m_SampleVectors (this w) ++ [x])
                           (this w)))))
               (disk w) (S n :: solver_runs w))).
Proof.
  intros Hc Hn n.
  destruct (consistent_stores Hc) as [[Hx _]|[Hx Hy]].
  { rewrite Hx in Hn. simpl in Hn. lia. }
  destruct Hc as [Hl [Hxs [Hys _]]].
  split; [|split].
  - intros sigma. unfold bind at 1. unfold SetSigma, bind, set_this.
    rewrite Initialize_returns; try assumption; reflexivity.
  - intros k. unfold bind at 1. unfold SetKernel, bind, set_this.
    rewrite Initialize_returns; try assumption; reflexivity.
  - intros x y Ex Ey. unfold bind at 1.
    rewrite (AddSample_later w x y) by assumption.
    rewrite Ex, Ey, !Nat.eqb_refl. cbn [negb].
    rewrite Initialize_returns.
    + cbn [this disk solver_runs with_Initialized with_LabelVectors
           with_SampleVectors m_SampleVectors].
      rewrite length_app, Nat.add_1_r. reflexivity.
    + reflexivity.
    + cbn. intros E. apply app_eq_nil in E. destruct E. discriminate.
    + cbn. rewrite !length_app, Hl. reflexivity.
    + cbn. apply Forall_app. split; [assumption | repeat constructor; assumption].
Qed.

End Retraining.

(* ------------------------------------------------------------------ *)
(** * The kernel matrix *)

Section KernelMatrix.
Context {T : Type} `{Scalar T}.
Variable junk : nat -> nat -> T.

(** X17.  Whatever the kernel and the samples, [ComputeKernelMatrix] gives a
    matrix of one row and one column per sample that is symmetric: the
    kernel is evaluated for every pair of a sample and a later sample,
    and for every sample and itself, and the value is stored on both
    sides of the diagonal, so that a kernel that is not symmetric is
    seen through its upper triangle alone.  No coefficient is left as
    the resize made it. *)
Theorem ComputeKernelMatrix_is_symmetric_whatever_the_kernel
    (gp : GaussianProcess T) :
  let n := length (m_SampleVectors gp) in
  exists K,
    ComputeKernelMatrix junk gp = Some K
    /\ rows K = n /\ cols K = n
    /\ (forall i j, i < n -> j < n -> coeff K i j = coeff K j i)
    /\ (forall i j, i <= j -> j < n ->
          coeff K i j = k_eval (m_Kernel gp) (sample gp i) (sample gp j)).
Proof.
  intros n. eexists. split; [apply ComputeKernelMatrix_mirrored|].
  fold n. split; [apply rows_tabulate|]. split; [apply cols_tabulate|].
  split.
  - intros i j Hi Hj. rewrite !coeff_tabulate by assumption.
    unfold mirrored_kernel. rewrite Nat.min_comm, Nat.max_comm. reflexivity.
  - intros i j Hij Hj. rewrite coeff_tabulate by lia.
    unfold mirrored_kernel. rewrite Nat.min_l, Nat.max_r by assumption.
    reflexivity.
Qed.

End KernelMatrix.

(* ------------------------------------------------------------------ *)
(** * Where the comparison is defined *)

Section ComparisonDomain.
Context {T : Type} `{Scalar T} `{KernelLibrary T}.

Lemma some_vector_differs_defined (us vs : list (Vector T)) (d count start : nat) :
  Forall (fun v => length v = d) us ->
  Forall (fun v => length v = d) vs ->
  start + count <= length us ->
  start + count <= length vs ->
  exists r, some_vector_differs start count us vs = Some r.
Proof.
  intros Hu Hv. revert start.
  induction count as [|count IH]; intros start Lu Lv; simpl.
  - eexists. reflexivity.
  - rewrite (nth_error_nth' us []) by lia.
    rewrite (nth_error_nth' vs []) by lia. cbn [obind].
    assert (Eu : length (nth start us []) = d).
    { rewrite Forall_forall in Hu. apply Hu, nth_In. lia. }
    assert (Ev : length (nth start vs []) = d).
    { rewrite Forall_forall in Hv. apply Hv, nth_In. lia. }
    unfold vsub. rewrite Eu, Ev, Nat.eqb_refl. cbn [obind].
    destruct (s_pos _); [eexists; reflexivity|].
    apply IH; lia.
Qed.

Lemma some_vector_differs_mismatch (u v : Vector T) (us vs : list (Vector T))
    (count : nat) :
  length u <> length v ->
  some_vector_differs 0 (S count) (u :: us) (v :: vs) = None.
Proof.
  intros Hl. simpl. unfold vsub. apply Nat.eqb_neq in Hl. rewrite Hl.
  reflexivity.
Qed.

(** X18.  [==] and [!=] subtract before they compare sizes.  On two models
    whose coefficient matrices have another number of rows or of
    columns, a trained model and one that is not for one, neither has a
    result: the difference of the matrices is an assertion of Eigen.  On
    two models that keep the invariants of the data model, with
    coefficients of one shape and the same two dimensions, both have a
    result, and [!=] is the negation of [==].  On two such models of
    another input dimension, with as many samples and coefficients
    whose difference has no positive norm, two models that are not
    trained for one, neither has a result: the samples are subtracted
    before the dimensions are compared. *)
Theorem comparison_is_defined_on_models_of_one_shape
    (a b : GaussianProcess T) :
  (rows (m_RegressionVectors a) <> rows (m_RegressionVectors b)
   \/ cols (m_RegressionVectors a) <> cols (m_RegressionVectors b) ->
   equal a b = None /\ not_equal a b = None)
  /\ (consistent a -> consistent b ->
      rows (m_RegressionVectors a) = rows (m_RegressionVectors b) ->
      cols (m_RegressionVectors a) = cols (m_RegressionVectors b) ->
      m_InputDimension a = m_InputDimension b ->
      m_OutputDimension a = m_OutputDimension b ->
      exists r, equal a b = Some r /\ not_equal a b = Some (negb r))
  /\ (consistent a -> consistent b ->
      (exists D, msub (m_RegressionVectors a) (m_RegressionVectors b) = Some D
                 /\ s_pos (mnorm D) = false) ->
      length (m_SampleVectors a) = length (m_SampleVectors b) ->
      m_SampleVectors a <> [] ->
      m_InputDimension a <> m_InputDimension b ->
      equal a b = None /\ not_equal a b = None).
Proof.
  split; [|split].
  - intros Hs.
    assert (E : equal a b = None).
    { unfold equal, msub.
      destruct Hs as [Hs|Hs]; apply Nat.eqb_neq in Hs; rewrite Hs;
        rewrite ?andb_false_r; reflexivity. }
    unfold not_equal. rewrite E. split; reflexivity.
  - intros Ha Hb Hr Hc Hdi Hdo.
    assert (E : exists r, equal a b = Some r).
    { unfold equal, msub. rewrite Hr, Hc, !Nat.eqb_refl. cbn [andb obind].
      destruct (s_pos _); [eexists; reflexivity|].
      destruct Ha as [Hla [Hxa [Hya _]]]. destruct Hb as [Hlb [Hxb [Hyb _]]].
      destruct (Nat.eqb_spec (length (m_SampleVectors a)) (length (m_SampleVectors b)))
        as [Ex|Ex]; cbn [negb]; [|eexists; reflexivity].
      rewrite Hdi in Hxa.
      destruct (@some_vector_differs_defined _ _ _
                  (length (m_SampleVectors a)) 0 Hxa Hxb) as [r1 Hr1];
        [simpl; lia | simpl; lia |].
      rewrite Hr1. cbn [obind].
      destruct r1; [eexists; reflexivity|].
      destruct (Nat.eqb_spec (length (m_LabelVectors a)) (length (m_LabelVectors b)))
        as [Ey|Ey]; cbn [negb]; [|eexists; reflexivity].
      rewrite Hdo in Hya.
      destruct (@some_vector_differs_defined _ _ _
                  (length (m_LabelVectors a)) 0 Hya Hyb) as [r2 Hr2];
        [simpl; lia | simpl; lia |].
      rewrite Hr2. cbn [obind].
      destruct r2; [eexists; reflexivity|].
      repeat (match goal with
              | |- context [if ?c then _ else _] => destruct c
              end; try (eexists; reflexivity)). }
    destruct E as [r E]. exists r. unfold not_equal. rewrite E.
    split; reflexivity.
  - intros Ha Hb [D [HD Hp]] Hn Hne Hdi.
    assert (E : equal a b = None).
    { unfold equal. rewrite HD. cbn [obind]. rewrite Hp, Hn, Nat.eqb_refl.
      cbn [negb].
      destruct Ha as [_ [Hxa _]]. destruct Hb as [_ [Hxb _]].
      destruct (m_SampleVectors a) as [|u us] eqn:Ea; [congruence|].
      destruct (m_SampleVectors b) as [|v vs] eqn:Eb; [discriminate|].
      rewrite <- Hn. cbn [length].
      rewrite some_vector_differs_mismatch; [reflexivity|].
      inversion Hxa; inversion Hxb; subst. congruence. }
    unfold not_equal. rewrite E. split; reflexivity.
Qed.

End ComparisonDomain.

(* ------------------------------------------------------------------ *)
(** * Reading the members *)

Section Getters.
Context {T : Type} `{Scalar T}.

(** X19.  The members are read back as they were set.  After an [AddSample]
    that returns, [GetNumberOfSamples] gives one more than before and
    [GetNumberOfInputDimensions] the size of the input just added; after
    one that throws, the number of samples is as before.  After
    [SetSigma], [GetSigma] gives the noise that was set and
    [GetSigmaSquared] its product with itself; [GetKernel],
    [GetInversionMethod] and [GetEfficientStorage] give what their
    setters stored.  No getter changes the world. *)
Theorem getters_read_what_was_added_and_set
    (w : World T) (x y : Vector T) :
  (forall w', AddSample x y w = Returns tt w' ->
     GetNumberOfSamples w' = Returns (S (length (m_SampleVectors (this w)))) w'
     /\ GetNumberOfInputDimensions w' = Returns (length x) w')
  /\ (forall e w', AddSample x y w = Throws e w' ->
        GetNumberOfSamples w' = Returns (length (m_SampleVectors (this w))) w')
  /\ GetNumberOfSamples w = Returns (length (m_SampleVectors (this w))) w
  /\ (forall sigma,
        exists w', SetSigma sigma w = Returns tt w'
          /\ GetSigma w' = Returns sigma w'
          /\ GetSigmaSquared w' = Returns (s_mul sigma sigma) w')
  /\ (forall k,
        exists w', SetKernel k w = Returns tt w' /\ GetKernel w' = Returns k w')
  /\ (forall m,
        exists w', SetInversionMethod m w = Returns tt w'
          /\ GetInversionMethod w' = Returns m w')
  /\ (forall s,
        exists w', SetEfficientStorage s w = Returns tt w'
          /\ GetEfficientStorage w' = Returns s w').
Proof.
  split; [|split; [|split; [|split; [|split; [|split]]]]].
  - intros w' Hr. apply AddSample_returns in Hr.
    destruct Hr as [Ex [_ [_ [Ed _]]]].
    unfold GetNumberOfSamples, GetNumberOfInputDimensions, bind, get_this, ret.
    rewrite Ex, length_app, Nat.add_1_r, <- Ed. split; reflexivity.
  - intros e w' Hr.
    unfold AddSample, CheckInputDimension, CheckOutputDimension,
      bind, get_this, set_this, throw, ret in Hr.
    unfold GetNumberOfSamples, bind, get_this, ret.
    repeat match type of Hr with
      | context [if ?c then _ else _] => destruct c; cbn in Hr
      end;
      try discriminate; injection Hr as _ <-; reflexivity.
  - reflexivity.
  - intros sigma. eexists. repeat split; reflexivity.
  - intros k. eexists. repeat split; reflexivity.
  - intros m. eexists. repeat split; reflexivity.
  - intros s. eexists. repeat split; reflexivity.
Qed.

End Getters.

(* ------------------------------------------------------------------ *)
(** * The value of a prediction *)

Section PredictionValue.
Context {T : Type} `{Scalar T} `{EigenInverse T}.
Variable junk : nat -> nat -> T.

(** X20.  On a model that keeps the invariants of the data model and has a
    sample, [Predict] at an input of the input dimension returns a
    vector of the output dimension whose entry [j] is the sum, over the
    samples in order, of the kernel at the input and the sample times
    the coefficient of row of the sample and column [j]: the kernel is
    called with the input first and the sample second. *)
Theorem Predict_returns_the_kernel_vector_times_the_coefficients
    (w : World T) (x : Vector T) :
  consistent (this w) ->
  1 <= length (m_SampleVectors (this w)) ->
  length x = m_InputDimension (this w) ->
  exists p w',
    Predict junk x w = Returns p w'
    /\ m_Initialized (this w') = true
    /\ m_SampleVectors (this w') = m_SampleVectors (this w)
    /\ length p = m_OutputDimension (this w)
    /\ forall j, j < m_OutputDimension (this w) ->
         vcoeff p j
         = dot (map (fun i => k_eval (m_Kernel (this w')) x (sample (this w') i))
                  (seq 0 (length (m_SampleVectors (this w)))))
               (column (m_RegressionVectors (this w')) j).
Proof.
  intros Hc Hn Hx.
  assert (Hne : m_SampleVectors (this w) <> []).
  { intros E. rewrite E in Hn. simpl in Hn. lia. }
  destruct (Initialize_consistent junk w Hc Hne)
    as [w1 [Hw [Hc1 [Hi1 [Hs1 [Hdi [Hdo _]]]]]]].
  destruct Hc1 as [_ [_ [_ Ht1]]]. destruct (Ht1 Hi1) as [_ [Hr1 Hcols1]].
  assert (Hx' : length x = m_InputDimension (this w1)) by congruence.
  destruct (Predict_ready junk w1 x Hi1 Hr1 Hx') as [p [Hp HP]].
  exists p, w1.
  rewrite (Predict_after_Initialize junk w x Hw Hi1).
  split; [assumption|]. split; [assumption|]. split; [assumption|].
  unfold posterior_mean, vec_mat in Hp.
  rewrite length_KernelVector, Hr1, Nat.eqb_refl in Hp.
  injection Hp as <-.
  split.
  - rewrite length_map, length_seq. congruence.
  - intros j Hj. rewrite vcoeff_map_seq by congruence.
    unfold KernelVector. rewrite Hs1. reflexivity.
Qed.

End PredictionValue.

(* ------------------------------------------------------------------ *)
(** * A trained flag without the invariants *)

Section BrokenInvariants.
Context {T : Type} `{Scalar T} `{KernelLibrary T} `{EigenInverse T}
        `{MatrixIO T} `{StreamFormat} `{FileOpening}.
Variable junk : nat -> nat -> T.

Lemma for_loop_fails {S : Type} (body : nat -> S -> option S)
    (count start i : nat) (s : S) :
  start <= i < start + count ->
  (forall t, body i t = None) ->
  for_loop start count body s = None.
Proof.
  revert start s. induction count as [|count IH]; intros start s Hi Hb; [lia|].
  simpl. destruct (Nat.eq_dec start i) as [->|Hn].
  - rewrite Hb. reflexivity.
  - destruct (body start s) as [s'|]; [|reflexivity]. simpl.
    apply IH; [lia | assumption].
Qed.

(** X21.  A model that is marked trained without keeping the invariants of
    the data model, as a load of files that do not fit each other makes
    it, is not safe to use.  [ComputeKernelVector] takes the number of
    samples from the rows of the coefficients: when these are more than
    the samples, a prediction reads a sample that is not there.  [Save]
    takes the size of the samples from the first: without a sample it
    reads a vector that is not there, and with a second sample of
    another size than the first it assigns a column of another length
    than the block. *)
Theorem trained_flag_without_the_invariants_reads_out_of_range
    (w : World T) (x : Vector T) (prefix : string) :
  m_Initialized (this w) = true ->
  (length (m_SampleVectors (this w)) < rows (m_RegressionVectors (this w)) ->
   length x = m_InputDimension (this w) ->
   Predict junk x w = Undefined /\ PredictDerivative junk x w = Undefined)
  /\ (m_SampleVectors (this w) = [] -> Save prefix w = Undefined)
  /\ (forall v0 v1 vs,
        m_SampleVectors (this w) = v0 :: v1 :: vs ->
        length v1 <> length v0 ->
        Save prefix w = Undefined).
Proof.
  intros Hi. split; [|split].
  - intros Hr Hx.
    assert (Hk : ComputeKernelVector junk x w = Undefined).
    { unfold ComputeKernelVector, bind, get_this, defined. rewrite Hi.
      cbn [negb].
      rewrite (@for_loop_fails _ _ _ 0 (length (m_SampleVectors (this w))));
        [reflexivity | lia |].
      intros t.
      assert (E : nth_error (m_SampleVectors (this w))
                    (length (m_SampleVectors (this w))) = None)
        by (apply nth_error_None; lia).
      rewrite E. reflexivity. }
    split.
    + unfold Predict, bind. rewrite (Initialize_ready junk w Hi).
      rewrite (CheckInputDimension_returns w x _ Hx). rewrite Hk. reflexivity.
    + unfold PredictDerivative, bind. rewrite (Initialize_ready junk w Hi).
      rewrite (CheckInputDimension_returns w x _ Hx). rewrite Hk. reflexivity.
  - intros Hx. unfold Save, WriteMatrix, bind, get_this, set_disk, defined.
    rewrite Hi. cbn [negb this]. rewrite Hx. reflexivity.
  - intros v0 v1 vs Hx Hl.
    unfold Save, WriteMatrix, bind, get_this, set_disk, defined.
    rewrite Hi. cbn [negb this]. rewrite Hx.
    rewrite vectors_as_columns_mismatch by assumption. reflexivity.
Qed.

End BrokenInvariants.

(* ------------------------------------------------------------------ *)
(** * What a comparison that holds says *)

Section ComparisonMeaning.
Context {T : Type} `{Scalar T} `{KernelLibrary T}.

Lemma some_vector_differs_false (us vs : list (Vector T)) (count start : nat) :
  some_vector_differs start count us vs = Some false ->
  forall i, start <= i < start + count ->
    exists u v d, nth_error us i = Some u /\ nth_error vs i = Some v
      /\ vsub u v = Some d /\ s_pos (vnorm d) = false.
Proof.
  revert start. induction count as [|count IH]; intros start Hs i Hi; [lia|].
  simpl in Hs.
  destruct (nth_error us start) as [u|] eqn:Eu; [|discriminate].
  destruct (nth_error vs start) as [v|] eqn:Ev; [|discriminate].
  cbn [obind] in Hs.
  destruct (vsub u v) as [d|] eqn:Ed; [|discriminate]. cbn [obind] in Hs.
  destruct (s_pos (vnorm d)) eqn:Ep; [discriminate|].
  destruct (Nat.eq_dec i start) as [->|Hn].
  - exists u, v, d. repeat split; assumption.
  - apply (IH (S start) Hs). lia.
Qed.

(** X22.  When [a == b] holds, every member that is compared agrees: the
    coefficient matrices have one shape and a difference without
    positive norm; there are as many samples and as many labels, and
    each sample and each label has the size of its counterpart and a
    difference without positive norm; the kernels and the noises are
    not unequal; the initialized flags, both dimensions and the debug
    flags are the same. *)
Theorem equal_holds_only_if_the_compared_members_agree
    (a b : GaussianProcess T) :
  equal a b = Some true ->
  (exists D, msub (m_RegressionVectors a) (m_RegressionVectors b) = Some D
             /\ s_pos (mnorm D) = false)
  /\ length (m_SampleVectors a) = length (m_SampleVectors b)
  /\ (forall i, i < length (m_SampleVectors a) ->
        exists u v d, nth_error (m_SampleVectors a) i = Some u
          /\ nth_error (m_SampleVectors b) i = Some v
          /\ vsub u v = Some d /\ s_pos (vnorm d) = false)
  /\ length (m_LabelVectors a) = length (m_LabelVectors b)
  /\ (forall i, i < length (m_LabelVectors a) ->
        exists u v d, nth_error (m_LabelVectors a) i = Some u
          /\ nth_error (m_LabelVectors b) i = Some v
          /\ vsub u v = Some d /\ s_pos (vnorm d) = false)
  /\ Kernel_neq (m_Kernel a) (m_Kernel b) = false
  /\ s_neq (m_Sigma a) (m_Sigma b) = false
  /\ m_Initialized a = m_Initialized b
  /\ m_InputDimension a = m_InputDimension b
  /\ m_OutputDimension a = m_OutputDimension b
  /\ debug a = debug b.
Proof.
  unfold equal. intros He.
  destruct (msub _ _) as [D|] eqn:ED; [|discriminate]. cbn [obind] in He.
  destruct (s_pos (mnorm D)) eqn:EP; [discriminate|].
  destruct (Nat.eqb_spec (length (m_SampleVectors a)) (length (m_SampleVectors b)))
    as [Ex|Ex]; cbn [negb] in He; [|discriminate].
  destruct (some_vector_differs 0 _ (m_SampleVectors a) _) as [[|]|] eqn:EX;
    cbn [obind] in He; try discriminate.
  destruct (Nat.eqb_spec (length (m_LabelVectors a)) (length (m_LabelVectors b)))
    as [Ey|Ey]; cbn [negb] in He; [|discriminate].
  destruct (some_vector_differs 0 _ (m_LabelVectors a) _) as [[|]|] eqn:EY;
    cbn [obind] in He; try discriminate.
  destruct (Kernel_neq _ _) eqn:EK; [discriminate|].
  destruct (s_neq _ _) eqn:ES; [discriminate|].
  destruct (Bool.eqb (m_Initialized a) (m_Initialized b)) eqn:EI;
    cbn [negb] in He; [|discriminate].
  destruct (Nat.eqb_spec (m_InputDimension a) (m_InputDimension b)) as [Edi|Edi];
    cbn [negb] in He; [|discriminate].
  destruct (Nat.eqb_spec (m_OutputDimension a) (m_OutputDimension b)) as [Edo|Edo];
    cbn [negb] in He; [|discriminate].
  destruct (Bool.eqb (debug a) (debug b)) eqn:EDb;
    cbn [negb] in He; [|discriminate].
  apply Bool.eqb_prop in EI, EDb.
  split; [exists D; split; [reflexivity | assumption]|].
  split; [assumption|].
  split; [intros i Hi; eapply some_vector_differs_false; [exact EX | lia]|].
  split; [assumption|].
  split; [intros i Hi; eapply some_vector_differs_false; [exact EY | lia]|].
  repeat split; assumption.
Qed.

End ComparisonMeaning.

(* ------------------------------------------------------------------ *)
(** * What is not saved *)

Section Unsaved.
Context {T : Type} `{Scalar T} `{KernelLibrary T} `{EigenInverse T}
        `{MatrixIO T} `{StreamFormat} `{FileOpening}.

(** X23.  [Save] reads neither the inversion method nor the
    efficient-storage flag nor the core matrix: whatever they are, it
    does the same and leaves the same files. *)
Theorem Save_does_not_read_the_members_that_are_not_saved
    (prefix : string) (w : World T)
    (m : InversionMethod) (s : bool) (C : Matrix T) :
  Save prefix (with_unsaved m s C w)
  = with_world (with_unsaved m s C) (Save prefix w).
Proof.
  unfold Save, WriteMatrix, bind, get_this, set_disk, defined, throw,
    with_unsaved, with_world.
  cbn [this disk solver_runs m_Initialized with_CoreMatrix with_EfficientStorage
       with_InvMethod m_SampleVectors m_LabelVectors m_RegressionVectors].
  destruct (m_Initialized (this w)); cbn [negb]; [|reflexivity].
  destruct (vectors_as_columns (m_SampleVectors (this w))); [|reflexivity].
  destruct (vectors_as_columns (m_LabelVectors (this w))); reflexivity.
Qed.

End Unsaved.

(* ------------------------------------------------------------------ *)
(** * Facts about [double] *)

Section DoubleFacts.
Import Double DoubleEngine.
Local Open Scope Z_scope.

Lemma normalize_opp (m e : Z) : normalize (- m) e = neg (normalize m e).
Proof.
  destruct m as [|p|p]; simpl; try reflexivity;
    destruct (strip p e); reflexivity.
Qed.

Lemma round_opp (m e : Z) : round (- m) e = neg (round m e).
Proof.
  unfold round. rewrite Z.abs_opp.
  destruct (Z.log2 (Z.abs m) + 1 <=? precision).
  - apply normalize_opp.
  - rewrite Z.sgn_opp, Z.mul_opp_l. apply normalize_opp.
Qed.

Lemma sub_swap (a b : double) : sub b a = neg (sub a b).
Proof.
  destruct a as [ma ea], b as [mb eb]. unfold sub.
  change (neg (ma, ea)) with (- ma, ea). change (neg (mb, eb)) with (- mb, eb).
  unfold add. rewrite <- round_opp. rewrite (Z.min_comm eb ea). f_equal. ring.
Qed.

Lemma mul_neg_neg (a : double) : mul (neg a) (neg a) = mul a a.
Proof.
  destruct a as [m e]. unfold mul, neg. simpl. f_equal. ring.
Qed.

Lemma squared_distance_symmetric (x y : Vector double) :
  squared_distance x y = squared_distance y x.
Proof.
  unfold squared_distance. revert y.
  induction x as [|a x IH]; intros [|b y]; simpl; try reflexivity.
  rewrite IH. rewrite (sub_swap a b). rewrite mul_neg_neg. reflexivity.
Qed.

Lemma stand_in_eval_symmetric (p0 p1 : double) (x y : Vector double) :
  stand_in_eval p0 p1 x y = stand_in_eval p0 p1 y x.
Proof.
  unfold stand_in_eval. rewrite squared_distance_symmetric. reflexivity.
Qed.

Lemma GaussianKernel_symmetric (p0 p1 : double) :
  symmetric (GaussianKernel p0 p1).
Proof. intros x y. apply stand_in_eval_symmetric. Qed.

Lemma sub_self (a : double) : sub a a = zero.
Proof.
  destruct a as [m e]. unfold sub.
  change (neg (m, e)) with (- m, e). unfold add.
  rewrite Z.min_id, Z.sub_diag. change (2 ^ 0) with 1.
  replace (m * 1 + - m * 1) with 0 by ring. reflexivity.
Qed.

(** The laws of the comparison hold of [double], with zero as the one
    null value. *)
#[export] Instance ScalarLaws_double : @ScalarLaws double Scalar_double.
Proof.
  refine (@Build_ScalarLaws double Scalar_double (fun a => a = zero) _ _ _ _ _ _).
  - reflexivity.
  - apply sub_self.
  - intros a ->. reflexivity.
  - intros a b -> ->. reflexivity.
  - intros a ->. reflexivity.
  - intros a ->. reflexivity.
Defined.

End DoubleFacts.

(* ------------------------------------------------------------------ *)
(** * The model of three samples, run *)

Section Runs.
Import Double DoubleEngine Example.

Lemma three_samples_consistent : consistent three_samples.
Proof.
  unfold consistent. simpl.
  repeat split; try (repeat constructor); try discriminate.
Qed.

Lemma Initialize_dirty : Initialize fresh_storage dirty = Returns tt ready.
Proof.
  apply (Initialize_returns fresh_storage dirty);
    [reflexivity | discriminate | reflexivity | repeat constructor].
Qed.

(** C2.  The model of three samples with noise 0.1 + 0.2, trained and
    saved under a prefix: the noise is written with 16 significant
    digits, as 0.3; the model that a fresh model loads from the prefix
    has the [double] nearest to 0.3 as its noise, which is another
    value, and the two models do not compare equal. *)
Theorem Save_then_Load_does_not_restore_sigma :
  m_Initialized (this ready) = true
  /\ k_ToString (m_Kernel (this ready)) = "GaussianKernel"
  /\ saved_parameter_file ready
     = Some (RegularFile "GaussianKernel 2 1 1 0.3 1 1 0")
  /\ m_Sigma (this ready) = (1351079888211149, -52)%Z
  /\ sigma_after_save_and_load ready = Some (5404319552844595, -54)%Z
  /\ equal_after_save_and_load ready = Some false.
Proof.
  split; [reflexivity|]. split; [reflexivity|].
  split; [vm_compute; reflexivity|].
  split; [vm_compute; reflexivity|].
  split; vm_compute; reflexivity.
Qed.

Lemma Initialize_computes_regression_coefficients_witness :
  exists R w',
    Initialize fresh_storage dirty = Returns tt w'
    /\ RegressionCoefficients three_samples = Some R
    /\ m_RegressionVectors (this w') = R
    /\ rows R = 3 /\ cols R = 1
    /\ m_Initialized (this w') = true.
Proof.
  apply (Initialize_computes_regression_coefficients fresh_storage dirty).
  - simpl. lia.
  - reflexivity.
  - apply GaussianKernel_symmetric.
  - reflexivity.
  - repeat constructor.
Defined.

Lemma AddSample_locks_dimensions_and_rejects_mismatch_witness :
  (exists w', AddSample [d 0] [d 0] start = Returns tt w'
     /\ m_InputDimension (this w') = 1
     /\ m_OutputDimension (this w') = 1
     /\ m_SampleVectors (this w') = [[d 0]]
     /\ m_LabelVectors (this w') = [[d 0]]
     /\ m_Initialized (this w') = false)
  /\ (exists e, AddSample [d 3; d 3] [d 9] dirty = Throws e dirty
        /\ DimensionMismatch e)
  /\ (AddSample [d 3] [d 9] dirty = Returns tt four_samples
      /\ m_SampleVectors (this four_samples)
         = m_SampleVectors (this dirty) ++ [[d 3]]
      /\ m_LabelVectors (this four_samples)
         = m_LabelVectors (this dirty) ++ [[d 9]]
      /\ m_Initialized (this four_samples) = false).
Proof.
  split; [|split].
  - apply (proj1 (AddSample_locks_dimensions_and_rejects_mismatch
                    start [d 0] [d 0])); reflexivity.
  - apply (proj1 (proj2 (AddSample_locks_dimensions_and_rejects_mismatch
                           dirty [d 3; d 3] [d 9]))).
    + discriminate.
    + discriminate.
    + left. simpl. lia.
  - split; [reflexivity|].
    apply (proj2 (proj2 (AddSample_locks_dimensions_and_rejects_mismatch
                           dirty [d 3] [d 9]))).
    reflexivity.
Defined.

Lemma Predict_trains_and_Save_refuses_when_not_initialized_witness :
  (exists p, Predict fresh_storage [d 1] dirty = Returns p ready)
  /\ (exists p D, PredictDerivative fresh_storage [d 1] dirty = Returns (p, D) ready)
  /\ Save "gp" dirty = Throws SaveNotInitialized dirty.
Proof.
  apply (Predict_trains_and_Save_refuses_when_not_initialized
           fresh_storage dirty [d 1] "gp").
  - apply three_samples_consistent.
  - reflexivity.
  - simpl. lia.
  - reflexivity.
Defined.

(** C8.  A model without samples is not always refused.  A load of
    three matrices without columns returns a model that has no sample
    and is marked trained, as the files are not compared with each
    other.  On that model [Initialize] returns at once, [Predict]
    returns a prediction of no outputs, and [Save] passes its test and
    reads the first of no samples.  The same holds of every model
    without samples that is marked trained: [Initialize] returns and
    [Save] reads out of range. *)
Theorem loaded_model_without_samples_passes_the_guards :
  exists w',
    Load fresh_storage "gp" (mkWorld fresh files_without_columns []) = Returns tt w'
    /\ m_SampleVectors (this w') = []
    /\ m_Initialized (this w') = true
    /\ Initialize fresh_storage w' = Returns tt w'
    /\ Predict fresh_storage [d 1] w' = Returns [] w'
    /\ Save "gp" w' = Undefined
    /\ (forall (w : World double) (prefix : string),
          m_SampleVectors (this w) = [] ->
          m_Initialized (this w) = true ->
          Initialize fresh_storage w = Returns tt w
          /\ Save prefix w = Undefined).
Proof.
  pose proof (Load_refines fresh_storage "gp"
                (mkWorld fresh files_without_columns [])) as Hr.
  unfold loaded_model in Hr. cbn [disk this] in Hr.
  assert (HR : matrix_in_file ("gp" ++ "-RegressionVectors.txt")%string files_without_columns
               = Some (mkMatrix 0 0 [])) by (vm_compute; reflexivity).
  assert (HX : matrix_in_file ("gp" ++ "-SampleVectors.txt")%string files_without_columns
               = Some (mkMatrix 0 0 [])) by (vm_compute; reflexivity).
  assert (HY : matrix_in_file ("gp" ++ "-LabelVectors.txt")%string files_without_columns
               = Some (mkMatrix 0 0 [])) by (vm_compute; reflexivity).
  assert (Hf : parameter_fields "GaussianKernel 2 1 1 0.5 1 1 0"
               = Some (mkParameterFields "GaussianKernel" [d 1; d 1]
                         (div (d 1) (d 2)) 1 1 false))
    by (vm_compute; reflexivity).
  rewrite HR, HX, HY in Hr. cbn [obind] in Hr.
  change (lookup ("gp" ++ "-ParameterFile.txt")%string files_without_columns)
    with (Some (RegularFile "GaussianKernel 2 1 1 0.5 1 1 0")) in Hr.
  cbv beta iota in Hr.
  assert (Hg : getline "GaussianKernel 2 1 1 0.5 1 1 0"
               = Some "GaussianKernel 2 1 1 0.5 1 1 0") by reflexivity.
  rewrite Hg in Hr. cbn [obind] in Hr. rewrite Hf in Hr.
  cbn [obind pf_kernel_type pf_kernel_parameters] in Hr.
  assert (Hk : kernel_by_name "GaussianKernel" [d 1; d 1]
               = Some (GaussianKernel (d 1) (d 1))) by reflexivity.
  rewrite Hk in Hr.
  cbn [obind] in Hr.
  eexists. split; [exact Hr|].
  cbn [this m_SampleVectors m_Initialized].
  split; [reflexivity|]. split; [reflexivity|].
  split; [reflexivity|]. split; [reflexivity|]. split; [reflexivity|].
  intros w prefix Hx Hi. split.
  - unfold Initialize, bind, get_this, ret. rewrite Hi. reflexivity.
  - unfold Save, WriteMatrix, bind, get_this, set_disk, defined.
    rewrite Hi, Hx. reflexivity.
Qed.

Lemma PredictDerivative_returns_prediction_and_jacobian_witness :
  exists p D w',
    PredictDerivative fresh_storage [d 1] dirty = Returns (p, D) w'
    /\ Predict fresh_storage [d 1] dirty = Returns p w'
    /\ rows D = 1
    /\ cols D = 1
    /\ forall c, c < 1 -> derivative_column (this w') [d 1] c = Some (column D c).
Proof.
  apply (PredictDerivative_returns_prediction_and_jacobian
           fresh_storage dirty [d 1]).
  - apply three_samples_consistent.
  - simpl. lia.
  - reflexivity.
Defined.

Lemma equal_ignores_inversion_method_storage_flag_and_core_matrix_witness :
  equal (trained three_samples) ready_other_caches = Some true
  /\ (forall m1 m2 s1 s2 C1 C2,
        equal (with_CoreMatrix C1 (with_EfficientStorage s1
                 (with_InvMethod m1 (trained three_samples))))
              (with_CoreMatrix C2 (with_EfficientStorage s2
                 (with_InvMethod m2 ready_other_caches)))
        = Some true)
  /\ (forall (a' b' : GaussianProcess double) C1 C2,
        equal (with_CoreMatrix C1 a') (with_CoreMatrix C2 b') = equal a' b').
Proof.
  apply (equal_ignores_inversion_method_storage_flag_and_core_matrix
           (trained three_samples) ready_other_caches).
  - reflexivity.
  - reflexivity.
  - reflexivity.
  - vm_compute. reflexivity.
  - vm_compute. reflexivity.
  - reflexivity.
  - reflexivity.
  - reflexivity.
  - reflexivity.
Defined.



(** [Save] on a model with three samples that is not trained throws:
    it does not train, and it does not complete. *)
Lemma Save_throws_on_samples_not_trained :
  m_Initialized (this dirty) = false
  /\ length (m_SampleVectors (this dirty)) = 3
  /\ Save "gp" dirty = Throws SaveNotInitialized dirty
  /\ ~ (exists w', Save "gp" dirty = Returns tt w').
Proof.
  assert (Hs : Save "gp" dirty = Throws SaveNotInitialized dirty)
    by (apply Save_not_initialized; reflexivity).
  repeat split; try assumption.
  intros [w' Hw']. rewrite Hs in Hw'. discriminate.
Qed.

(** [SetEfficientStorage] on a trained model leaves it trained. *)
Lemma SetEfficientStorage_keeps_initialized :
  m_Initialized (this ready) = true
  /\ exists w', SetEfficientStorage true ready = Returns tt w'
       /\ m_Initialized (this w') = true.
Proof.
  split; [reflexivity|]. eexists. split; reflexivity.
Qed.

End Runs.

(* ------------------------------------------------------------------ *)
(** * The models of three samples, run further *)

Section FurtherRuns.
Import Double DoubleEngine Example.

Lemma ready_consistent : consistent (this ready).
Proof.
  apply trained_consistent; [apply three_samples_consistent | discriminate].
Qed.

Lemma three_planar_samples_consistent : consistent three_planar_samples.
Proof.
  unfold consistent. simpl.
  repeat split; try (repeat constructor); try discriminate.
Qed.

Lemma Predict_dirty :
  exists p, Predict fresh_storage [d 1] dirty = Returns p ready.
Proof.
  rewrite (Predict_after_Initialize fresh_storage dirty [d 1] Initialize_dirty eq_refl).
  destruct (@Predict_ready _ _ _ fresh_storage ready [d 1] eq_refl eq_refl eq_refl)
    as [p [_ Hp]].
  exists p. exact Hp.
Qed.

Lemma prediction_throws_only_for_no_data_or_wrong_dimension_witness :
  Predict fresh_storage [d 1] start = Throws NoInputSamples start
  /\ (NoInputSamples = NoInputSamples \/ NoInputSamples = NoOutputLabels
      \/ NoInputSamples
         = InputDimensionMismatch "GaussianProcess::Predict: "
             (length [d 1]) (m_InputDimension (this start))).
Proof.
  split; [reflexivity|].
  apply (proj1 (proj2 (prediction_throws_only_for_no_data_or_wrong_dimension
                         fresh_storage start start [d 1] NoInputSamples))).
  reflexivity.
Defined.

Lemma prediction_of_wrong_dimension_has_trained_witness :
  Predict fresh_storage [d 1; d 2] dirty
  = Throws (InputDimensionMismatch "GaussianProcess::Predict: " 2 1) ready
  /\ PredictDerivative fresh_storage [d 1; d 2] dirty
     = Throws (InputDimensionMismatch "GaussianProcess::PredictDerivative: " 2 1)
         ready.
Proof.
  apply (prediction_of_wrong_dimension_has_trained fresh_storage dirty [d 1; d 2]).
  - apply three_samples_consistent.
  - reflexivity.
  - simpl. lia.
  - simpl. lia.
Defined.

Lemma prediction_after_prediction_changes_nothing_witness :
  exists p,
    Predict fresh_storage [d 1] dirty = Returns p ready
    /\ forall (x' : Vector double) (w'' : World double),
         (world_after (Predict fresh_storage x' ready) = Some w'' -> w'' = ready)
         /\ (world_after (PredictDerivative fresh_storage x' ready) = Some w'' ->
             w'' = ready).
Proof.
  destruct Predict_dirty as [p Hp]. exists p. split; [exact Hp|].
  apply (prediction_after_prediction_changes_nothing
           fresh_storage dirty [d 1] Hp).
Defined.

Lemma columns_of_vectors_as_columns_witness :
  exists X,
    vectors_as_columns [[d 0]; [d 1]; [d 2]] = Some X
    /\ rows X = 1
    /\ cols X = 3
    /\ map (column X) (seq 0 (cols X)) = [[d 0]; [d 1]; [d 2]].
Proof.
  apply (columns_of_vectors_as_columns (vs := [[d 0]; [d 1]; [d 2]]) (d := 1)).
  - discriminate.
  - repeat constructor.
Defined.

Lemma AddSample_checks_the_input_before_the_output_witness :
  AddSample [d 3; d 3] [d 9; d 9] dirty
  = Throws (InputDimensionMismatch "GaussianProcess::AddSample: " 2 1) dirty.
Proof.
  apply (proj1 (AddSample_checks_the_input_before_the_output
                  dirty [d 3; d 3] [d 9; d 9]
                  ltac:(discriminate) ltac:(discriminate))).
  simpl. lia.
Defined.

Lemma operations_keep_the_data_model_invariants_witness :
  consistent (with_Initialized false (with_Sigma tenth three_samples)).
Proof.
  apply (proj2 (operations_keep_the_data_model_invariants
                  fresh_storage kernel (OpSetSigma tenth) dirty
                  (mkWorld (with_Initialized false (with_Sigma tenth three_samples))
                     [] []))).
  - intros prefix. discriminate.
  - apply three_samples_consistent.
  - reflexivity.
Defined.

Lemma no_operation_is_undefined_on_a_consistent_model_witness :
  perform fresh_storage (OpPredictDerivative [d 1]) dirty <> Undefined.
Proof.
  apply (no_operation_is_undefined_on_a_consistent_model
           fresh_storage (OpPredictDerivative [d 1]) dirty).
  apply three_samples_consistent.
Defined.

Lemma Save_writes_the_four_files_and_no_other_witness :
  (exists w',
     Save "gp" ready = Returns tt w'
     /\ this w' = this ready
     /\ lookup "gp-ParameterFile.txt" (disk w')
        = Some (RegularFile (parameter_line (this ready)))
     /\ lookup "gp-CoreMatrix.txt" (disk w') = lookup "gp-CoreMatrix.txt" (disk ready))
  /\ (exists w',
        Save "nowhere/gp" ready = Returns tt w'
        /\ lookup "nowhere/gp-ParameterFile.txt" (disk w') = None).
Proof.
  split.
  - destruct (Save_writes_the_four_files_and_no_other "gp" ready)
      as [w' [X [Y [Hs [Ht [_ [Ho [_ [_ [Hw _]]]]]]]]]].
    + apply ready_consistent.
    + reflexivity.
    + exists w'. split; [exact Hs|]. split; [exact Ht|]. split.
      * apply Hw; [discriminate | reflexivity].
      * apply Ho; discriminate.
  - destruct (Save_writes_the_four_files_and_no_other "nowhere/gp" ready)
      as [w' [X [Y [Hs [_ [_ [_ [_ [_ [_ Hn]]]]]]]]]].
    + apply ready_consistent.
    + reflexivity.
    + exists w'. split; [exact Hs|].
      change (lookup ("nowhere/gp" ++ "-ParameterFile.txt") (disk w') = None).
      rewrite Hn; [reflexivity | right; reflexivity].
Defined.

Lemma Load_after_Save_restores_samples_labels_and_coefficients_witness :
  exists saved,
    Save "gp" ready = Returns tt saved
    /\ forall (loader loaded : World double),
         disk loader = disk saved ->
         Load fresh_storage "gp" loader = Returns tt loaded ->
         m_RegressionVectors (this loaded) = m_RegressionVectors (this ready)
         /\ m_SampleVectors (this loaded) = m_SampleVectors (this ready)
         /\ m_LabelVectors (this loaded) = m_LabelVectors (this ready)
         /\ m_Initialized (this loaded) = true.
Proof.
  apply (Load_after_Save_restores_samples_labels_and_coefficients
           fresh_storage "gp" ready).
  - apply ready_consistent.
  - reflexivity.
  - discriminate.
  - discriminate.
  - discriminate.
  - vm_compute. reflexivity.
  - intros X HX. vm_compute in HX. injection HX as <-. vm_compute. reflexivity.
  - intros Y HY. vm_compute in HY. injection HY as <-. vm_compute. reflexivity.
Defined.

Lemma Load_returns_the_model_of_the_files_witness :
  exists w',
    Load fresh_storage "gp" (mkWorld fresh files_of_a_model []) = Returns tt w'
    /\ m_Initialized (this w') = true
    /\ solver_runs w' = []
    /\ m_SampleVectors (this w') = [[d 0]; [d 1]; [d 2]]
    /\ m_LabelVectors (this w') = [[d 0]; [d 1]; [d 4]]
    /\ rows (m_RegressionVectors (this w')) = 3
    /\ m_Sigma (this w') = div (d 1) (d 2).
Proof.
  eexists. split.
  - apply (Load_returns_the_model_of_the_files fresh_storage "gp"
             (mkWorld fresh files_of_a_model [])
             (R := mkMatrix 3 1 [[d 1]; [d 2]; [d 3]])
             (X := mkMatrix 1 3 [[d 0; d 1; d 2]])
             (Y := mkMatrix 1 3 [[d 0; d 1; d 4]])
             (content := "GaussianKernel 2 1 1 0.5 1 1 0")
             (line := "GaussianKernel 2 1 1 0.5 1 1 0")
             (f := mkParameterFields "GaussianKernel" [d 1; d 1]
                     (div (d 1) (d 2)) 1 1 false)
             (k := GaussianKernel (d 1) (d 1))).
    + vm_compute. reflexivity.
    + vm_compute. reflexivity.
    + vm_compute. reflexivity.
    + reflexivity.
    + reflexivity.
    + vm_compute. reflexivity.
    + reflexivity.
  - cbn [this solver_runs m_Initialized m_SampleVectors m_LabelVectors
         m_RegressionVectors m_Sigma rows pf_sigma].
    repeat split; vm_compute; reflexivity.
Defined.

Lemma Load_of_an_empty_parameter_file_does_not_recognize_the_kernel_witness :
  exists w',
    Load fresh_storage "gp" (mkWorld fresh files_with_empty_parameters [])
    = Throws KernelNotRecognized w'
    /\ m_SampleVectors (this w') = [[d 0]; [d 1]; [d 2]]
    /\ m_Initialized (this w') = false.
Proof.
  eexists. split.
  - apply (Load_of_an_empty_parameter_file_does_not_recognize_the_kernel
             fresh_storage "gp"
             (mkWorld fresh files_with_empty_parameters [])
             (R := mkMatrix 3 1 [[d 1]; [d 2]; [d 3]])
             (X := mkMatrix 1 3 [[d 0; d 1; d 2]])
             (Y := mkMatrix 1 3 [[d 0; d 1; d 4]]));
      try (vm_compute; reflexivity); reflexivity.
  - cbn [this m_SampleVectors m_Initialized with_LabelVectors with_SampleVectors
         with_RegressionVectors].
    split; [vm_compute; reflexivity | reflexivity].
Defined.

Lemma members_are_written_by_their_own_operations_only_witness :
  m_CoreMatrix (this four_samples) = m_CoreMatrix (this dirty)
  /\ (m_InvMethod (this four_samples) <> m_InvMethod (this dirty) ->
      exists m, OpAddSample [d 3] [d 9] = OpSetInversionMethod (T := double) m)
  /\ (m_EfficientStorage (this four_samples) <> m_EfficientStorage (this dirty) ->
      exists s, OpAddSample [d 3] [d 9] = OpSetEfficientStorage (T := double) s)
  /\ (m_Kernel (this four_samples) <> m_Kernel (this dirty) ->
      (exists k, OpAddSample [d 3] [d 9] = OpSetKernel k)
      \/ (exists prefix, OpAddSample [d 3] [d 9] = OpLoad (T := double) prefix))
  /\ (m_Sigma (this four_samples) <> m_Sigma (this dirty) ->
      (exists sigma, OpAddSample [d 3] [d 9] = OpSetSigma sigma)
      \/ (exists prefix, OpAddSample [d 3] [d 9] = OpLoad (T := double) prefix))
  /\ (m_RegressionVectors (this four_samples) <> m_RegressionVectors (this dirty) ->
      trains (OpAddSample [d 3] [d 9])
      \/ (exists prefix, OpAddSample [d 3] [d 9] = OpLoad (T := double) prefix))
  /\ (disk four_samples <> disk dirty ->
      exists prefix, OpAddSample [d 3] [d 9] = OpSave (T := double) prefix).
Proof.
  apply (members_are_written_by_their_own_operations_only
           fresh_storage (OpAddSample [d 3] [d 9]) dirty).
  reflexivity.
Defined.

Lemma stored_samples_are_never_dropped_or_changed_witness :
  ((m_SampleVectors (this four_samples) = m_SampleVectors (this dirty)
    /\ m_LabelVectors (this four_samples) = m_LabelVectors (this dirty))
   \/ (exists x y, OpAddSample [d 3] [d 9] = OpAddSample x y
         /\ perform fresh_storage (OpAddSample [d 3] [d 9]) dirty
            = Returns tt four_samples
         /\ m_SampleVectors (this four_samples)
            = m_SampleVectors (this dirty) ++ [x]
         /\ m_LabelVectors (this four_samples)
            = m_LabelVectors (this dirty) ++ [y]))
  /\ (m_SampleVectors (this dirty) <> [] ->
      m_InputDimension (this four_samples) = m_InputDimension (this dirty))
  /\ (m_LabelVectors (this dirty) <> [] ->
      m_OutputDimension (this four_samples) = m_OutputDimension (this dirty)).
Proof.
  apply (stored_samples_are_never_dropped_or_changed
           fresh_storage (op := OpAddSample [d 3] [d 9]) dirty).
  - intros prefix. discriminate.
  - reflexivity.
Defined.

Lemma training_after_a_change_uses_the_changed_model_witness :
  (forall sigma,
      (SetSigma sigma ;; Initialize fresh_storage) ready
      = Returns tt
          (mkWorld (trained (with_Initialized false (with_Sigma sigma (this ready))))
             [] [3; 3]))
  /\ (forall k,
        (SetKernel k ;; Initialize fresh_storage) ready
        = Returns tt
            (mkWorld (trained (with_Initialized false (with_Kernel k (this ready))))
               [] [3; 3]))
  /\ (forall x y,
        length x = 1 ->
        length y = 1 ->
        (AddSample x y ;; Initialize fresh_storage) ready
        = Returns tt
            (mkWorld
               (trained
                  (with_Initialized false
                     (with_LabelVectors (m_LabelVectors (this ready) ++ [y])
                        (with_SampleVectors (m_SampleVectors (this ready) ++ [x])
                           (this ready)))))
               [] [4; 3])).
Proof.
  apply (training_after_a_change_uses_the_changed_model fresh_storage ready).
  - apply ready_consistent.
  - simpl. lia.
Defined.

Lemma comparison_is_defined_on_models_of_one_shape_witness :
  (equal (trained three_samples) three_samples = None
   /\ not_equal (trained three_samples) three_samples = None)
  /\ (exists r, equal three_samples three_samples = Some r
                /\ not_equal three_samples three_samples = Some (negb r))
  /\ (equal three_samples three_planar_samples = None
      /\ not_equal three_samples three_planar_samples = None).
Proof.
  split; [|split].
  - apply (proj1 (comparison_is_defined_on_models_of_one_shape
                    (trained three_samples) three_samples)).
    left. simpl. lia.
  - apply (proj1 (proj2 (comparison_is_defined_on_models_of_one_shape
                           three_samples three_samples)));
      try apply three_samples_consistent; reflexivity.
  - apply (proj2 (proj2 (comparison_is_defined_on_models_of_one_shape
                           three_samples three_planar_samples))).
    + apply three_samples_consistent.
    + apply three_planar_samples_consistent.
    + eexists. split; [reflexivity | vm_compute; reflexivity].
    + reflexivity.
    + discriminate.
    + simpl. lia.
Defined.

Lemma getters_read_what_was_added_and_set_witness :
  GetNumberOfSamples four_samples = Returns 4 four_samples
  /\ GetNumberOfInputDimensions four_samples = Returns 1 four_samples.
Proof.
  apply (proj1 (getters_read_what_was_added_and_set dirty [d 3] [d 9])).
  reflexivity.
Defined.

Lemma Predict_returns_the_kernel_vector_times_the_coefficients_witness :
  exists p w',
    Predict fresh_storage [d 1] dirty = Returns p w'
    /\ m_Initialized (this w') = true
    /\ m_SampleVectors (this w') = m_SampleVectors (this dirty)
    /\ length p = 1
    /\ forall j, j < 1 ->
         vcoeff p j
         = dot (map (fun i => k_eval (m_Kernel (this w')) [d 1] (sample (this w') i))
                  (seq 0 3))
               (column (m_RegressionVectors (this w')) j).
Proof.
  apply (Predict_returns_the_kernel_vector_times_the_coefficients
           fresh_storage dirty [d 1]).
  - apply three_samples_consistent.
  - simpl. lia.
  - reflexivity.
Defined.

Lemma trained_flag_without_the_invariants_reads_out_of_range_witness :
  (Predict fresh_storage [d 1] four_coefficient_rows = Undefined
   /\ PredictDerivative fresh_storage [d 1] four_coefficient_rows = Undefined)
  /\ Save "gp" marked_trained_without_samples = Undefined.
Proof.
  split.
  - apply (proj1 (trained_flag_without_the_invariants_reads_out_of_range
                    fresh_storage four_coefficient_rows [d 1] "gp" eq_refl)).
    + simpl. lia.
    + reflexivity.
  - apply (proj1 (proj2 (trained_flag_without_the_invariants_reads_out_of_range
                           fresh_storage marked_trained_without_samples [d 1] "gp"
                           eq_refl))).
    reflexivity.
Defined.

Lemma equal_holds_only_if_the_compared_members_agree_witness :
  length (m_SampleVectors (trained three_samples))
  = length (m_SampleVectors ready_other_caches)
  /\ m_Initialized (trained three_samples) = m_Initialized ready_other_caches
  /\ m_InputDimension (trained three_samples) = m_InputDimension ready_other_caches
  /\ debug (trained three_samples) = debug ready_other_caches.
Proof.
  assert (He : equal (trained three_samples) ready_other_caches = Some true).
  { apply equal_when_members_agree; try reflexivity; vm_compute; reflexivity. }
  pose proof (equal_holds_only_if_the_compared_members_agree
                (trained three_samples) ready_other_caches He) as Hm.
  tauto.
Defined.


Lemma no_sample_no_prediction_unless_loaded_witness :
  m_Initialized (this start) = false
  /\ Initialize fresh_storage start = Throws NoInputSamples start
  /\ Predict fresh_storage [d 1] start = Throws NoInputSamples start
  /\ PredictDerivative fresh_storage [d 1] start = Throws NoInputSamples start
  /\ Save "gp" start = Throws SaveNotInitialized start
  /\ (forall (op : Operation) (w0 w' : World double),
         world_after (perform fresh_storage op w0) = Some w' ->
         solver_runs w' = solver_runs w0
         \/ (1 <= length (m_SampleVectors (this w0))
             /\ solver_runs w'
                = length (m_SampleVectors (this w0)) :: solver_runs w0)).
Proof.
  apply no_sample_no_prediction_unless_loaded.
  - exact (built_by_constructor fresh_storage kernel []).
  - reflexivity.
Defined.

End FurtherRuns.
